(** * Asset build pipeline of the church landing page: model and properties

    The pipeline lives in three scripts: [scripts/optimize-css.js]
    (of which the purge and the minification of style sheets are
    modelled), [scripts/build.js] (the orchestrator with the script and
    markup minifiers, the budget validator and the report) and
    [scripts/optimize-images.js] (of which the acquisition of the image
    catalog is modelled).

    JavaScript strings are sequences of UTF-16 code units; they are
    modelled as lists of code units, a code unit being a natural number
    in binary ([N]).  Every regular expression of the scripts is
    rendered as the left-to-right scanner it denotes. *)

From Stdlib Require Import List NArith ZArith Bool Lia Btauto String Ascii.
Import ListNotations.

Set Warnings "-register-all".

Local Open Scope string_scope.
Local Open Scope list_scope.
Local Open Scope N_scope.

(** ** JavaScript string primitives *)

Module Js.

Definition char := N.
Definition jsstring := list char.

(** An ASCII literal as a JavaScript string. *)
Definition lit (s : string) : jsstring :=
  map N_of_ascii (list_ascii_of_string s).

Definition TAB : char := 9.
Definition LF : char := 10.
Definition CR : char := 13.
Definition SPACE : char := 32.
Definition DQUOTE : char := 34.
Definition DOLLAR : char := 36.
Definition AMP : char := 38.
Definition SQUOTE : char := 39.
Definition LPAREN : char := 40.
Definition RPAREN : char := 41.
Definition STAR : char := 42.
Definition PLUS : char := 43.
Definition COMMA : char := 44.
Definition DOT : char := 46.
Definition SLASH : char := 47.
Definition COLON : char := 58.
Definition SEMI : char := 59.
Definition GT : char := 62.
Definition AT : char := 64.
Definition BACKTICK : char := 96.
Definition HASH : char := 35.
Definition LBRACE : char := 123.
Definition RBRACE : char := 125.
Definition TILDE : char := 126.

(** [\s] of a regular expression, which is also what [trim] removes:
    WhiteSpace and LineTerminator of the language. *)
Definition is_space (c : char) : bool :=
  (c =? 9) || (c =? 10) || (c =? 11) || (c =? 12) || (c =? 13) || (c =? 32)
  || (c =? 160) || (c =? 5760) || ((8192 <=? c) && (c <=? 8202))
  || (c =? 8232) || (c =? 8233) || (c =? 8239) || (c =? 8287)
  || (c =? 12288) || (c =? 65279).

(** What [.] does not match. *)
Definition is_line_terminator (c : char) : bool :=
  (c =? 10) || (c =? 13) || (c =? 8232) || (c =? 8233).

(** [\w]: ASCII letters, digits and the underscore. *)
Definition is_word (c : char) : bool :=
  ((48 <=? c) && (c <=? 57)) || ((65 <=? c) && (c <=? 90))
  || (c =? 95) || ((97 <=? c) && (c <=? 122)).

Fixpoint trimStart (s : jsstring) : jsstring :=
  match s with
  | [] => []
  | c :: t => if is_space c then trimStart t else s
  end.

Definition trimEnd (s : jsstring) : jsstring := rev (trimStart (rev s)).

Definition trim (s : jsstring) : jsstring := trimEnd (trimStart s).

Fixpoint startsWith (s p : jsstring) {struct p} : bool :=
  match p, s with
  | [], _ => true
  | _ :: _, [] => false
  | a :: p', b :: s' => (a =? b) && startsWith s' p'
  end.

Fixpoint includes (s p : jsstring) : bool :=
  startsWith s p ||
  match s with
  | [] => false
  | _ :: t => includes t p
  end.

Definition endsWith (s p : jsstring) : bool := startsWith (rev s) (rev p).

(** [s.split(sep)] for a one-character separator: the pieces between
    the separators, one more than there are separators. *)
Fixpoint split (sep : char) (s : jsstring) : list jsstring :=
  match s with
  | [] => [[]]
  | c :: t =>
      if c =? sep then [] :: split sep t
      else match split sep t with
           | [] => [[c]]
           | h :: r => (c :: h) :: r
           end
  end.

(** [parts.join(sep)]. *)
Fixpoint join (sep : jsstring) (parts : list jsstring) : jsstring :=
  match parts with
  | [] => []
  | [p] => p
  | p :: rest => p ++ sep ++ join sep rest
  end.

(** [s.split(/\s+/)]: the pieces between maximal runs of white space;
    a leading or trailing run leaves an empty piece at that end. *)
Fixpoint splitWhitespace_go (inRun : bool) (s : jsstring) : list jsstring :=
  match s with
  | [] => [[]]
  | c :: t =>
      if is_space c then
        if inRun then splitWhitespace_go true t
        else [] :: splitWhitespace_go true t
      else match splitWhitespace_go false t with
           | [] => [[c]]
           | h :: r => (c :: h) :: r
           end
  end.

Definition splitWhitespace (s : jsstring) : list jsstring :=
  splitWhitespace_go false s.

(** *** Scanners shared by the minifiers *)

(** [/\/\*[\s\S]*?\*\//g] replaced by the empty string.  A comment
    opens at a slash-star only when a star-slash follows the opener;
    it then runs to the first one. *)
Fixpoint stripBlockComments_go (inside : bool) (s : jsstring) : jsstring :=
  match s with
  | [] => []
  | c :: t =>
      if inside then
        match t with
        | [] => []
        | d :: t' =>
            if (c =? STAR) && (d =? SLASH) then stripBlockComments_go false t'
            else stripBlockComments_go true t
        end
      else
        match t with
        | [] => [c]
        | d :: t' =>
            if (c =? SLASH) && (d =? STAR) && includes t' [STAR; SLASH]
            then stripBlockComments_go true t'
            else c :: stripBlockComments_go false t
        end
  end.

Definition stripBlockComments (s : jsstring) : jsstring :=
  stripBlockComments_go false s.

(** [/\/\/.*/g] replaced by the empty string: from two slashes to the
    end of the line, the line terminator staying.  The second slash is
    consumed as the first character inside the comment. *)
Fixpoint stripLineComments_go (inside : bool) (s : jsstring) : jsstring :=
  match s with
  | [] => []
  | c :: t =>
      if inside then
        if is_line_terminator c then c :: stripLineComments_go false t
        else stripLineComments_go true t
      else
        match t with
        | [] => [c]
        | d :: _ =>
            if (c =? SLASH) && (d =? SLASH) then stripLineComments_go true t
            else c :: stripLineComments_go false t
        end
  end.

Definition stripLineComments (s : jsstring) : jsstring :=
  stripLineComments_go false s.

(** [/\s+/g] replaced by one space. *)
Fixpoint collapseWhitespace_go (inRun : bool) (s : jsstring) : jsstring :=
  match s with
  | [] => []
  | c :: t =>
      if is_space c then
        if inRun then collapseWhitespace_go true t
        else SPACE :: collapseWhitespace_go true t
      else c :: collapseWhitespace_go false t
  end.

Definition collapseWhitespace (s : jsstring) : jsstring :=
  collapseWhitespace_go false s.

Section Punctuation.

(** The character class of the capture group in
    [/\s*([...])\s*/g]; the replacement is the captured character. *)
Variable is_punct : char -> bool.

(** A run of white space followed by a character of the class. *)
Fixpoint punctAhead (s : jsstring) : bool :=
  match s with
  | [] => false
  | c :: t => if is_space c then punctAhead t else is_punct c
  end.

(** [after] holds while the white space that follows a matched
    character is being consumed. *)
Fixpoint tighten_go (after : bool) (s : jsstring) : jsstring :=
  match s with
  | [] => []
  | c :: t =>
      if is_punct c then c :: tighten_go true t
      else if is_space c then
        if after || punctAhead t then tighten_go after t
        else c :: tighten_go false t
      else c :: tighten_go false t
  end.

Definition tighten (s : jsstring) : jsstring := tighten_go false s.

End Punctuation.

End Js.

(** ** [scripts/optimize-css.js] *)

Module OptimizeCss.

Import Js.

(** The class [[{}:;,>+~]] of [minifyCSS]. *)
Definition is_punct (c : char) : bool :=
  (c =? LBRACE) || (c =? RBRACE) || (c =? COLON) || (c =? SEMI)
  || (c =? COMMA) || (c =? GT) || (c =? PLUS) || (c =? TILDE).

Definition is_brace (c : char) : bool := (c =? LBRACE) || (c =? RBRACE).

(** [/;}/g] replaced by a closing brace: a semicolon goes when a closing
    brace is the next character. *)
Fixpoint dropTrailingSemicolons (s : jsstring) : jsstring :=
  match s with
  | [] => []
  | c :: t =>
      match t with
      | [] => [c]
      | d :: _ =>
          if (c =? SEMI) && (d =? RBRACE) then dropTrailingSemicolons t
          else c :: dropTrailingSemicolons t
      end
  end.

(** [\s*\}] at the head of [s]. *)
Fixpoint closesEmpty (s : jsstring) : bool :=
  match s with
  | [] => false
  | c :: t =>
      if c =? RBRACE then true
      else if is_space c then closesEmpty t
      else false
  end.

(** [[^{}]*\{\s*\}] at the head of [s]. *)
Fixpoint emptyRuleAhead (s : jsstring) : bool :=
  match s with
  | [] => false
  | c :: t =>
      if c =? LBRACE then closesEmpty t
      else if c =? RBRACE then false
      else emptyRuleAhead t
  end.

Inductive ruleMode := Scan | InSelector | InBody.

(** [/[^{}]+\{\s*\}/g] replaced by the empty string.  A match starts at
    a character that is no brace when the run of such characters ends
    at an opening brace closed after white space only. *)
Fixpoint dropEmptyRules_go (m : ruleMode) (s : jsstring) : jsstring :=
  match s with
  | [] => []
  | c :: t =>
      match m with
      | Scan =>
          if is_brace c then c :: dropEmptyRules_go Scan t
          else if emptyRuleAhead s then dropEmptyRules_go InSelector t
          else c :: dropEmptyRules_go Scan t
      | InSelector =>
          if c =? LBRACE then dropEmptyRules_go InBody t
          else dropEmptyRules_go InSelector t
      | InBody =>
          if c =? RBRACE then dropEmptyRules_go Scan t
          else dropEmptyRules_go InBody t
      end
  end.

Definition dropEmptyRules (s : jsstring) : jsstring :=
  dropEmptyRules_go Scan s.

Definition minifyCSS (css : jsstring) : jsstring :=
  let minified := css in
  let minified := stripBlockComments minified in
  let minified := collapseWhitespace minified in
  let minified := tighten is_punct minified in
  let minified := dropTrailingSemicolons minified in
  let minified := dropEmptyRules minified in
  trim minified.

(** *** Purge *)

Definition is_quote (c : char) : bool := (c =? DQUOTE) || (c =? SQUOTE).

(** A non-empty run of characters that are no quotes, then a quote
    (double or single), at the head of [s]. *)
Definition valueAhead (s : jsstring) : bool :=
  match s with
  | [] => false
  | c :: t => negb (is_quote c) && existsb is_quote t
  end.

(** A quote, such a run and a quote at the head of [s]. *)
Definition quotedAhead (s : jsstring) : bool :=
  match s with
  | [] => false
  | q :: v => is_quote q && valueAhead v
  end.

Fixpoint untilQuote (s : jsstring) : jsstring :=
  match s with
  | [] => []
  | c :: t => if is_quote c then [] else c :: untilQuote t
  end.

Inductive attrMode := Seek | Skip (n : nat) | Value.

(** The captures of the successive matches of the attribute pattern
    ([key], a quote, the captured run of characters that are no quotes,
    a quote), as the [exec] loops of [purgeUnusedCSS] see them: the next
    match is looked for after the closing quote of the previous one. *)
Fixpoint attrValues_go (key : jsstring) (m : attrMode) (s : jsstring)
  : list jsstring :=
  match s with
  | [] => []
  | c :: t =>
      match m with
      | Seek =>
          if startsWith s key && quotedAhead (skipn (List.length key) s)
          then untilQuote (skipn (S (List.length key)) s)
                 :: attrValues_go key (Skip (List.length key)) t
          else attrValues_go key Seek t
      | Skip n =>
          match n with
          | S (S k) => attrValues_go key (Skip (S k)) t
          | _ => attrValues_go key Value t
          end
      | Value =>
          if is_quote c then attrValues_go key Seek t
          else attrValues_go key Value t
      end
  end.

Definition attrValues (key html : jsstring) : list jsstring :=
  attrValues_go key Seek html.

Definition usedClasses (html : jsstring) : list jsstring :=
  flat_map splitWhitespace (attrValues (lit "class=") html).

Definition usedIds (html : jsstring) : list jsstring :=
  attrValues (lit "id=") html.

(** The alternatives of the element allow-list. *)
Definition elementNames : list jsstring :=
  map lit
    ["html"; "body"; "a"; "p"; "h1"; "h2"; "h3"; "h4"; "h5"; "h6";
     "ul"; "ol"; "li"; "img"; "button"; "input"; "select"; "textarea";
     "form"; "table"; "tr"; "td"; "th"; "div"; "span"; "section";
     "article"; "header"; "footer"; "nav"; "main"].

(** [^(html|body|...)\b]: one of the names is a prefix and no word
    character follows it. *)
Definition startsWithElement (s : jsstring) : bool :=
  existsb
    (fun name =>
       startsWith s name &&
       match skipn (List.length name) s with
       | [] => true
       | c :: _ => negb (is_word c)
       end)
    elementNames.

Definition nonEmpty (s : jsstring) : bool :=
  match s with [] => false | _ :: _ => true end.

(** The part of a rule before its first opening brace. *)
Definition selectorOf (rule : jsstring) : jsstring :=
  hd [] (split LBRACE rule).

Definition rulesOf (css : jsstring) : list jsstring :=
  filter (fun rule => nonEmpty (trim rule)) (split RBRACE css).

Definition shouldKeep (classes ids : list jsstring) (selectorTrimmed : jsstring)
  : bool :=
  startsWith selectorTrimmed [AT]
  || startsWith selectorTrimmed [COLON]
  || includes selectorTrimmed [COLON; COLON]
  || existsb (fun cls => includes selectorTrimmed (DOT :: cls)) classes
  || existsb (fun id => includes selectorTrimmed (HASH :: id)) ids
  || startsWithElement selectorTrimmed.

Definition keepsRule (classes ids : list jsstring) (rule : jsstring) : bool :=
  let selector := selectorOf rule in
  nonEmpty selector && shouldKeep classes ids (trim selector).

Definition purgeUnusedCSS (css html : jsstring) : jsstring :=
  let classes := usedClasses html in
  let ids := usedIds html in
  let purgedRules :=
    map (fun rule => rule ++ [RBRACE])
        (filter (keepsRule classes ids) (rulesOf css)) in
  join [LF] purgedRules.

End OptimizeCss.

(** ** [scripts/build.js] *)

Module Build.

Import Js.

(** *** Results and the files the stages touch *)

Definition path := string.

Inductive error :=
| ReadError (p : path)
| WriteError (p : path)
| StageError (message : string).

(** [Result.ok(value)] and [Result.err(error)]. *)
Inductive Result (A : Type) :=
| Ok (value : A)
| Err (e : error).
Arguments Ok {A} value.
Arguments Err {A} e.

Definition isOk {A} (r : Result A) : bool :=
  match r with Ok _ => true | Err _ => false end.

(** The text files a stage reads and writes.  [readFile] throws where
    [files] has nothing; [writeFile] throws where [writable] is false
    (missing parent directory, no permission). *)
Record fileSystem := {
  files : path -> option jsstring;
  writable : path -> bool
}.

Definition readFile (fs : fileSystem) (p : path) : Result jsstring :=
  match files fs p with
  | Some content => Ok content
  | None => Err (ReadError p)
  end.

Definition writeFile (fs : fileSystem) (p : path) (content : jsstring)
  : Result fileSystem :=
  if writable fs p
  then Ok {| files := fun q => if String.eqb q p then Some content else files fs q;
             writable := writable fs |}
  else Err (WriteError p).

(** What the minifiers return for a file; the percentage string
    [compressionRatio], a formatted floating-point number, is left out. *)
Record artifact := {
  inputPath : path;
  outputPath : path;
  originalSize : nat;
  producedSize : nat
}.

(** *** Script minification *)

(** The class [[{}();,:]] of [minifyJSFile]. *)
Definition is_punct (c : char) : bool :=
  (c =? LBRACE) || (c =? RBRACE) || (c =? LPAREN) || (c =? RPAREN)
  || (c =? SEMI) || (c =? COMMA) || (c =? COLON).

(** The text transformation of [minifyJSFile], between its read and
    its write. *)
Definition minifyJS (content : jsstring) : jsstring :=
  let minified := content in
  let minified := stripBlockComments minified in
  let minified := stripLineComments minified in
  let minified := collapseWhitespace minified in
  let minified := tighten is_punct minified in
  trim minified.

Definition minifyJSFile (fs : fileSystem) (inputPath outputPath : path)
  : fileSystem * Result artifact :=
  match readFile fs inputPath with
  | Err e => (fs, Err e)
  | Ok content =>
      let minified := minifyJS content in
      match writeFile fs outputPath minified with
      | Err e => (fs, Err e)
      | Ok fs' =>
          (fs', Ok {| inputPath := inputPath; outputPath := outputPath;
                      originalSize := List.length content;
                      producedSize := List.length minified |})
      end
  end.

(** *** Markup optimisation *)

Inductive commentMode := Outside | Opening (n : nat) | Inside.

Definition commentOpens (s : jsstring) : bool :=
  startsWith s (lit "<!--")
  && negb (startsWith (skipn 4 s) (lit "[if"))
  && includes (skipn 4 s) (lit "-->").

(** [/<!--(?!\[if)[\s\S]*?-->/g] replaced by the empty string: a comment
    opener not followed by [[if], up to the first closer after it. *)
Fixpoint stripHtmlComments_go (m : commentMode) (s : jsstring) : jsstring :=
  match s with
  | [] => []
  | c :: t =>
      match m with
      | Outside =>
          if commentOpens s then stripHtmlComments_go (Opening 3) t
          else c :: stripHtmlComments_go Outside t
      | Opening n =>
          match n with
          | S (S k) => stripHtmlComments_go (Opening (S k)) t
          | _ => stripHtmlComments_go Inside t
          end
      | Inside =>
          match t with
          | d :: e :: t' =>
              if (c =? 45) && (d =? 45) && (e =? GT)
              then stripHtmlComments_go Outside t'
              else stripHtmlComments_go Inside t
          | _ => []
          end
      end
  end.

Definition stripHtmlComments (s : jsstring) : jsstring :=
  stripHtmlComments_go Outside s.

(** [\s*<] at the head of [s]. *)
Fixpoint tagAfterSpaces (s : jsstring) : bool :=
  match s with
  | [] => false
  | c :: t => if is_space c then tagAfterSpaces t else c =? 60
  end.

(** [/>\s+</g] replaced by the two angle brackets. *)
Fixpoint joinTags_go (inGap : bool) (s : jsstring) : jsstring :=
  match s with
  | [] => []
  | c :: t =>
      if inGap then
        if is_space c then joinTags_go true t
        else c :: joinTags_go false t
      else if (c =? GT)
              && match t with
                 | [] => false
                 | d :: r => is_space d && tagAfterSpaces r
                 end
      then c :: joinTags_go true t
      else c :: joinTags_go false t
  end.

Definition joinTags (s : jsstring) : jsstring := joinTags_go false s.

Fixpoint untilGt (s : jsstring) : jsstring :=
  match s with
  | [] => []
  | c :: t => if c =? GT then [] else c :: untilGt t
  end.

Fixpoint afterGt (s : jsstring) : jsstring :=
  match s with
  | [] => []
  | c :: t => if c =? GT then t else afterGt t
  end.

Definition relStylesheet : list jsstring :=
  map (fun qq => lit "rel=" ++ [fst qq] ++ lit "stylesheet" ++ [snd qq])
      [(DQUOTE, DQUOTE); (DQUOTE, SQUOTE); (SQUOTE, DQUOTE); (SQUOTE, SQUOTE)].

(** The link pattern at the head of [s]: the opener of a link tag, then,
    before the first closing angle bracket, the [rel] attribute with the
    quoted value [stylesheet]. *)
Definition linkAt (s : jsstring) : bool :=
  startsWith s (lit "<link")
  && existsb (N.eqb GT) (skipn 5 s)
  && existsb (includes (untilGt (skipn 5 s))) relStylesheet.

(** The leftmost match of the link pattern: what precedes it, the tag
    and what follows it. *)
Fixpoint findStylesheetLink (s : jsstring)
  : option (jsstring * jsstring * jsstring) :=
  match s with
  | [] => None
  | c :: t =>
      if linkAt s
      then Some ([], lit "<link" ++ untilGt (skipn 5 s) ++ [GT],
                 afterGt (skipn 5 s))
      else match findStylesheetLink t with
           | Some (before, tag, after) => Some (c :: before, tag, after)
           | None => None
           end
  end.

(** The replacement text of [replace] with a string: the dollar
    patterns are expanded (there is no capture group in the link
    pattern, so a dollar before a digit stays as it is). *)
Fixpoint expandReplacement (before matched after repl : jsstring) : jsstring :=
  match repl with
  | [] => []
  | c :: r =>
      match r with
      | d :: r' =>
          if c =? DOLLAR then
            if d =? DOLLAR then DOLLAR :: expandReplacement before matched after r'
            else if d =? AMP then matched ++ expandReplacement before matched after r'
            else if d =? BACKTICK then before ++ expandReplacement before matched after r'
            else if d =? SQUOTE then after ++ expandReplacement before matched after r'
            else c :: expandReplacement before matched after r
          else c :: expandReplacement before matched after r
      | [] => [c]
      end
  end.

Definition inlineCriticalCSS (optimized criticalCSS : jsstring) : jsstring :=
  match findStylesheetLink optimized with
  | None => optimized
  | Some (before, tag, after) =>
      before
      ++ expandReplacement before tag after
           (lit "<style>" ++ criticalCSS ++ lit "</style>")
      ++ after
  end.

(** The markup after comment removal and white-space reduction, before
    the inlining step. *)
Definition reduceHTML (content : jsstring) : jsstring :=
  joinTags (collapseWhitespace (stripHtmlComments content)).

Definition criticalCSSPath : path := "dist/critical.css".

Definition optimizeHTMLFile (fs : fileSystem) (inputPath outputPath : path)
  : fileSystem * Result artifact :=
  match readFile fs inputPath with
  | Err e => (fs, Err e)
  | Ok content =>
      let optimized := reduceHTML content in
      let optimized :=
        match readFile fs criticalCSSPath with
        | Ok criticalCSS => inlineCriticalCSS optimized criticalCSS
        | Err _ => optimized
        end in
      let optimized := trim optimized in
      match writeFile fs outputPath optimized with
      | Err e => (fs, Err e)
      | Ok fs' =>
          (fs', Ok {| inputPath := inputPath; outputPath := outputPath;
                      originalSize := List.length content;
                      producedSize := List.length optimized |})
      end
  end.

(** *** Budget validation *)

(** What lies under the output root.  A [File] is a regular file and a
    [Dir] a directory that can be listed, each with the size [stat]
    reports for it.  A [Broken] entry is one that [readdir] lists but
    for which [stat] throws (a link whose target is gone, a file that
    cannot be reached); [regular] tells whether its directory entry
    says that it is a regular file. *)
Inductive node :=
| File (name : string) (size : N)
| Dir (name : string) (size : N) (entries : list node)
| Broken (name : string) (regular : bool).

Definition nodeName (n : node) : string :=
  match n with
  | File name _ => name
  | Dir name _ _ => name
  | Broken name _ => name
  end.

(** [fs.stat(...).size]; [None] when [stat] throws. *)
Definition stat (n : node) : option N :=
  match n with
  | File _ size => Some size
  | Dir _ size _ => Some size
  | Broken _ _ => None
  end.

Definition hasSuffix (name suffix : string) : bool :=
  endsWith (lit name) (lit suffix).

(** [readdir] of the sub-directory [name]; it throws when there is no
    directory of that name. *)
Fixpoint readdir (name : string) (entries : list node) : option (list node) :=
  match entries with
  | [] => None
  | File n _ :: rest =>
      if String.eqb n name then None else readdir name rest
  | Dir n _ es :: rest =>
      if String.eqb n name then Some es else readdir name rest
  | Broken n _ :: rest =>
      if String.eqb n name then None else readdir name rest
  end.

(** [findJavaScriptFiles]: the script files under a directory, in
    traversal order, with their paths relative to the output root and
    what [stat] will say of them.  Directories are entered, regular
    files with the script suffix are listed, anything else is passed
    over. *)
Fixpoint findJavaScriptFiles (prefix : string) (n : node)
  : list (string * option N) :=
  match n with
  | File name size =>
      if hasSuffix name ".js" then [(String.append prefix name, Some size)]
      else []
  | Dir name _ entries =>
      flat_map
        (findJavaScriptFiles (String.append prefix (String.append name "/")))
        entries
  | Broken name regular =>
      if regular && hasSuffix name ".js"
      then [(String.append prefix name, None)]
      else []
  end.

Inductive budgetKind := HTML | CSS | JS | IMAGES | TOTAL.

(** [CONFIG.BUDGETS], in bytes. *)
Definition BUDGETS (k : budgetKind) : N :=
  match k with
  | HTML => 50 * 1024
  | CSS => 30 * 1024
  | JS => 50 * 1024
  | IMAGES => 200 * 1024
  | TOTAL => 500 * 1024
  end.

Record violation := {
  file : string;
  size : N;
  budget : N;
  type : budgetKind
}.

Record budgetCheck := {
  totalSize : N;
  violations : list violation;
  passed : bool
}.

(** One turn of a per-file loop: the size joins the total and a file
    over its budget adds a violation. *)
Definition checkFile (k : budgetKind) (acc : N * list violation)
  (f : string * N) : N * list violation :=
  let '(total, vs) := acc in
  (total + snd f,
   if BUDGETS k <? snd f
   then vs ++ [{| file := fst f; size := snd f; budget := BUDGETS k; type := k |}]
   else vs).

(** A per-file loop.  It runs until [stat] throws for an entry, and
    then leaves with the total and the violations as they stand and the
    name of that entry. *)
Fixpoint checkFiles (k : budgetKind) (found : list (string * option N))
  (acc : N * list violation) : (N * list violation) * option string :=
  match found with
  | [] => (acc, None)
  | (name, Some size) :: rest =>
      checkFiles k rest (checkFile k acc (name, size))
  | (name, None) :: _ => (acc, Some name)
  end.

Definition htmlFiles (dist : list node) : list (string * option N) :=
  map (fun n => (nodeName n, stat n))
      (filter (fun n => hasSuffix (nodeName n) ".html") dist).

Definition cssFiles (dist : list node) : list (string * option N) :=
  match readdir "styles" dist with
  | None => []
  | Some entries =>
      map (fun n => (String.append "styles/" (nodeName n), stat n))
          (filter (fun n => hasSuffix (nodeName n) ".css") entries)
  end.

Definition jsFiles (dist : list node) : list (string * option N) :=
  match readdir "js" dist with
  | None => []
  | Some entries => flat_map (findJavaScriptFiles "js/") entries
  end.

(** [validatePerformanceBudget]; [None] stands for an output root that
    cannot be listed.  A [stat] that throws in the loop over the markup
    files is caught by the outer handler and makes the result an error;
    in the loops over the style sheets and the scripts it is caught by
    the handler around the loop, which only warns: the loop is over and
    what it has added so far stays. *)
Definition validatePerformanceBudget (dist : option (list node))
  : Result budgetCheck :=
  match dist with
  | None => Err (ReadError "dist")
  | Some d =>
      match checkFiles HTML (htmlFiles d) (0, []) with
      | (_, Some name) => Err (ReadError name)
      | (acc, None) =>
          let acc := fst (checkFiles CSS (cssFiles d) acc) in
          let acc := fst (checkFiles JS (jsFiles d) acc) in
          let '(total, vs) := acc in
          let vs :=
            if BUDGETS TOTAL <? total
            then vs ++ [{| file := "TOTAL"; size := total;
                           budget := BUDGETS TOTAL; type := TOTAL |}]
            else vs in
          Ok {| totalSize := total;
                violations := vs;
                passed := Nat.eqb (List.length vs) 0 |}
      end
  end.

(** *** The orchestrator *)

Inductive step :=
| StepDone
| StepFiles (produced : list artifact).

(** [buildResults]; [budget] is undefined until the budget stage has
    run, and [duration] (a clock reading) is left out. *)
Record buildResults := {
  steps : list (string * step);
  success : bool;
  totalFiles : nat;
  buildTotalSize : N;
  buildBudget : option budgetCheck
}.

(** The report document [generateBuildReport] serialises (without its
    time stamp). *)
Record report := {
  reportSteps : list (string * step);
  performanceBudget : option budgetCheck;
  summarySuccess : bool;
  summaryTotalFiles : nat;
  summaryTotalSize : N
}.

(** What one run of [build] meets: the result each stage function
    returns when it is called, the output root as the budget stage finds
    it, and whether the report file can be written. *)
Record world := {
  cleanDistDirectory : Result unit;
  runCSSOptimization : Result unit;
  runImageOptimization : Result unit;
  minifyJavaScript : Result (list artifact);
  optimizeHTML : Result (list artifact);
  dist : option (list node);
  reportWritable : bool
}.

Inductive event :=
| Called (stage : string)
| ReportWritten (r : report)
| Exit (code : N).

(** [build] threads [buildResults] and what it has done so far through
    its stages; a [throw] leaves the sequence for the [catch] block. *)
Definition state := (buildResults * list event)%type.
Definition M (A : Type) := state -> state * Result A.

Definition ret {A} (a : A) : M A := fun st => (st, Ok a).

Definition bind {A B} (m : M A) (k : A -> M B) : M B :=
  fun st =>
    match m st with
    | (st', Ok a) => k a st'
    | (st', Err e) => (st', Err e)
    end.

Local Notation "x <- m ;; k" := (bind m (fun x => k))
  (at level 61, m at next level, right associativity).
Local Notation "m ;;; k" := (bind m (fun _ => k))
  (at level 61, right associativity).

(** [const r = await stage(); if (!r.ok) throw r.error;] *)
Definition call {A} (stage : string) (r : Result A) : M A :=
  fun st => ((fst st, snd st ++ [Called stage]), r).

Definition update (f : buildResults -> buildResults) : M unit :=
  fun st => ((f (fst st), snd st), Ok tt).

Definition emit (e : event) : M unit :=
  fun st => ((fst st, snd st ++ [e]), Ok tt).

Definition get : M buildResults := fun st => (st, Ok (fst st)).

Definition setStep (name : string) (s : step) (b : buildResults) : buildResults :=
  {| steps := steps b ++ [(name, s)]; success := success b;
     totalFiles := totalFiles b; buildTotalSize := buildTotalSize b;
     buildBudget := buildBudget b |}.

Definition addFiles (n : nat) (b : buildResults) : buildResults :=
  {| steps := steps b; success := success b;
     totalFiles := (totalFiles b + n)%nat; buildTotalSize := buildTotalSize b;
     buildBudget := buildBudget b |}.

Definition setBudget (v : budgetCheck) (b : buildResults) : buildResults :=
  {| steps := steps b; success := success b;
     totalFiles := totalFiles b; buildTotalSize := totalSize v;
     buildBudget := Some v |}.

Definition setFailed (b : buildResults) : buildResults :=
  {| steps := steps b; success := false;
     totalFiles := totalFiles b; buildTotalSize := buildTotalSize b;
     buildBudget := buildBudget b |}.

(** [generateBuildReport]: the report is written, unless the write
    throws. *)
Definition generateBuildReport (canWrite : bool) (b : buildResults)
  : Result report :=
  let r := {| reportSteps := steps b; performanceBudget := buildBudget b;
              summarySuccess := success b;
              summaryTotalFiles := totalFiles b;
              summaryTotalSize := buildTotalSize b |} in
  if canWrite then Ok r else Err (WriteError "dist/build-report.json").

(** The [try] block of [build], up to the call of [process.exit]. *)
Definition tryBlock (w : world) : M budgetCheck :=
  call "clean" (cleanDistDirectory w) ;;;
  update (setStep "clean" StepDone) ;;;
  call "css" (runCSSOptimization w) ;;;
  update (setStep "css" StepDone) ;;;
  call "images" (runImageOptimization w) ;;;
  update (setStep "images" StepDone) ;;;
  jsFiles <- call "js" (minifyJavaScript w) ;;
  update (setStep "js" (StepFiles jsFiles)) ;;;
  update (addFiles (List.length jsFiles)) ;;;
  htmlFiles <- call "html" (optimizeHTML w) ;;
  update (setStep "html" (StepFiles htmlFiles)) ;;;
  update (addFiles (List.length htmlFiles)) ;;;
  budgetValue <- call "budget" (validatePerformanceBudget (dist w)) ;;
  update (setStep "budget" StepDone) ;;;
  update (setBudget budgetValue) ;;;
  b <- get ;;
  r <- call "report" (generateBuildReport (reportWritable w) b) ;;
  emit (ReportWritten r) ;;;
  ret budgetValue.

Definition initialResults : buildResults :=
  {| steps := []; success := true; totalFiles := 0%nat;
     buildTotalSize := 0; buildBudget := None |}.

(** [build]: the final [buildResults] and everything the run did, the
    last event being the call of [process.exit]. *)
Definition build (w : world) : buildResults * list event :=
  match tryBlock w (initialResults, []) with
  | ((b, log), Ok v) => (b, log ++ [Exit (if passed v then 0 else 1)])
  | ((b, log), Err _) => (setFailed b, log ++ [Exit 1])
  end.

Definition exitCode (run : buildResults * list event) : option N :=
  match last (snd run) (Called "") with
  | Exit code => Some code
  | _ => None
  end.

Definition reportWritten (run : buildResults * list event) : bool :=
  existsb (fun e => match e with ReportWritten _ => true | _ => false end)
          (snd run).

End Build.

(** ** [scripts/optimize-images.js]: acquisition *)

Module OptimizeImages.

Record image := {
  url : string;
  name : string;
  type : string;
  alt : string
}.

Definition unsplash (photo name type alt : string) : image :=
  {| url := String.append "https://images.unsplash.com/photo-" photo;
     name := name; type := type; alt := alt |}.

(** [CONFIG.UNSPLASH_IMAGES]. *)
Definition UNSPLASH_IMAGES : list image :=
  [ unsplash "1438232992991-995b7058bbb3" "hero-worship" "hero"
      "Diverse congregation worshipping together in modern Nigerian church with raised hands";
    unsplash "1464207687429-7505649dae38" "church-exterior" "section"
      "Modern church building exterior with cross and welcoming entrance";
    unsplash "1519491050282-cf00c82424b4" "sanctuary-interior" "section"
      "Spacious church sanctuary with rows of seating and modern lighting";
    unsplash "1507692049790-de58290a4334" "worship-service" "section"
      "Congregation engaged in vibrant worship with praise team leading";
    unsplash "1528605248644-14dd04022da1" "prayer-meeting" "section"
      "Small group gathered in prayer circle holding hands";
    unsplash "1529070538774-1843cb3265df" "youth-ministry" "section"
      "Young people engaged in Bible study and fellowship";
    unsplash "1503454537195-1dcabb73ffb9" "children-ministry" "section"
      "Children participating in Sunday school activities with teacher";
    unsplash "1559027615-cd4628902d4a" "community-service" "section"
      "Church volunteers serving food to community members";
    unsplash "1497633762265-9d179a990aa6" "education-support" "section"
      "Students receiving educational support and mentorship";
    unsplash "1560250097-0b93528c311a" "pastor-portrait" "portrait"
      "Pastor John Adeyemi in pastoral attire with warm smile";
    unsplash "1573496359142-b8d87734a5a2" "co-pastor-portrait" "portrait"
      "Pastor Grace Adeyemi in professional attire with welcoming expression" ].

(** [CONFIG.INPUT_DIR], relative to the project root. *)
Definition INPUT_DIR : string := "images/source".

Definition outputPath (img : image) : string :=
  String.append INPUT_DIR (String.append "/" (String.append (name img) ".jpg")).

Definition downloadUrl (img : image) : string :=
  String.append (url img) "?w=1920&h=1280&fit=crop&q=85".

(** What becomes of a call of [downloadImage].  Its promise resolves
    when the write stream finishes, and is rejected on a status other
    than 200 (the file the stream has opened stays), on an error of the
    request, or on an error of the stream after the response has come
    (the file is then unlinked, which may fail in silence).  The stream
    gets its error listener only once a 200 response has come: when the
    target cannot be opened for writing, its error event finds no
    listener and is thrown as an uncaught exception, which ends the
    process.  And when the body of a response breaks off, the stream
    neither finishes nor fails: the promise never settles. *)
Inductive fetchOutcome :=
| Fetched
| Rejected (fileStays : bool)
| Uncaught
| Unsettled.

Record request := {
  requestUrl : string;
  requestPath : string;
  outcome : fetchOutcome
}.

Record results := {
  downloaded : nat;
  skipped : nat;
  failed : nat
}.

(** The files of the source directory, the downloads asked for so far
    and the counters. *)
Record state := {
  existing : list string;
  requests : list request;
  counts : results
}.

(** How a run of the loop ends: it returns, the process is ended by an
    uncaught exception, or it waits for ever on a promise. *)
Inductive ending := Returned | Killed | Stalled.

Definition existsSync (files : list string) (p : string) : bool :=
  existsb (String.eqb p) files.

Definition isRejected (r : request) : bool :=
  match outcome r with Rejected _ => true | _ => false end.

Section Acquisition.

(** The remote side and the disk: what becomes of a download, given
    the downloads made before it and its address. *)
Variable network : list request -> string -> fetchOutcome.

(** One turn of the loop of [processUnsplashImages]: the state after
    it, and how the run ends if it ends in this turn. *)
Definition visit (st : state) (img : image) : state * option ending :=
  let p := outputPath img in
  let c := counts st in
  if existsSync (existing st) p then
    ({| existing := existing st; requests := requests st;
        counts := {| downloaded := downloaded c; skipped := S (skipped c);
                     failed := failed c |} |}, None)
  else
    let o := network (requests st) (downloadUrl img) in
    let asked := requests st ++
                 [{| requestUrl := downloadUrl img; requestPath := p;
                     outcome := o |}] in
    match o with
    | Fetched =>
        ({| existing := p :: existing st; requests := asked;
            counts := {| downloaded := S (downloaded c); skipped := skipped c;
                         failed := failed c |} |}, None)
    | Rejected fileStays =>
        ({| existing := if fileStays then p :: existing st else existing st;
            requests := asked;
            counts := {| downloaded := downloaded c; skipped := skipped c;
                         failed := S (failed c) |} |}, None)
    | Uncaught =>
        ({| existing := existing st; requests := asked; counts := c |},
         Some Killed)
    | Unsettled =>
        ({| existing := p :: existing st; requests := asked; counts := c |},
         Some Stalled)
    end.

(** The loop over the catalog. *)
Fixpoint acquire (catalog : list image) (st : state) : state * ending :=
  match catalog with
  | [] => (st, Returned)
  | img :: rest =>
      match visit st img with
      | (st', None) => acquire rest st'
      | (st', Some e) => (st', e)
      end
  end.

Definition start (files : list string) : state :=
  {| existing := files; requests := [];
     counts := {| downloaded := 0; skipped := 0; failed := 0 |} |}.

(** [processUnsplashImages]; [sourceDirReady] tells whether
    [ensureDirectory] returned.  The result is the state with which the
    function returns, and [None] when it does not return: the directory
    could not be made, or a download ended the process or never
    settled. *)
Definition processUnsplashImages (sourceDirReady : bool)
  (files : list string) : option state :=
  if sourceDirReady then
    match acquire UNSPLASH_IMAGES (start files) with
    | (st, Returned) => Some st
    | _ => None
    end
  else None.

End Acquisition.

End OptimizeImages.

(** ** [scripts/optimize-css.js]: critical extraction and the file steps *)

Module OptimizeCssFiles.

Import Js.

(** *** Critical extraction *)

(** The text [line.includes] looks for. *)
Definition layerMarker : jsstring := lit "@layer critical".

(** [/@layer\s+critical/] at the head of [s]. *)
Definition layerRuleAt (s : jsstring) : bool :=
  startsWith s (lit "@layer")
  && match skipn 6 s with
     | [] => false
     | c :: t => is_space c && startsWith (trimStart t) (lit "critical")
     end.

Fixpoint layerRuleIn (s : jsstring) : bool :=
  layerRuleAt s
  || match s with
     | [] => false
     | _ :: t => layerRuleIn t
     end.

(** [/^name\s/]. *)
Definition startsWithSpaced (s name : jsstring) : bool :=
  startsWith s name
  && match skipn (List.length name) s with
     | [] => false
     | c :: _ => is_space c
     end.

(** One of the patterns of [criticalSelectors] matches. *)
Definition isCriticalSelector (s : jsstring) : bool :=
  match s with
  | c :: d :: _ => (c =? STAR) && ((d =? COMMA) || is_space d)
  | _ => false
  end
  || startsWithSpaced s (lit "html")
  || startsWithSpaced s (lit "body")
  || includes s (lit ".header")
  || includes s (lit ".nav")
  || includes s (lit ".hero")
  || includes s (lit ".btn")
  || includes s (lit ".container")
  || layerRuleIn s.

(** [(line.match(/c/g) || []).length]. *)
Fixpoint countChar (c : char) (line : jsstring) : Z :=
  match line with
  | [] => 0%Z
  | d :: t => ((if (d =? c)%N then 1 else 0) + countChar c t)%Z
  end.

(** The loop of [extractCriticalCSS] over the lines, with its two
    variables; the result is [criticalLines]. *)
Fixpoint criticalLines (inCriticalBlock : bool) (braceCount : Z)
  (lines : list jsstring) : list jsstring :=
  match lines with
  | [] => []
  | line :: rest =>
      if includes line layerMarker then
        line :: criticalLines true braceCount rest
      else if inCriticalBlock then
        let braceCount :=
          (braceCount + countChar LBRACE line - countChar RBRACE line)%Z in
        line :: criticalLines (negb (braceCount =? 0)%Z) braceCount rest
      else if isCriticalSelector (trim line) then
        if includes line [LBRACE]
        then line :: criticalLines true 1%Z rest
        else line :: criticalLines false braceCount rest
      else criticalLines false braceCount rest
  end.

Definition extractCriticalCSS (css : jsstring) : jsstring :=
  join [LF] (criticalLines false 0%Z (split LF css)).

(** *** Reading, processing and writing style sheets *)

(** [path.dirname] of a relative path with a file name at its end. *)
Fixpoint afterLastSlash (r : list ascii) : option (list ascii) :=
  match r with
  | [] => None
  | c :: t => if Ascii.eqb c "/" then Some t else afterLastSlash t
  end.

Definition dirname (p : Build.path) : Build.path :=
  match afterLastSlash (rev (list_ascii_of_string p)) with
  | None => "."
  | Some d => string_of_list_ascii (rev d)
  end.

Section Files.

(** Whether [ensureDirectory] returns for a directory (it throws when
    the directory is missing and cannot be made). *)
Variable ensureDirectory : Build.path -> bool.

Definition readCSSFile (fs : Build.fileSystem) (filePath : Build.path)
  : Build.Result jsstring :=
  Build.readFile fs filePath.

Definition writeCSSFile (fs : Build.fileSystem) (filePath : Build.path)
  (content : jsstring) : Build.Result Build.fileSystem :=
  if ensureDirectory (dirname filePath)
  then Build.writeFile fs filePath content
  else Build.Err (Build.WriteError (dirname filePath)).

(** [processCSSFile]; an empty [htmlContent] is falsy and skips the
    purge. *)
Definition processCSSFile (fs : Build.fileSystem)
  (inputPath outputPath : Build.path) (htmlContent : jsstring)
  : Build.fileSystem * Build.Result Build.artifact :=
  match readCSSFile fs inputPath with
  | Build.Err e => (fs, Build.Err e)
  | Build.Ok content =>
      let css := content in
      let css :=
        match htmlContent with
        | [] => css
        | _ :: _ => OptimizeCss.purgeUnusedCSS css htmlContent
        end in
      let css := OptimizeCss.minifyCSS css in
      match writeCSSFile fs outputPath css with
      | Build.Err e => (fs, Build.Err e)
      | Build.Ok fs' =>
          (fs', Build.Ok {| Build.inputPath := inputPath;
                            Build.outputPath := outputPath;
                            Build.originalSize := List.length content;
                            Build.producedSize := List.length css |})
      end
  end.

Record criticalArtifact := {
  outputPath : Build.path;
  size : nat
}.

Definition generateCriticalCSS (fs : Build.fileSystem)
  (mainCSSPath outputPath : Build.path)
  : Build.fileSystem * Build.Result criticalArtifact :=
  match readCSSFile fs mainCSSPath with
  | Build.Err e => (fs, Build.Err e)
  | Build.Ok content =>
      let criticalCSS := extractCriticalCSS content in
      let criticalCSS := OptimizeCss.minifyCSS criticalCSS in
      match writeCSSFile fs outputPath criticalCSS with
      | Build.Err e => (fs, Build.Err e)
      | Build.Ok fs' =>
          (fs', Build.Ok {| outputPath := outputPath;
                            size := List.length criticalCSS |})
      end
  end.

(** The loop of [optimizeCSS] over the style sheets: a file that fails
    is logged and left out of the results. *)
Fixpoint processEach (htmlContent : jsstring) (names : list string)
  (fs : Build.fileSystem) (results : list Build.artifact)
  : Build.fileSystem * list Build.artifact :=
  match names with
  | [] => (fs, results)
  | file :: rest =>
      match processCSSFile fs (String.append "styles/" file)
              (String.append "dist/styles/" file) htmlContent with
      | (fs', Build.Ok value) =>
          processEach htmlContent rest fs' (results ++ [value])
      | (fs', Build.Err _) => processEach htmlContent rest fs' results
      end
  end.

(** What a call of [optimizeCSS] leaves: the files, the results of the
    style sheets, the result of the critical step, and whether
    [process.exit(1)] was called. *)
Record optimizeRun := {
  filesAfter : Build.fileSystem;
  results : list Build.artifact;
  criticalResult : option (Build.Result criticalArtifact);
  exited : bool
}.

(** [optimizeCSS]; [stylesDir] lists the directory of the style sheets
    and is [None] when [readdir] throws. *)
Definition optimizeCSS (stylesDir : option (list string))
  (fs : Build.fileSystem) : optimizeRun :=
  if ensureDirectory "dist/styles" then
    let htmlContent :=
      match Build.readFile fs "index.html" with
      | Build.Ok content => content
      | Build.Err _ => []
      end in
    match stylesDir with
    | None => {| filesAfter := fs; results := []; criticalResult := None;
                 exited := true |}
    | Some cssFiles =>
        let names :=
          filter (fun file => Build.hasSuffix file ".css") cssFiles in
        let '(fs1, processed) := processEach htmlContent names fs [] in
        let '(fs2, critical) :=
          generateCriticalCSS fs1 "styles/main.css" Build.criticalCSSPath in
        {| filesAfter := fs2; results := processed;
           criticalResult := Some critical; exited := false |}
    end
  else {| filesAfter := fs; results := []; criticalResult := None;
          exited := true |}.

End Files.

End OptimizeCssFiles.

(** ** [scripts/build.js]: the stage functions over the files *)

Module Stages.

Import Js.

Section Stages.

Variable ensureDirectory : Build.path -> bool.

(** The loop of [minifyJavaScript] over the script files found. *)
Fixpoint minifyEach (jsFiles : list Build.path) (fs : Build.fileSystem)
  (results : list Build.artifact)
  : Build.fileSystem * Build.Result (list Build.artifact) :=
  match jsFiles with
  | [] => (fs, Build.Ok results)
  | filePath :: rest =>
      let outputPath := String.append "dist/" filePath in
      if ensureDirectory (OptimizeCssFiles.dirname outputPath) then
        match Build.minifyJSFile fs filePath outputPath with
        | (fs', Build.Ok value) => minifyEach rest fs' (results ++ [value])
        | (fs', Build.Err _) => minifyEach rest fs' results
        end
      else
        (fs, Build.Err (Build.WriteError (OptimizeCssFiles.dirname outputPath)))
  end.

(** [minifyJavaScript]; [jsDir] is the tree of the script directory,
    [None] when it cannot be listed.  A script [js/r] goes to
    [dist/js/r]. *)
Definition minifyJavaScript (jsDir : option (list Build.node))
  (fs : Build.fileSystem)
  : Build.fileSystem * Build.Result (list Build.artifact) :=
  if ensureDirectory "dist/js" then
    match jsDir with
    | None => (fs, Build.Err (Build.ReadError "js"))
    | Some entries =>
        minifyEach
          (map fst (flat_map (Build.findJavaScriptFiles "js/") entries))
          fs []
    end
  else (fs, Build.Err (Build.WriteError "dist/js")).

End Stages.

(** The loop of [optimizeHTML] over its list of markup files. *)
Fixpoint optimizeEach (htmlFiles : list string) (fs : Build.fileSystem)
  (results : list Build.artifact)
  : Build.fileSystem * list Build.artifact :=
  match htmlFiles with
  | [] => (fs, results)
  | file :: rest =>
      match Build.optimizeHTMLFile fs file (String.append "dist/" file) with
      | (fs', Build.Ok value) => optimizeEach rest fs' (results ++ [value])
      | (fs', Build.Err _) => optimizeEach rest fs' results
      end
  end.

Definition optimizeHTML (fs : Build.fileSystem)
  : Build.fileSystem * Build.Result (list Build.artifact) :=
  let '(fs', results) := optimizeEach ["index.html"] fs [] in
  (fs', Build.Ok results).

End Stages.

(** * Properties *)

Import Js.

(** ** Strings *)

Section Strings.

Lemma startsWith_spec (p : jsstring) :
  forall s, startsWith s p = true <-> exists r, s = p ++ r.
Proof.
  induction p as [|a p IH]; intros s; simpl.
  - split; [intros _; exists s; reflexivity|reflexivity].
  - destruct s as [|b s]; simpl.
    + split; [discriminate|intros [r Hr]; discriminate].
    + rewrite andb_true_iff, N.eqb_eq, IH. split.
      * intros [-> [r ->]]. exists r; reflexivity.
      * intros [r Hr]. injection Hr as -> ->. split; [reflexivity|exists r; reflexivity].
Qed.

Lemma includes_spec (p : jsstring) :
  forall s, includes s p = true <-> exists a b, s = a ++ p ++ b.
Proof.
  induction s as [|c s IH]; simpl.
  - rewrite orb_false_r, startsWith_spec. split.
    + intros [r Hr]. exists [], r; exact Hr.
    + intros (a & b & H). destruct a; simpl in H.
      * exists b; exact H.
      * discriminate.
  - rewrite orb_true_iff, startsWith_spec, IH. split.
    + intros [[r Hr]|(a & b & H)].
      * exists [], r; exact Hr.
      * exists (c :: a), b; simpl; rewrite H; reflexivity.
    + intros (a & b & H). destruct a as [|c' a]; simpl in H.
      * left; exists b; exact H.
      * right. injection H as _ H. exists a, b; exact H.
Qed.

Lemma length_trimStart (s : jsstring) :
  (List.length (trimStart s) <= List.length s)%nat.
Proof.
  induction s as [|c s IH]; simpl; [lia|].
  destruct (is_space c); simpl; lia.
Qed.

Lemma length_trim (s : jsstring) :
  (List.length (trim s) <= List.length s)%nat.
Proof.
  unfold trim, trimEnd. rewrite length_rev.
  pose proof (length_trimStart (rev (trimStart s))) as H1.
  rewrite length_rev in H1. pose proof (length_trimStart s). lia.
Qed.

(** [trimStart] keeps every piece that begins with a character that is
    no white space. *)
Lemma trimStart_keeps (x : char) (p b : jsstring) :
  is_space x = false ->
  forall a, exists a', trimStart (a ++ x :: p ++ b) = a' ++ x :: p ++ b.
Proof.
  intros Hx. induction a as [|c a IH]; simpl.
  - rewrite Hx. exists []; reflexivity.
  - destruct (is_space c).
    + exact IH.
    + exists (c :: a); reflexivity.
Qed.

(** *** What [trim] leaves *)

Definition tightStart (s : jsstring) : Prop :=
  match s with [] => True | c :: _ => is_space c = false end.

(** [trim] keeps every piece that begins and ends with characters that
    are no white space. *)
Lemma trim_keeps (piece a b : jsstring) :
  piece <> [] -> tightStart piece -> tightStart (rev piece) ->
  exists a' b', trim (a ++ piece ++ b) = a' ++ piece ++ b'.
Proof.
  intros Hne Hstart Hend. unfold trim, trimEnd.
  destruct piece as [|x p]; [congruence|]. simpl in Hstart.
  destruct (trimStart_keeps x p b Hstart a) as [a' Ha'].
  simpl app at 2. rewrite Ha'.
  change (a' ++ x :: p ++ b) with (a' ++ (x :: p) ++ b).
  rewrite !rev_app_distr, <- app_assoc.
  destruct (rev (x :: p)) as [|y q] eqn:Hrev.
  { apply (f_equal (@List.length char)) in Hrev.
    rewrite length_rev in Hrev. discriminate. }
  simpl in Hend.
  destruct (trimStart_keeps y q (rev a') Hend (rev b)) as [b' Hb'].
  simpl app at 2. rewrite Hb'.
  exists a', (rev b').
  change (b' ++ y :: q ++ rev a') with (b' ++ (y :: q) ++ rev a').
  rewrite !rev_app_distr, <- Hrev, !rev_involutive, <- app_assoc.
  reflexivity.
Qed.

Lemma startsWith_app (p q : jsstring) :
  forall s,
    startsWith s (p ++ q)
    = startsWith s p && startsWith (skipn (List.length p) s) q.
Proof.
  induction p as [|a p IH]; intros s; [reflexivity|].
  destruct s as [|b s]; cbn [app startsWith List.length skipn].
  - destruct q; reflexivity.
  - rewrite IH, andb_assoc. reflexivity.
Qed.

Lemma startsWith_longer (p : jsstring) :
  forall a b,
    (List.length p <= List.length a)%nat ->
    startsWith (a ++ b) p = startsWith a p.
Proof.
  induction p as [|x p IH]; intros a b Hlen; [reflexivity|].
  destruct a as [|y a]; [simpl in Hlen; lia|].
  cbn [app startsWith]. rewrite IH by (simpl in Hlen; lia). reflexivity.
Qed.

Lemma includes_tail (c : char) (t p : jsstring) :
  includes (c :: t) p = false ->
  startsWith (c :: t) p = false /\ includes t p = false.
Proof.
  cbn [includes]. intros H. apply orb_false_elim in H. exact H.
Qed.

Lemma startsWith_pair (a b c d : char) (t : jsstring) :
  startsWith (c :: d :: t) [a; b] = (c =? a) && (d =? b).
Proof.
  cbn [startsWith]. rewrite (N.eqb_sym a c), (N.eqb_sym b d), andb_true_r.
  reflexivity.
Qed.

(** A text without a comment opener has no block comment to strip. *)
Lemma stripBlockComments_fixed (s : jsstring) :
  includes s [SLASH; STAR] = false -> stripBlockComments s = s.
Proof.
  unfold stripBlockComments.
  induction s as [|c t IH]; intros H; [reflexivity|].
  apply includes_tail in H as [Hhere Ht].
  cbn [stripBlockComments_go]. destruct t as [|d t']; [reflexivity|].
  rewrite startsWith_pair in Hhere. rewrite Hhere. cbn [andb].
  f_equal. apply IH. exact Ht.
Qed.

Lemma trimStart_suffix (s : jsstring) : exists a, s = a ++ trimStart s.
Proof.
  induction s as [|c t [a IH]]; [exists []; reflexivity|].
  cbn [trimStart]. destruct (is_space c).
  - exists (c :: a). simpl. rewrite <- IH. reflexivity.
  - exists []. reflexivity.
Qed.

Lemma trimEnd_prefix (s : jsstring) : exists b, s = trimEnd s ++ b.
Proof.
  unfold trimEnd. destruct (trimStart_suffix (rev s)) as [a Ha].
  exists (rev a). rewrite <- rev_app_distr, <- Ha, rev_involutive.
  reflexivity.
Qed.

Lemma trimStart_tight (s : jsstring) : tightStart (trimStart s).
Proof.
  induction s as [|c t IH]; [exact I|].
  cbn [trimStart]. destruct (is_space c) eqn:Hc; [exact IH|exact Hc].
Qed.

Lemma trimStart_fixed (s : jsstring) : tightStart s -> trimStart s = s.
Proof.
  destruct s as [|c t]; [reflexivity|]. simpl. intros ->. reflexivity.
Qed.

Lemma trimEnd_tight (s : jsstring) : tightStart s -> tightStart (trimEnd s).
Proof.
  intros Hs. destruct (trimEnd_prefix s) as [b Hb].
  destruct (trimEnd s) as [|c u]; [exact I|].
  rewrite Hb in Hs. exact Hs.
Qed.

Lemma trim_fixed (s : jsstring) : trim (trim s) = trim s.
Proof.
  unfold trim.
  rewrite (trimStart_fixed (trimEnd (trimStart s)))
    by (apply trimEnd_tight, trimStart_tight).
  unfold trimEnd. rewrite rev_involutive.
  rewrite (trimStart_fixed (trimStart (rev (trimStart s))))
    by apply trimStart_tight.
  reflexivity.
Qed.

Lemma trim_Forall (P : char -> Prop) (s : jsstring) :
  Forall P s -> Forall P (trim s).
Proof.
  intros H. unfold trim.
  destruct (trimStart_suffix s) as [a Ha].
  destruct (trimEnd_prefix (trimStart s)) as [b Hb].
  rewrite Ha in H. apply Forall_app in H as [_ H].
  rewrite Hb in H. apply Forall_app in H as [H _]. exact H.
Qed.

End Strings.

(** ** The orchestrator *)

Section Orchestrator.

Import Build.

(** The seven stages of a run all return a successful result; the
    report stage does when its file can be written. *)
Definition allStagesOk (w : world) : Prop :=
  isOk (cleanDistDirectory w) = true /\
  isOk (runCSSOptimization w) = true /\
  isOk (runImageOptimization w) = true /\
  isOk (minifyJavaScript w) = true /\
  isOk (optimizeHTML w) = true /\
  isOk (validatePerformanceBudget (dist w)) = true /\
  reportWritable w = true.

(** The budget stage of the run reports no violation. *)
Definition noViolation (w : world) : Prop :=
  exists v, validatePerformanceBudget (dist w) = Ok v /\ violations v = [].

Definition someViolation (w : world) : Prop :=
  exists v, validatePerformanceBudget (dist w) = Ok v /\ violations v <> [].

Lemma passed_iff_no_violation (d : option (list node)) (v : budgetCheck) :
  validatePerformanceBudget d = Ok v ->
  (passed v = true <-> violations v = []).
Proof.
  unfold validatePerformanceBudget.
  destruct d as [d|]; [|discriminate].
  destruct (checkFiles HTML _ _) as [acc [name|]]; [discriminate|].
  destruct (fst (checkFiles JS _ _)) as [total vs].
  intros H; injection H as H; subst v; cbn [passed violations].
  match goal with
  | |- Nat.eqb (List.length ?l) 0 = true <-> _ =>
      destruct l; simpl; split; congruence
  end.
Qed.

Ltac run_build := unfold build, tryBlock; cbv.

Lemma build_all_ok (w : world) (v : budgetCheck) :
  cleanDistDirectory w = Ok tt ->
  isOk (runCSSOptimization w) = true ->
  isOk (runImageOptimization w) = true ->
  isOk (minifyJavaScript w) = true ->
  isOk (optimizeHTML w) = true ->
  validatePerformanceBudget (dist w) = Ok v ->
  reportWritable w = true ->
  exitCode (build w) = Some (if passed v then 0 else 1) /\
  reportWritten (build w) = true.
Proof.
  destruct w as [c css img js html d rw];
    cbn [cleanDistDirectory runCSSOptimization runImageOptimization
         minifyJavaScript optimizeHTML dist reportWritable].
  intros -> Hcss Himg Hjs Hhtml Hb ->.
  destruct css; [|discriminate]. destruct img; [|discriminate].
  destruct js; [|discriminate]. destruct html; [|discriminate].
  unfold build, tryBlock; cbn [dist]. rewrite Hb.
  split; cbv; reflexivity.
Qed.

Lemma build_some_failure (w : world) :
  ~ allStagesOk w ->
  exitCode (build w) = Some 1 /\ reportWritten (build w) = false.
Proof.
  destruct w as [c css img js html d rw]. unfold allStagesOk.
  cbn [cleanDistDirectory runCSSOptimization runImageOptimization
       minifyJavaScript optimizeHTML dist reportWritable].
  intros Hno.
  destruct c as [[]|]; [|split; reflexivity].
  destruct css; [|split; reflexivity].
  destruct img; [|split; reflexivity].
  destruct js; [|split; reflexivity].
  destruct html; [|split; reflexivity].
  destruct (validatePerformanceBudget d) eqn:Hb;
    [|unfold build, tryBlock; cbn [dist]; rewrite Hb; split; reflexivity].
  destruct rw;
    [|unfold build, tryBlock; cbn [dist]; rewrite Hb; split; reflexivity].
  exfalso; apply Hno. simpl. tauto.
Qed.

Lemma allStagesOk_dec (w : world) : allStagesOk w \/ ~ allStagesOk w.
Proof.
  unfold allStagesOk.
  destruct (isOk (cleanDistDirectory w)), (isOk (runCSSOptimization w)),
    (isOk (runImageOptimization w)), (isOk (minifyJavaScript w)),
    (isOk (optimizeHTML w)), (isOk (validatePerformanceBudget (dist w))),
    (reportWritable w);
    first [left; tauto | right; intuition discriminate].
Qed.

Lemma build_ok_exit (w : world) :
  allStagesOk w ->
  exists v, validatePerformanceBudget (dist w) = Ok v /\
            exitCode (build w) = Some (if passed v then 0 else 1) /\
            reportWritten (build w) = true.
Proof.
  intros (Hc & Hcss & Himg & Hjs & Hhtml & Hb & Hr).
  destruct (validatePerformanceBudget (dist w)) as [v|] eqn:Hv;
    [|discriminate].
  exists v; split; [reflexivity|].
  apply build_all_ok; auto.
  destruct (cleanDistDirectory w) as [[]|]; [reflexivity|discriminate].
Qed.

(** C1.  The exit code of a run of [build] is 0 only if every stage
    (clean, css, images, js, html, budget, report) returned a successful
    result and the budget validation reported no violation; it is 1
    whenever a stage fails or a budget violation exists. *)
Theorem build_exit_code_policy (w : world) :
  (exitCode (build w) = Some 0 -> allStagesOk w /\ noViolation w) /\
  (~ allStagesOk w \/ someViolation w -> exitCode (build w) = Some 1).
Proof.
  split.
  - intros H0.
    destruct (allStagesOk_dec w) as [Hall|Hno].
    + split; [assumption|].
      destruct (build_ok_exit w Hall) as (v & Hv & Hexit & _).
      exists v; split; [assumption|].
      apply (passed_iff_no_violation _ _ Hv).
      rewrite Hexit in H0. destruct (passed v); [reflexivity|discriminate].
    + destruct (build_some_failure w Hno) as [H1 _]; congruence.
  - intros [Hno|(v & Hv & Hviol)].
    + apply build_some_failure; assumption.
    + destruct (allStagesOk_dec w) as [Hall|Hno].
      * destruct (build_ok_exit w Hall) as (v' & Hv' & Hexit & _).
        rewrite Hexit. assert (v' = v) as -> by congruence.
        destruct (passed v) eqn:Hp; [|reflexivity].
        exfalso; apply Hviol. apply (passed_iff_no_violation _ _ Hv); assumption.
      * apply build_some_failure; assumption.
Qed.

(** A run whose output directory is created and whose style sheet stage
    then fails. *)
Definition cssStageFails : world :=
  {| cleanDistDirectory := Ok tt;
     runCSSOptimization := Err (StageError "Command failed: node optimize-css.js");
     runImageOptimization := Ok tt;
     minifyJavaScript := Ok [];
     optimizeHTML := Ok [];
     dist := Some [];
     reportWritable := true |}.

(** C2, as stated, fails: in a run where the clean stage has created the
    output directory and a later stage fails, [build] goes to its
    [catch] block, which exits without writing the report. *)
Lemma report_not_written_on_failure :
  ~ (forall w : world,
        isOk (cleanDistDirectory w) = true -> ~ allStagesOk w ->
        reportWritten (build w) = true).
Proof.
  intros H.
  specialize (H cssStageFails eq_refl).
  assert (Hno : ~ allStagesOk cssStageFails).
  { unfold allStagesOk; simpl; intuition discriminate. }
  specialize (H Hno). vm_compute in H. discriminate.
Qed.

(** C2, amended.  The report file is written exactly in the runs where
    every stage returns a successful result; in a run where some stage
    fails no report is written. *)
Theorem report_written_iff_all_stages_ok (w : world) :
  reportWritten (build w) = true <-> allStagesOk w.
Proof.
  split.
  - intros Hw. destruct (allStagesOk_dec w) as [Hall|Hno]; [assumption|].
    destruct (build_some_failure w Hno) as [_ H]; congruence.
  - intros Hall. destruct (build_ok_exit w Hall) as (v & _ & _ & H); exact H.
Qed.

End Orchestrator.

(** ** Script minification on the scenario source *)

Section ScenarioB.

Import Build.

(** The source of Scenario B: a line comment, a line break, a
    declaration and a line break. *)
Definition scenarioB : jsstring :=
  lit "// comment" ++ [LF] ++ lit "const x = 1;" ++ [LF].

(** C5, as stated, fails: the output keeps the spaces around the equals
    sign, which is not in the class of [minifyJSFile]. *)
Lemma scenarioB_not_unspaced : minifyJS scenarioB <> lit "const x=1;".
Proof. vm_compute. discriminate. Qed.

(** C5, amended.  On the source of Scenario B the script minification
    gives [const x = 1;]: the comment and the outer white space are
    removed, no white space is left next to the semicolon, and the
    spaces around the equals sign stay. *)
Theorem scenarioB_output : minifyJS scenarioB = lit "const x = 1;".
Proof. vm_compute. reflexivity. Qed.

End ScenarioB.

(** ** Budget validation *)

Section Budget.

Import Build.

Definition sizes (fs : list (string * N)) : N :=
  fold_right (fun f acc => snd f + acc) 0 fs.

Lemma sizes_app (fs gs : list (string * N)) :
  sizes (fs ++ gs) = sizes fs + sizes gs.
Proof. induction fs as [|f fs IH]; simpl; [reflexivity|rewrite IH; lia]. Qed.

Lemma sizes_cons (f : string * N) (fs : list (string * N)) :
  sizes (f :: fs) = snd f + sizes fs.
Proof. reflexivity. Qed.

Fixpoint distinct (l : list string) : bool :=
  match l with
  | [] => true
  | p :: rest => negb (existsb (String.eqb p) rest) && distinct rest
  end.

Lemma distinct_NoDup (l : list string) : distinct l = true -> NoDup l.
Proof.
  induction l as [|p l IH]; simpl; intros H; constructor.
  - apply andb_prop in H as [H _]. intros Hin.
    assert (existsb (String.eqb p) l = true).
    { apply existsb_exists. exists p; split; [exact Hin|apply String.eqb_refl]. }
    rewrite H0 in H; discriminate.
  - apply IH. apply andb_prop in H as [_ H]; exact H.
Qed.

(** *** What the loops of the validator add up *)

(** The entries a per-file loop gets through: those before the first
    one for which [stat] throws. *)
Fixpoint upToBroken (found : list (string * option N)) : list (string * N) :=
  match found with
  | (name, Some size) :: rest => (name, size) :: upToBroken rest
  | _ => []
  end.

(** The entry at which a per-file loop is left, if any. *)
Fixpoint firstBroken (found : list (string * option N)) : option string :=
  match found with
  | [] => None
  | (_, Some _) :: rest => firstBroken rest
  | (name, None) :: _ => Some name
  end.

(** The violations of the files of one category. *)
Definition overBudget (k : budgetKind) (fs : list (string * N))
  : list violation :=
  map (fun f => {| file := fst f; size := snd f; budget := BUDGETS k;
                   type := k |})
      (filter (fun f => BUDGETS k <? snd f) fs).

Lemma checkFiles_value (k : budgetKind) (found : list (string * option N)) :
  forall total vs,
    checkFiles k found (total, vs)
    = ((total + sizes (upToBroken found),
        vs ++ overBudget k (upToBroken found)),
       firstBroken found).
Proof.
  induction found as [|[name [size|]] rest IH]; intros total vs;
    cbn [checkFiles upToBroken firstBroken].
  - cbn. rewrite app_nil_r. f_equal. f_equal. lia.
  - cbn [checkFile fst snd]. rewrite IH.
    assert (Hsum : total + size + sizes (upToBroken rest)
                   = total + sizes ((name, size) :: upToBroken rest))
      by (cbn [sizes fold_right snd]; fold (sizes (upToBroken rest)); lia).
    rewrite Hsum. f_equal. f_equal.
    unfold overBudget. cbn [filter snd].
    destruct (BUDGETS k <? size); [|reflexivity].
    cbn [map fst snd]. rewrite <- app_assoc. reflexivity.
  - cbn. rewrite app_nil_r. f_equal. f_equal. lia.
Qed.

Lemma upToBroken_app (a b : list (string * option N)) :
  firstBroken a = None ->
  upToBroken (a ++ b) = upToBroken a ++ upToBroken b.
Proof.
  induction a as [|[name [size|]] a IH]; cbn [app upToBroken firstBroken];
    intros H; [reflexivity| |discriminate].
  rewrite (IH H). reflexivity.
Qed.

Lemma firstBroken_app (a b : list (string * option N)) :
  firstBroken a = None -> firstBroken (a ++ b) = firstBroken b.
Proof.
  induction a as [|[name [size|]] a IH]; cbn [app firstBroken];
    intros H; [reflexivity|exact (IH H)|discriminate].
Qed.


Definition totalViolation (total : N) : list violation :=
  if BUDGETS TOTAL <? total
  then [{| file := "TOTAL"; size := total; budget := BUDGETS TOTAL;
           type := TOTAL |}]
  else [].

(** The files the validator measures: those its three loops get
    through. *)
Definition measured (d : list node) : list (string * N) :=
  upToBroken (htmlFiles d) ++ upToBroken (cssFiles d)
  ++ upToBroken (jsFiles d).

(** What the validator returns, in one equation. *)
Lemma validatePerformanceBudget_value (d : list node) :
  validatePerformanceBudget (Some d)
  = match firstBroken (htmlFiles d) with
    | Some name => Err (ReadError name)
    | None =>
        Ok {| totalSize := sizes (measured d);
              violations :=
                overBudget HTML (upToBroken (htmlFiles d))
                ++ overBudget CSS (upToBroken (cssFiles d))
                ++ overBudget JS (upToBroken (jsFiles d))
                ++ totalViolation (sizes (measured d));
              passed :=
                Nat.eqb
                  (List.length
                     (overBudget HTML (upToBroken (htmlFiles d))
                      ++ overBudget CSS (upToBroken (cssFiles d))
                      ++ overBudget JS (upToBroken (jsFiles d))
                      ++ totalViolation (sizes (measured d)))) 0 |}
    end.
Proof.
  unfold validatePerformanceBudget.
  rewrite checkFiles_value.
  destruct (firstBroken (htmlFiles d)); [reflexivity|].
  rewrite checkFiles_value. cbn [fst].
  rewrite checkFiles_value. cbn [fst].
  unfold measured. rewrite !sizes_app.
  replace (0 + sizes (upToBroken (htmlFiles d))
           + sizes (upToBroken (cssFiles d))
           + sizes (upToBroken (jsFiles d)))
    with (sizes (upToBroken (htmlFiles d))
          + (sizes (upToBroken (cssFiles d))
             + sizes (upToBroken (jsFiles d))))
    by lia.
  unfold totalViolation. cbn [app].
  destruct (BUDGETS TOTAL <? _); rewrite <- ?app_assoc, ?app_nil_r;
    reflexivity.
Qed.

Definition withinB (k : budgetKind) (fs : list (string * N)) : bool :=
  forallb (fun f => snd f <=? BUDGETS k) fs.

Lemma overBudget_nil (k : budgetKind) (fs : list (string * N)) :
  overBudget k fs = [] <-> withinB k fs = true.
Proof.
  unfold overBudget, withinB.
  induction fs as [|f fs IH]; cbn [filter forallb map].
  - split; reflexivity.
  - destruct (BUDGETS k <? snd f) eqn:Hf.
    + apply N.ltb_lt in Hf.
      assert ((snd f <=? BUDGETS k) = false) as -> by (apply N.leb_gt; exact Hf).
      cbn [map andb]. split; discriminate.
    + apply N.ltb_ge in Hf.
      assert ((snd f <=? BUDGETS k) = true) as -> by (apply N.leb_le; exact Hf).
      cbn [andb]. exact IH.
Qed.

(** *** The produced artifacts and the layout the validator expects *)

(** The regular files under an entry, by name, with their sizes. *)
Fixpoint filesUnder (n : node) : list (string * N) :=
  match n with
  | File name size => [(name, size)]
  | Dir _ _ entries => flat_map filesUnder entries
  | Broken _ _ => []
  end.

(** The produced artifacts: every regular file under the output
    root. *)
Definition producedArtifacts (d : list node) : list (string * N) :=
  flat_map filesUnder d.

(** The category of a file goes by its suffix. *)
Definition categories : list (string * budgetKind) :=
  [ (".html", HTML); (".css", CSS); (".js", JS); (".jpg", IMAGES);
    (".jpeg", IMAGES); (".png", IMAGES); (".webp", IMAGES) ].

(** A file is within the budget of its category. *)
Definition withinCategory (f : string * N) : bool :=
  forallb (fun c => implb (hasSuffix (fst f) (fst c))
                          (snd f <=? BUDGETS (snd c)))
          categories.

(** A tree of scripts: script files, and directories of such. *)
Fixpoint scriptsOnly (n : node) : bool :=
  match n with
  | File name _ => hasSuffix name ".js"
  | Dir _ _ entries => forallb scriptsOnly entries
  | Broken _ _ => false
  end.

Definition sheetOnly (n : node) : bool :=
  match n with
  | File name _ => hasSuffix name ".css"
  | _ => false
  end.

Definition rootEntry (n : node) : bool :=
  match n with
  | File name _ => hasSuffix name ".html"
  | Dir name _ entries =>
      (String.eqb name "styles" && forallb sheetOnly entries)
      || (String.eqb name "js" && forallb scriptsOnly entries)
  | Broken _ _ => false
  end.

(** An output root that holds nothing but what the validator looks
    for: markup files at the top, style sheets directly in [styles],
    scripts anywhere under [js]; no entry for which [stat] throws, and,
    as in any directory, no two entries of the root with one name. *)
Definition countedLayout (d : list node) : bool :=
  forallb rootEntry d && distinct (map nodeName d).

Ltac suffix_literals :=
  unfold hasSuffix, endsWith in *;
  change (rev (lit ".html")) with [108; 109; 116; 104; 46] in *;
  change (rev (lit ".css")) with [115; 115; 99; 46] in *;
  change (rev (lit ".js")) with [115; 106; 46] in *;
  change (rev (lit ".jpg")) with [103; 112; 106; 46] in *;
  change (rev (lit ".jpeg")) with [103; 101; 112; 106; 46] in *;
  change (rev (lit ".png")) with [103; 110; 112; 46] in *;
  change (rev (lit ".webp")) with [112; 98; 101; 119; 46] in *.

(** A name has the suffix of one category only. *)
Lemma withinCategory_html (name : string) (size : N) :
  hasSuffix name ".html" = true ->
  withinCategory (name, size) = (size <=? BUDGETS HTML).
Proof.
  intros H. unfold withinCategory, categories. cbn [forallb fst snd].
  set (bh := size <=? BUDGETS HTML). set (bc := size <=? BUDGETS CSS).
  set (bj := size <=? BUDGETS JS). set (bi := size <=? BUDGETS IMAGES).
  suffix_literals. rewrite H.
  destruct (rev (lit name)) as [|c1 r]; [discriminate|].
  cbn [startsWith] in H. apply andb_true_iff in H as [H _].
  apply N.eqb_eq in H. subst c1. cbn [startsWith N.eqb Pos.eqb andb implb].
  destruct bh; reflexivity.
Qed.

Lemma withinCategory_css (name : string) (size : N) :
  hasSuffix name ".css" = true ->
  withinCategory (name, size) = (size <=? BUDGETS CSS).
Proof.
  intros H. unfold withinCategory, categories. cbn [forallb fst snd].
  set (bh := size <=? BUDGETS HTML). set (bc := size <=? BUDGETS CSS).
  set (bj := size <=? BUDGETS JS). set (bi := size <=? BUDGETS IMAGES).
  suffix_literals. rewrite H.
  destruct (rev (lit name)) as [|c1 r]; [discriminate|].
  cbn [startsWith] in H. apply andb_true_iff in H as [H1 H].
  destruct r as [|c2 r]; [discriminate|].
  cbn [startsWith] in H. apply andb_true_iff in H as [H2 _].
  apply N.eqb_eq in H1, H2. subst c1 c2.
  cbn [startsWith N.eqb Pos.eqb andb implb].
  destruct bc; reflexivity.
Qed.

Lemma withinCategory_js (name : string) (size : N) :
  hasSuffix name ".js" = true ->
  withinCategory (name, size) = (size <=? BUDGETS JS).
Proof.
  intros H. unfold withinCategory, categories. cbn [forallb fst snd].
  set (bh := size <=? BUDGETS HTML). set (bc := size <=? BUDGETS CSS).
  set (bj := size <=? BUDGETS JS). set (bi := size <=? BUDGETS IMAGES).
  suffix_literals. rewrite H.
  destruct (rev (lit name)) as [|c1 r]; [discriminate|].
  cbn [startsWith] in H. apply andb_true_iff in H as [H1 H].
  destruct r as [|c2 r]; [discriminate|].
  cbn [startsWith] in H. apply andb_true_iff in H as [H2 _].
  apply N.eqb_eq in H1, H2. subst c1 c2.
  cbn [startsWith N.eqb Pos.eqb andb implb].
  destruct bj; reflexivity.
Qed.

(** *** The three enumerations, entry by entry *)

Lemma htmlFiles_cons (n : node) (rest : list node) :
  htmlFiles (n :: rest)
  = (if hasSuffix (nodeName n) ".html" then [(nodeName n, stat n)] else [])
    ++ htmlFiles rest.
Proof.
  unfold htmlFiles. cbn [filter].
  destruct (hasSuffix (nodeName n) ".html"); reflexivity.
Qed.


Lemma cssFiles_cons_other (n : node) (rest : list node) :
  String.eqb (nodeName n) "styles" = false ->
  cssFiles (n :: rest) = cssFiles rest.
Proof.
  intros H. unfold cssFiles.
  destruct n; cbn [readdir nodeName] in *; rewrite H; reflexivity.
Qed.

Lemma jsFiles_cons_other (n : node) (rest : list node) :
  String.eqb (nodeName n) "js" = false ->
  jsFiles (n :: rest) = jsFiles rest.
Proof.
  intros H. unfold jsFiles.
  destruct n; cbn [readdir nodeName] in *; rewrite H; reflexivity.
Qed.

Lemma readdir_absent (name : string) (l : list node) :
  existsb (String.eqb name) (map nodeName l) = false ->
  readdir name l = None.
Proof.
  induction l as [|n l IH]; cbn [map existsb]; [reflexivity|].
  intros H. apply orb_false_elim in H as [Hn Hl].
  rewrite String.eqb_sym in Hn.
  destruct n; cbn [readdir nodeName] in *; rewrite Hn; exact (IH Hl).
Qed.

Lemma markup_name (name : string) :
  hasSuffix name ".html" = true ->
  String.eqb name "styles" = false /\ String.eqb name "js" = false.
Proof.
  intros H. split.
  - destruct (String.eqb name "styles") eqn:E; [|reflexivity].
    apply String.eqb_eq in E. subst name. vm_compute in H. discriminate.
  - destruct (String.eqb name "js") eqn:E; [|reflexivity].
    apply String.eqb_eq in E. subst name. vm_compute in H. discriminate.
Qed.

(** The style sheets of a directory that holds nothing else. *)
Lemma sheets_measured (es : list node) :
  forallb sheetOnly es = true ->
  firstBroken
    (map (fun n => (String.append "styles/" (nodeName n), stat n))
         (filter (fun n => hasSuffix (nodeName n) ".css") es)) = None
  /\ sizes (upToBroken
       (map (fun n => (String.append "styles/" (nodeName n), stat n))
            (filter (fun n => hasSuffix (nodeName n) ".css") es)))
     = sizes (flat_map filesUnder es)
  /\ withinB CSS (upToBroken
       (map (fun n => (String.append "styles/" (nodeName n), stat n))
            (filter (fun n => hasSuffix (nodeName n) ".css") es)))
     = forallb withinCategory (flat_map filesUnder es).
Proof.
  induction es as [|n es IH]; cbn [forallb]; intros H;
    [repeat split|].
  apply andb_true_iff in H as [Hn Hes].
  destruct (IH Hes) as (I1 & I2 & I3).
  destruct n as [name size|name size entries|name regular];
    cbn [sheetOnly] in Hn; try discriminate.
  cbn [filter nodeName]. rewrite Hn.
  cbn [map stat nodeName firstBroken upToBroken flat_map filesUnder app].
  split; [exact I1|]. split.
  - cbn [sizes fold_right snd].
    fold (sizes (flat_map filesUnder es)).
    match goal with |- _ + fold_right _ _ ?l = _ =>
      fold (sizes l) end.
    rewrite I2. reflexivity.
  - unfold withinB in *. cbn [forallb snd].
    rewrite I3, (withinCategory_css name size Hn). reflexivity.
Qed.

(** The scripts of a tree that holds nothing else. *)
Lemma scripts_measured :
  forall (n : node) (prefix : string),
    scriptsOnly n = true ->
    firstBroken (findJavaScriptFiles prefix n) = None
    /\ sizes (upToBroken (findJavaScriptFiles prefix n))
       = sizes (filesUnder n)
    /\ withinB JS (upToBroken (findJavaScriptFiles prefix n))
       = forallb withinCategory (filesUnder n).
Proof.
  fix IH 1.
  intros [name size|name size entries|name regular] prefix H;
    cbn [scriptsOnly] in H; [| |discriminate].
  - cbn [findJavaScriptFiles filesUnder]. rewrite H.
    cbn [firstBroken upToBroken]. split; [reflexivity|].
    split; [reflexivity|].
    unfold withinB. cbn [forallb snd].
    rewrite (withinCategory_js name size H). reflexivity.
  - cbn [findJavaScriptFiles filesUnder].
    generalize (String.append prefix (String.append name "/")) as q.
    revert H. induction entries as [|e es IHes]; cbn [forallb flat_map];
      intros H q; [repeat split|].
    apply andb_true_iff in H as [He Hes].
    destruct (IH e q He) as (A1 & A2 & A3).
    destruct (IHes Hes q) as (B1 & B2 & B3).
    rewrite (firstBroken_app _ _ A1), (upToBroken_app _ _ A1).
    rewrite !sizes_app. unfold withinB in *. rewrite !forallb_app.
    rewrite A2, A3, B2, B3. repeat split. exact B1.
Qed.

Lemma scripts_measured_all (es : list node) (q : string) :
  forallb scriptsOnly es = true ->
  firstBroken (flat_map (findJavaScriptFiles q) es) = None
  /\ sizes (upToBroken (flat_map (findJavaScriptFiles q) es))
     = sizes (flat_map filesUnder es)
  /\ withinB JS (upToBroken (flat_map (findJavaScriptFiles q) es))
     = forallb withinCategory (flat_map filesUnder es).
Proof.
  induction es as [|e es IHes]; cbn [forallb flat_map]; intros H;
    [repeat split|].
  apply andb_true_iff in H as [He Hes].
  destruct (scripts_measured e q He) as (A1 & A2 & A3).
  destruct (IHes Hes) as (B1 & B2 & B3).
  rewrite (firstBroken_app _ _ A1), (upToBroken_app _ _ A1).
  rewrite !sizes_app. unfold withinB in *. rewrite !forallb_app.
  rewrite A2, A3, B2, B3. repeat split. exact B1.
Qed.

(** On an output root of the expected layout the three loops get
    through, and what they measure is what was produced. *)
Lemma layout_measured (d : list node) :
  forallb rootEntry d = true ->
  distinct (map nodeName d) = true ->
  firstBroken (htmlFiles d) = None
  /\ firstBroken (cssFiles d) = None
  /\ firstBroken (jsFiles d) = None
  /\ sizes (upToBroken (htmlFiles d)) + sizes (upToBroken (cssFiles d))
     + sizes (upToBroken (jsFiles d))
     = sizes (producedArtifacts d)
  /\ withinB HTML (upToBroken (htmlFiles d))
     && withinB CSS (upToBroken (cssFiles d))
     && withinB JS (upToBroken (jsFiles d))
     = forallb withinCategory (producedArtifacts d).
Proof.
  induction d as [|n rest IH]; cbn [forallb map distinct];
    intros Hroot Hnames; [repeat split|].
  apply andb_true_iff in Hroot as [Hn Hrest].
  apply andb_true_iff in Hnames as [Hfresh Hnames].
  apply negb_true_iff in Hfresh.
  destruct (IH Hrest Hnames) as (Fh & Fc & Fj & Hsum & Hw). clear IH.
  unfold producedArtifacts in *. cbn [flat_map].
  rewrite sizes_app, forallb_app, <- Hsum, <- Hw. clear Hsum Hw.
  rewrite htmlFiles_cons.
  destruct n as [name size|name size entries|name regular];
    cbn [rootEntry nodeName] in Hn, Hfresh; [| |discriminate];
    cbn [nodeName stat filesUnder].
  - destruct (markup_name name Hn) as [Hs Hj].
    rewrite (cssFiles_cons_other (File name size) rest Hs),
      (jsFiles_cons_other (File name size) rest Hj), Hn.
    cbn [app firstBroken upToBroken].
    rewrite !sizes_cons. unfold withinB. cbn [forallb snd sizes fold_right].
    rewrite (withinCategory_html name size Hn).
    split; [exact Fh|]. split; [exact Fc|]. split; [exact Fj|].
    split; [lia|btauto].
  - apply orb_true_iff in Hn as [Hn|Hn];
      apply andb_true_iff in Hn as [Hname Hes];
      apply String.eqb_eq in Hname; subst name.
    + assert (Hnone : cssFiles rest = []).
      { unfold cssFiles. rewrite (readdir_absent _ _ Hfresh). reflexivity. }
      rewrite Hnone. clear Fc.
      change (hasSuffix "styles" ".html") with false. cbn [app].
      rewrite (jsFiles_cons_other (Dir "styles" size entries) rest eq_refl).
      assert (Hcss : cssFiles (Dir "styles" size entries :: rest)
                     = map (fun n => (String.append "styles/" (nodeName n),
                                      stat n))
                           (filter (fun n => hasSuffix (nodeName n) ".css")
                                   entries)) by reflexivity.
      rewrite Hcss.
      destruct (sheets_measured entries Hes) as (S1 & S2 & S3).
      rewrite S2, S3. cbn [upToBroken sizes fold_right withinB forallb].
      split; [exact Fh|]. split; [exact S1|]. split; [exact Fj|].
      split; [lia|btauto].
    + assert (Hnone : jsFiles rest = []).
      { unfold jsFiles. rewrite (readdir_absent _ _ Hfresh). reflexivity. }
      rewrite Hnone. clear Fj.
      change (hasSuffix "js" ".html") with false. cbn [app].
      rewrite (cssFiles_cons_other (Dir "js" size entries) rest eq_refl).
      assert (Hjs : jsFiles (Dir "js" size entries :: rest)
                    = flat_map (findJavaScriptFiles "js/") entries)
        by reflexivity.
      rewrite Hjs.
      destruct (scripts_measured_all entries "js/" Hes) as (S1 & S2 & S3).
      rewrite S2, S3. cbn [upToBroken sizes fold_right withinB forallb].
      split; [exact Fh|]. split; [exact Fc|]. split; [exact S1|].
      split; [lia|btauto].
Qed.

(** What the validator returns on an output root of the expected
    layout. *)
Lemma validatePerformanceBudget_layout (d : list node) :
  countedLayout d = true ->
  validatePerformanceBudget (Some d)
  = Ok {| totalSize := sizes (producedArtifacts d);
          violations :=
            overBudget HTML (upToBroken (htmlFiles d))
            ++ overBudget CSS (upToBroken (cssFiles d))
            ++ overBudget JS (upToBroken (jsFiles d))
            ++ totalViolation (sizes (producedArtifacts d));
          passed :=
            Nat.eqb
              (List.length
                 (overBudget HTML (upToBroken (htmlFiles d))
                  ++ overBudget CSS (upToBroken (cssFiles d))
                  ++ overBudget JS (upToBroken (jsFiles d))
                  ++ totalViolation (sizes (producedArtifacts d)))) 0 |}
  /\ (overBudget HTML (upToBroken (htmlFiles d))
      ++ overBudget CSS (upToBroken (cssFiles d))
      ++ overBudget JS (upToBroken (jsFiles d)) = []
      <-> forallb withinCategory (producedArtifacts d) = true).
Proof.
  intros Hlayout. apply andb_true_iff in Hlayout as [Hroot Hnames].
  destruct (layout_measured d Hroot Hnames) as (Fh & _ & _ & Hsum & Hw).
  rewrite validatePerformanceBudget_value, Fh.
  assert (Hm : sizes (measured d) = sizes (producedArtifacts d)).
  { unfold measured. rewrite !sizes_app. lia. }
  rewrite Hm. split; [reflexivity|].
  rewrite <- Hw, !andb_true_iff, <- !overBudget_nil. split.
  - intros H. apply app_eq_nil in H as [H1 H].
    apply app_eq_nil in H as [H2 H3]. tauto.
  - intros [[H1 H2] H3]. rewrite H1, H2, H3. reflexivity.
Qed.

(** *** Scenario D *)


Definition eightScripts : list node :=
  map (fun n => File n (50 * 1024))
      ["a.js"; "b.js"; "c.js"; "d.js"; "e.js"; "f.js"; "g.js"; "h.js"].




(** An output root of the expected layout that weighs 520KB. *)
Definition fullOutput : list node :=
  [ File "index.html" (50 * 1024);
    Dir "styles" 4096
      [File "main.css" (30 * 1024); File "print.css" (30 * 1024)];
    Dir "js" 4096
      (eightScripts ++ [Dir "vendor" 4096 [File "lib.js" (10 * 1024)]]) ].


End Budget.

(** ** Image acquisition *)

Section ImageAcquisition.

Import OptimizeImages.

Variable network : list request -> string -> fetchOutcome.

Definition counted (c : results) : nat :=
  (downloaded c + skipped c + failed c)%nat.

Definition present (files : list string) (img : image) : bool :=
  existsSync files (outputPath img).

Definition absent (files : list string) (img : image) : bool :=
  negb (present files img).

Definition isFetched (r : request) : bool :=
  match outcome r with Fetched => true | _ => false end.

(** The promise of the download settled: it resolved or was
    rejected. *)
Definition settled (r : request) : bool :=
  match outcome r with
  | Fetched => true
  | Rejected _ => true
  | Uncaught => false
  | Unsettled => false
  end.

(** The file a download was to write is there afterwards: the download
    resolved, or it was rejected and left the file its stream had
    opened. *)
Definition leavesFile (r : request) : bool :=
  match outcome r with
  | Fetched => true
  | Rejected fileStays => fileStays
  | Uncaught => false
  | Unsettled => true
  end.

(** Every outcome in the log is what the remote side answered, given
    the log before it. *)
Definition answered (log : list request) : Prop :=
  forall pre r post,
    log = pre ++ r :: post -> outcome r = network pre (requestUrl r).

Ltac visit_cases H :=
  cbv beta zeta delta [visit] in H;
  match type of H with
  | context [existsSync ?f ?p] => destruct (existsSync f p) eqn:?Hex
  end;
  [|match type of H with
    | context [network ?l ?u] => destruct (network l u) eqn:?Hnet
    end];
  injection H as <- <-.

(** *** One turn *)

Lemma visit_counted (st st1 : state) (img : image) :
  visit network st img = (st1, None) ->
  counted (counts st1) = S (counted (counts st)).
Proof.
  intros H. unfold counted.
  cbv beta zeta delta [visit] in H.
  destruct (existsSync _ _); [|destruct (network _ _)];
    try discriminate; injection H as <-; simpl; lia.
Qed.

Lemma visit_stops (st st1 : state) (img : image) (e : ending) :
  visit network st img = (st1, Some e) ->
  present (existing st) img = false
  /\ e <> Returned
  /\ exists r, requests st1 = requests st ++ [r]
               /\ settled r = false
               /\ (e = Killed /\ outcome r = Uncaught
                   \/ e = Stalled /\ outcome r = Unsettled).
Proof.
  intros H. unfold present.
  cbv beta zeta delta [visit] in H.
  destruct (existsSync _ _); [discriminate|].
  destruct (network _ _) eqn:Hnet; try discriminate;
    injection H as <- <-; (split; [reflexivity|]);
    (split; [discriminate|]); eexists; cbn [requests];
    (split; [reflexivity|]); unfold settled; cbn [outcome];
    (split; [reflexivity|]); [left|right]; split; reflexivity.
Qed.

Lemma visit_goes_on (st st1 : state) (img : image) :
  visit network st img = (st1, None) ->
  Forall (fun r => settled r = true) (requests st) ->
  Forall (fun r => settled r = true) (requests st1).
Proof.
  intros H Hall.
  cbv beta zeta delta [visit] in H.
  destruct (existsSync _ _); [|destruct (network _ _) eqn:Hnet];
    try discriminate; injection H as <-; cbn [requests];
    try exact Hall; apply Forall_app; (split; [exact Hall|]);
    repeat constructor.
Qed.

Lemma visit_failed (st st1 : state) (img : image) (o : option ending) :
  visit network st img = (st1, o) ->
  (failed (counts st1) + List.length (filter isRejected (requests st)))%nat
  = (failed (counts st)
     + List.length (filter isRejected (requests st1)))%nat.
Proof.
  intros H. visit_cases H; cbn [requests counts failed];
    rewrite ?filter_app, ?length_app; unfold isRejected; simpl; lia.
Qed.

Lemma visit_downloaded (st st1 : state) (img : image) (o : option ending) :
  visit network st img = (st1, o) ->
  (downloaded (counts st1)
   + List.length (filter isFetched (requests st)))%nat
  = (downloaded (counts st)
     + List.length (filter isFetched (requests st1)))%nat.
Proof.
  intros H. visit_cases H; cbn [requests counts downloaded];
    rewrite ?filter_app, ?length_app; unfold isFetched; simpl; lia.
Qed.

(** A turn changes the presence of no file but its own. *)
Lemma visit_existing (st st1 : state) (img : image) (o : option ending)
  (p : string) :
  visit network st img = (st1, o) ->
  p <> outputPath img ->
  existsSync (existing st1) p = existsSync (existing st) p.
Proof.
  intros H Hp.
  assert (Hneq : String.eqb p (outputPath img) = false)
    by (apply String.eqb_neq; exact Hp).
  visit_cases H; cbn [existing]; try reflexivity;
    try (unfold existsSync; cbn [existsb]; rewrite Hneq; reflexivity).
  destruct fileStays; [|reflexivity].
  unfold existsSync; cbn [existsb]; rewrite Hneq; reflexivity.
Qed.

Lemma visit_keeps_files (st st1 : state) (img : image) (o : option ending)
  (p : string) :
  visit network st img = (st1, o) ->
  existsSync (existing st) p = true ->
  existsSync (existing st1) p = true.
Proof.
  intros H Hp. unfold existsSync in *.
  visit_cases H; cbn [existing]; try exact Hp;
    try (cbn [existsb]; rewrite Hp; apply orb_true_r).
  destruct fileStays; [|exact Hp].
  cbn [existsb]; rewrite Hp; apply orb_true_r.
Qed.

Lemma visit_requests (st st1 : state) (img : image) (o : option ending) :
  visit network st img = (st1, o) ->
  map requestPath (requests st1)
  = map requestPath (requests st)
    ++ (if present (existing st) img then [] else [outputPath img])
  /\ map requestUrl (requests st1)
     = map requestUrl (requests st)
       ++ (if present (existing st) img then [] else [downloadUrl img])
  /\ skipped (counts st1)
     = ((if present (existing st) img then 1 else 0)
        + skipped (counts st))%nat.
Proof.
  intros H. unfold present.
  visit_cases H; cbn [requests counts skipped];
    rewrite ?map_app, ?app_nil_r; repeat split.
Qed.

Lemma answered_snoc (log : list request) (r0 : request) :
  answered log ->
  outcome r0 = network log (requestUrl r0) ->
  answered (log ++ [r0]).
Proof.
  intros Hlog Hr0 pre r post Heq.
  destruct post as [|x post0] using rev_ind.
  - apply app_inj_tail in Heq as [<- <-]. exact Hr0.
  - clear IHpost0.
    change (pre ++ r :: post0 ++ [x]) with (pre ++ (r :: post0) ++ [x]) in Heq.
    rewrite app_assoc in Heq. apply app_inj_tail in Heq as [Heq _].
    exact (Hlog pre r post0 Heq).
Qed.

Lemma visit_answered (st st1 : state) (img : image) (o : option ending) :
  visit network st img = (st1, o) ->
  answered (requests st) -> answered (requests st1).
Proof.
  intros H Hlog.
  visit_cases H; cbn [requests]; try exact Hlog;
    apply answered_snoc; try exact Hlog; cbn [outcome requestUrl];
    symmetry; exact Hnet.
Qed.

(** With all the downloads so far leaving their file, the file of the
    entry is there after its turn. *)
Lemma visit_leaves (st st1 : state) (img : image) (o : option ending) :
  visit network st img = (st1, o) ->
  Forall (fun r => leavesFile r = true) (requests st1) ->
  present (existing st1) img = true.
Proof.
  intros H. unfold present.
  visit_cases H; cbn [existing requests]; intros Hall;
    try exact Hex;
    try (unfold existsSync; cbn [existsb]; rewrite String.eqb_refl;
         reflexivity);
    apply Forall_app in Hall as [_ Hall];
    inversion Hall as [|? ? Hr _]; subst; cbn in Hr; try discriminate.
  subst fileStays.
  unfold existsSync; cbn [existsb]; rewrite String.eqb_refl; reflexivity.
Qed.

(** *** The loop *)

Lemma acquire_cons (img : image) (rest : list image) (st st' : state)
  (e : ending) :
  acquire network (img :: rest) st = (st', e) ->
  (exists st1, visit network st img = (st1, None)
               /\ acquire network rest st1 = (st', e))
  \/ visit network st img = (st', Some e).
Proof.
  cbn [acquire]. destruct (visit network st img) as [st1 [e1|]].
  - intros H. injection H as <- <-. right. reflexivity.
  - intros H. left. exists st1. split; [reflexivity|exact H].
Qed.

Lemma acquire_returned (img : image) (rest : list image) (st st' : state) :
  acquire network (img :: rest) st = (st', Returned) ->
  exists st1, visit network st img = (st1, None)
              /\ acquire network rest st1 = (st', Returned).
Proof.
  intros H. apply acquire_cons in H as [H|H]; [exact H|].
  apply visit_stops in H as (_ & H & _). congruence.
Qed.

Lemma acquire_counted (catalog : list image) :
  forall st st',
    acquire network catalog st = (st', Returned) ->
    counted (counts st') = (List.length catalog + counted (counts st))%nat.
Proof.
  induction catalog as [|img catalog IH]; intros st st' H.
  - injection H as <-. reflexivity.
  - apply acquire_returned in H as (st1 & Hv & H).
    rewrite (IH _ _ H), (visit_counted _ _ _ Hv). simpl. lia.
Qed.

(** The failures counted are the downloads that were rejected, and the
    downloads counted are those that resolved, however the run ends. *)
Lemma acquire_tallies (catalog : list image) :
  forall st st' e,
    acquire network catalog st = (st', e) ->
    (failed (counts st') + List.length (filter isRejected (requests st)))%nat
    = (failed (counts st)
       + List.length (filter isRejected (requests st')))%nat
    /\ (downloaded (counts st')
        + List.length (filter isFetched (requests st)))%nat
       = (downloaded (counts st)
          + List.length (filter isFetched (requests st')))%nat.
Proof.
  induction catalog as [|img catalog IH]; intros st st' e H.
  - injection H as <- _. split; reflexivity.
  - apply acquire_cons in H as [(st1 & Hv & H)|Hv].
    + destruct (IH _ _ _ H) as [I1 I2].
      pose proof (visit_failed _ _ _ _ Hv).
      pose proof (visit_downloaded _ _ _ _ Hv). lia.
    + split; [exact (visit_failed _ _ _ _ Hv)
             |exact (visit_downloaded _ _ _ _ Hv)].
Qed.

Lemma acquire_answered (catalog : list image) :
  forall st st' e,
    acquire network catalog st = (st', e) ->
    answered (requests st) -> answered (requests st').
Proof.
  induction catalog as [|img catalog IH]; intros st st' e H Hlog.
  - injection H as <- _. exact Hlog.
  - apply acquire_cons in H as [(st1 & Hv & H)|Hv].
    + exact (IH _ _ _ H (visit_answered _ _ _ _ Hv Hlog)).
    + exact (visit_answered _ _ _ _ Hv Hlog).
Qed.

Lemma answered_nil : answered [].
Proof. intros [|x pre] r post H; discriminate H. Qed.

(** In a run that returns every download settled; a run that does not
    return ends with the one download that did not. *)
Lemma acquire_settled (catalog : list image) :
  forall st st' e,
    acquire network catalog st = (st', e) ->
    Forall (fun r => settled r = true) (requests st) ->
    match e with
    | Returned => Forall (fun r => settled r = true) (requests st')
    | _ =>
        exists pre r,
          requests st' = pre ++ [r]
          /\ Forall (fun r => settled r = true) pre
          /\ (e = Killed /\ outcome r = Uncaught
              \/ e = Stalled /\ outcome r = Unsettled)
    end.
Proof.
  induction catalog as [|img catalog IH]; intros st st' e H Hall.
  - injection H as <- <-. exact Hall.
  - apply acquire_cons in H as [(st1 & Hv & H)|Hv].
    + exact (IH _ _ _ H (visit_goes_on _ _ _ Hv Hall)).
    + apply visit_stops in Hv as (_ & He & r & Hreq & _ & Hr).
      destruct e; [congruence| |]; exists (requests st), r;
        (split; [exact Hreq|]); (split; [exact Hall|exact Hr]).
Qed.

Lemma acquire_keeps_files (catalog : list image) (p : string) :
  forall st st' e,
    acquire network catalog st = (st', e) ->
    existsSync (existing st) p = true ->
    existsSync (existing st') p = true.
Proof.
  induction catalog as [|img catalog IH]; intros st st' e H Hp.
  - injection H as <- _. exact Hp.
  - apply acquire_cons in H as [(st1 & Hv & H)|Hv].
    + exact (IH _ _ _ H (visit_keeps_files _ _ _ _ _ Hv Hp)).
    + exact (visit_keeps_files _ _ _ _ _ Hv Hp).
Qed.

Lemma acquire_extends (catalog : list image) :
  forall st st' e,
    acquire network catalog st = (st', e) ->
    exists extra, requests st' = requests st ++ extra.
Proof.
  induction catalog as [|img catalog IH]; intros st st' e H.
  - injection H as <- _. exists []. rewrite app_nil_r. reflexivity.
  - assert (Hone : forall st1 o, visit network st img = (st1, o) ->
                     exists extra, requests st1 = requests st ++ extra).
    { intros st1 o Hv. visit_cases Hv; cbn [requests];
        try (eexists; reflexivity).
      exists []. rewrite app_nil_r. reflexivity. }
    apply acquire_cons in H as [(st1 & Hv & H)|Hv].
    + destruct (IH _ _ _ H) as [e2 H2]. destruct (Hone _ _ Hv) as [e1 H1].
      exists (e1 ++ e2). rewrite H2, H1, app_assoc. reflexivity.
    + exact (Hone _ _ Hv).
Qed.

(** With distinct target paths, what is asked for and what is skipped
    depends on the files found at the start only: the downloads asked
    for are, in the order of the catalog, those of the entries without
    a file, up to the entry at which the run ends. *)
Lemma acquire_asked (catalog : list image) :
  NoDup (map outputPath catalog) ->
  forall st st' e,
    acquire network catalog st = (st', e) ->
    exists unreached,
      map requestPath (requests st') ++ map outputPath unreached
      = map requestPath (requests st)
        ++ map outputPath (filter (absent (existing st)) catalog)
      /\ map requestUrl (requests st') ++ map downloadUrl unreached
         = map requestUrl (requests st)
           ++ map downloadUrl (filter (absent (existing st)) catalog)
      /\ (e = Returned ->
          unreached = []
          /\ skipped (counts st')
             = (List.length (filter (present (existing st)) catalog)
                + skipped (counts st))%nat).
Proof.
  induction catalog as [|img catalog IH]; intros Hnd st st' e H.
  - injection H as <- _. exists []. repeat split.
  - simpl in Hnd. apply NoDup_cons_iff in Hnd as [Hnotin Hnd].
    assert (Hsame : forall st1 o, visit network st img = (st1, o) ->
              forall i, In i catalog ->
                present (existing st1) i = present (existing st) i).
    { intros st1 o Hv i Hi. unfold present.
      apply (visit_existing _ _ _ _ _ Hv).
      intros Heq. apply Hnotin. rewrite <- Heq. apply in_map; exact Hi. }
    apply acquire_cons in H as [(st1 & Hv & H)|Hv].
    + destruct (IH Hnd _ _ _ H) as (unreached & Hp & Hu & Hret).
      destruct (visit_requests _ _ _ _ Hv) as (Vp & Vu & Vs).
      rewrite (filter_ext_in (absent (existing st1))
                 (absent (existing st)) catalog) in Hp, Hu
        by (intros i Hi; unfold absent; rewrite (Hsame _ _ Hv i Hi);
            reflexivity).
      rewrite (filter_ext_in (present (existing st1))
                 (present (existing st)) catalog) in Hret
        by exact (Hsame _ _ Hv).
      exists unreached. rewrite Hp, Hu, Vp, Vu. cbn [filter].
      replace (absent (existing st) img)
        with (negb (present (existing st) img)) by reflexivity.
      destruct (present (existing st) img); cbn [negb map app List.length];
        rewrite <- ?app_assoc; (split; [reflexivity|]);
        (split; [reflexivity|]); intros He;
        destruct (Hret He) as [-> Hs]; (split; [reflexivity|]);
        rewrite Hs, Vs; lia.
    + destruct (visit_requests _ _ _ _ Hv) as (Vp & Vu & _).
      apply visit_stops in Hv as (Habs & He & _).
      exists (filter (absent (existing st)) catalog).
      rewrite Vp, Vu. cbn [filter].
      replace (absent (existing st) img)
        with (negb (present (existing st) img)) by reflexivity.
      rewrite Habs. cbn [negb map app]. rewrite <- !app_assoc.
      repeat split; try reflexivity; intros; congruence.
Qed.

(** When every download left its file, every entry of the catalog has
    its file after a run that returns. *)
Lemma acquire_leaves (catalog : list image) :
  forall st st',
    acquire network catalog st = (st', Returned) ->
    Forall (fun r => leavesFile r = true) (requests st') ->
    forall img, In img catalog -> present (existing st') img = true.
Proof.
  induction catalog as [|img0 catalog IH]; intros st st' H Hall img Hin;
    [destruct Hin|].
  apply acquire_returned in H as (st1 & Hv & H).
  destruct Hin as [->|Hin]; [|exact (IH _ _ H Hall img Hin)].
  apply (acquire_keeps_files catalog _ _ _ _ H).
  apply (visit_leaves _ _ _ _ Hv).
  destruct (acquire_extends catalog _ _ _ H) as [extra He].
  rewrite He in Hall. apply Forall_app in Hall as [Hall _]. exact Hall.
Qed.

(** Over a directory that holds the file of every entry, a run asks for
    nothing, skips every entry and returns. *)
Lemma acquire_all_present (catalog : list image) :
  forall st,
    (forall img, In img catalog -> present (existing st) img = true) ->
    acquire network catalog st
    = ({| existing := existing st; requests := requests st;
          counts := {| downloaded := downloaded (counts st);
                       skipped := (List.length catalog
                                   + skipped (counts st))%nat;
                       failed := failed (counts st) |} |}, Returned).
Proof.
  induction catalog as [|img catalog IH]; intros st Hall.
  - destruct st as [ex rq [d s f]]. reflexivity.
  - cbn [acquire]. cbv beta zeta delta [visit].
    pose proof (Hall img (or_introl eq_refl)) as Himg.
    unfold present in Himg. rewrite Himg.
    rewrite IH by (intros i Hi; apply Hall; right; exact Hi).
    cbn [existing requests counts downloaded skipped failed List.length].
    f_equal. f_equal. f_equal. lia.
Qed.

Lemma catalog_paths_distinct : NoDup (map outputPath UNSPLASH_IMAGES).
Proof. apply distinct_NoDup. vm_compute. reflexivity. Qed.

Lemma processUnsplashImages_state (ready : bool) (files : list string)
  (st : state) :
  processUnsplashImages network ready files = Some st ->
  acquire network UNSPLASH_IMAGES (start files) = (st, Returned).
Proof.
  unfold processUnsplashImages. destruct ready; [|discriminate].
  destruct (acquire network UNSPLASH_IMAGES (start files)) as [st1 []];
    congruence.
Qed.


(** C9.  When [processUnsplashImages] completes, every catalog entry has
    been counted in exactly one of the three counters: downloaded,
    skipped and failed add up to the number of entries of the
    configured catalog, which is eleven. *)
Theorem counters_cover_catalog (ready : bool) (files : list string)
  (st : state) :
  processUnsplashImages network ready files = Some st ->
  (downloaded (counts st) + skipped (counts st) + failed (counts st))%nat
  = List.length UNSPLASH_IMAGES
  /\ List.length UNSPLASH_IMAGES = 11%nat.
Proof.
  intros H. apply processUnsplashImages_state in H.
  split; [|reflexivity].
  pose proof (acquire_counted UNSPLASH_IMAGES _ _ H) as Hc.
  unfold counted in Hc. rewrite Hc. cbn [start counts downloaded skipped failed].
  lia.
Qed.


End ImageAcquisition.


(** A source directory in which no file can be opened for writing. *)
Definition unopenable (_ : list OptimizeImages.request) (_ : string)
  : OptimizeImages.fetchOutcome :=
  OptimizeImages.Uncaught.


Lemma unopenable_target_run :
  exists st,
    OptimizeImages.acquire unopenable OptimizeImages.UNSPLASH_IMAGES
      (OptimizeImages.start [])
    = (st, OptimizeImages.Killed)
    /\ List.length (OptimizeImages.requests st) = 1%nat
    /\ OptimizeImages.failed (OptimizeImages.counts st) = 0%nat.
Proof. eexists. split; [reflexivity|]. split; reflexivity. Qed.

(** A remote side that rejects every download and leaves the opened file
    behind, and a source directory that holds the first image. *)
Definition refusing (_ : list OptimizeImages.request) (_ : string)
  : OptimizeImages.fetchOutcome :=
  OptimizeImages.Rejected true.

Definition heroCached : list string := ["images/source/hero-worship.jpg"].

Lemma counters_cover_catalog_witness :
  let st := fst (OptimizeImages.acquire refusing OptimizeImages.UNSPLASH_IMAGES
                   (OptimizeImages.start heroCached)) in
  (OptimizeImages.downloaded (OptimizeImages.counts st)
   + OptimizeImages.skipped (OptimizeImages.counts st)
   + OptimizeImages.failed (OptimizeImages.counts st))%nat
  = List.length OptimizeImages.UNSPLASH_IMAGES
  /\ List.length OptimizeImages.UNSPLASH_IMAGES = 11%nat.
Proof.
  apply (counters_cover_catalog refusing true heroCached).
  vm_compute. reflexivity.
Defined.


(** ** Markup optimisation without the critical style sheet *)

Section MarkupWithoutCriticalCSS.

Import Build.

Lemma untilGt_afterGt (r : jsstring) :
  existsb (N.eqb GT) r = true -> r = untilGt r ++ GT :: afterGt r.
Proof.
  induction r as [|c r IH]; cbn [existsb untilGt afterGt]; [discriminate|].
  rewrite (N.eqb_sym GT c). destruct (c =? GT) eqn:Hc.
  - intros _. apply N.eqb_eq in Hc. subst c. reflexivity.
  - intros H. cbn [orb] in H. cbn [app]. f_equal. apply IH. exact H.
Qed.

Lemma linkAt_split (s : jsstring) :
  linkAt s = true ->
  s = lit "<link" ++ untilGt (skipn 5 s) ++ GT :: afterGt (skipn 5 s).
Proof.
  unfold linkAt. rewrite !andb_true_iff. intros [[Hstart Hgt] _].
  apply startsWith_spec in Hstart as [r ->].
  change (skipn 5 (lit "<link" ++ r)) with r in *.
  f_equal. apply untilGt_afterGt. exact Hgt.
Qed.

(** The tag the link pattern finds is a piece of the text, from an
    opening to a closing angle bracket. *)
Lemma findStylesheetLink_split (s : jsstring) :
  forall before tag after,
    findStylesheetLink s = Some (before, tag, after) ->
    s = before ++ tag ++ after /\
    exists inner, tag = 60 :: inner ++ [GT].
Proof.
  induction s as [|c s IH]; intros before tag after; [discriminate|].
  cbn [findStylesheetLink].
  destruct (linkAt (c :: s)) eqn:Hlink.
  - intros H; injection H as <- <- <-. split.
    + cbn [app]. rewrite <- !app_assoc. exact (linkAt_split _ Hlink).
    + exists (lit "link" ++ untilGt (skipn 5 (c :: s))).
      rewrite <- app_assoc. reflexivity.
  - destruct (findStylesheetLink s) as [[[b t] a]|]; [|discriminate].
    intros H; injection H as <- <- <-.
    destruct (IH b t a eq_refl) as [Hs Htag].
    split; [rewrite Hs; reflexivity|exact Htag].
Qed.

(** *** A link tag through the reductions *)























End MarkupWithoutCriticalCSS.

(** ** Minification never grows the text *)

Section Lengths.

Import OptimizeCss.

Lemma length_stripBlockComments_bounded (n : nat) :
  forall s inside,
    (List.length s <= n)%nat ->
    (List.length (stripBlockComments_go inside s) <= List.length s)%nat.
Proof.
  induction n as [|n IH]; intros s inside Hn.
  - destruct s; simpl in *; [lia|lia].
  - destruct s as [|c [|d t']]; [simpl; lia|destruct inside; simpl; lia|].
    cbn [stripBlockComments_go].
    assert (Ht : (List.length (d :: t') <= n)%nat) by (simpl in *; lia).
    assert (Ht' : (List.length t' <= n)%nat) by (simpl in *; lia).
    destruct inside.
    + destruct ((c =? STAR) && (d =? SLASH)).
      * specialize (IH t' false Ht'). simpl; lia.
      * specialize (IH (d :: t') true Ht). simpl in *; lia.
    + destruct ((c =? SLASH) && (d =? STAR) && includes t' [STAR; SLASH]).
      * specialize (IH t' true Ht'). simpl; lia.
      * specialize (IH (d :: t') false Ht). simpl in *; lia.
Qed.

Lemma length_stripBlockComments (s : jsstring) :
  (List.length (stripBlockComments s) <= List.length s)%nat.
Proof.
  apply (length_stripBlockComments_bounded (List.length s)). lia.
Qed.

Lemma length_collapseWhitespace_go (s : jsstring) :
  forall inRun,
    (List.length (collapseWhitespace_go inRun s) <= List.length s)%nat.
Proof.
  induction s as [|c s IH]; intros inRun; simpl; [lia|].
  destruct (is_space c); [destruct inRun|]; simpl;
    match goal with |- context [collapseWhitespace_go ?b s] =>
      specialize (IH b) end; lia.
Qed.

Lemma length_tighten_go (is_punct : char -> bool) (s : jsstring) :
  forall after,
    (List.length (tighten_go is_punct after s) <= List.length s)%nat.
Proof.
  induction s as [|c s IH]; intros after; simpl; [lia|].
  destruct (is_punct c); [|destruct (is_space c);
    [destruct (after || punctAhead is_punct s)|]]; simpl;
    match goal with |- context [tighten_go is_punct ?b s] =>
      specialize (IH b) end; lia.
Qed.

Lemma length_dropTrailingSemicolons (s : jsstring) :
  (List.length (dropTrailingSemicolons s) <= List.length s)%nat.
Proof.
  induction s as [|c s IH]; [simpl; lia|].
  cbn [dropTrailingSemicolons]. destruct s as [|d t]; [simpl; lia|].
  destruct ((c =? SEMI) && (d =? RBRACE)); simpl in *; lia.
Qed.

Lemma length_dropEmptyRules_go (s : jsstring) :
  forall m,
    (List.length (dropEmptyRules_go m s) <= List.length s)%nat.
Proof.
  induction s as [|c s IH]; intros m; [simpl; lia|].
  cbn [dropEmptyRules_go].
  destruct m;
    [destruct (is_brace c); [|destruct (emptyRuleAhead (c :: s))]
    |destruct (c =? LBRACE)|destruct (c =? RBRACE)]; simpl;
    match goal with |- context [dropEmptyRules_go ?m' s] =>
      specialize (IH m') end; lia.
Qed.

(** C10.  The minified style sheet is never longer than its source:
    the length of [minifyCSS s], in code units, is at most that
    of [s]. *)
Theorem minifyCSS_never_grows (s : jsstring) :
  (List.length (minifyCSS s) <= List.length s)%nat.
Proof.
  unfold minifyCSS, dropEmptyRules, tighten, collapseWhitespace.
  pose proof (length_stripBlockComments s) as H1.
  pose proof (length_collapseWhitespace_go (stripBlockComments s) false) as H2.
  pose proof (length_tighten_go is_punct
                (collapseWhitespace_go false (stripBlockComments s)) false)
    as H3.
  pose proof (length_dropTrailingSemicolons
                (tighten_go is_punct false
                   (collapseWhitespace_go false (stripBlockComments s))))
    as H4.
  pose proof (length_dropEmptyRules_go
                (dropTrailingSemicolons
                   (tighten_go is_punct false
                      (collapseWhitespace_go false (stripBlockComments s))))
                Scan) as H5.
  pose proof (length_trim
                (dropEmptyRules_go Scan
                   (dropTrailingSemicolons
                      (tighten_go is_punct false
                         (collapseWhitespace_go false
                            (stripBlockComments s)))))) as H6.
  lia.
Qed.

End Lengths.

(** ** The normal form the white-space steps produce *)

Section WhitespaceNormalForm.

Variable is_punct : char -> bool.
Hypothesis punct_not_space : forall c, is_punct c = true -> is_space c = false.

(** [chain R o s]: neighbours in [s] are related by [R], and so are [p]
    and the first character of [s] when [o] is [Some p]. *)
Fixpoint chain (R : char -> char -> Prop) (o : option char) (s : jsstring)
  : Prop :=
  match s with
  | [] => True
  | c :: t =>
      match o with Some p => R p c | None => True end /\ chain R (Some c) t
  end.

(** No two white-space characters side by side. *)
Definition noDouble (a b : char) : Prop :=
  is_space a = true -> is_space b = false.

(** A white-space character has neither white space nor a character of
    the class next to it. *)
Definition apart (a b : char) : Prop :=
  (is_space a = true -> is_space b = false /\ is_punct b = false) /\
  (is_space b = true -> is_space a = false /\ is_punct a = false).

(** The only white-space character is the space. *)
Definition plain (c : char) : Prop := is_space c = true -> c = SPACE.

Lemma chain_weaken (R : char -> char -> Prop) (s : jsstring) :
  forall o, chain R o s -> chain R None s.
Proof.
  destruct s as [|c t]; intros o H; simpl in *; [exact I|].
  split; [exact I|apply H].
Qed.

Lemma chain_impl (R R' : char -> char -> Prop) :
  (forall a b, R a b -> R' a b) ->
  forall s o, chain R o s -> chain R' o s.
Proof.
  intros HR. induction s as [|c t IH]; intros o H; simpl in *; [exact I|].
  destruct H as [H1 H2]. split; [|apply IH; exact H2].
  destruct o; [apply HR; exact H1|exact I].
Qed.

Lemma chain_app_r (R : char -> char -> Prop) (a b : jsstring) :
  forall o, chain R o (a ++ b) -> chain R None b.
Proof.
  induction a as [|c a IH]; intros o H; simpl in *.
  - exact (chain_weaken R b o H).
  - destruct H as [_ H]. exact (IH _ H).
Qed.

Lemma chain_app_l (R : char -> char -> Prop) (a b : jsstring) :
  forall o, chain R o (a ++ b) -> chain R o a.
Proof.
  induction a as [|c a IH]; intros o H; simpl in *; [exact I|].
  destruct H as [H1 H2]. split; [exact H1|exact (IH _ H2)].
Qed.

Lemma apart_noDouble (a b : char) : apart a b -> noDouble a b.
Proof. intros [H _] Ha. apply H; exact Ha. Qed.

(** *** What the steps produce *)

Lemma collapse_chain (s : jsstring) :
  forall o inRun,
    (forall p, o = Some p -> is_space p = true -> inRun = true) ->
    chain noDouble o (collapseWhitespace_go inRun s).
Proof.
  induction s as [|c t IH]; intros o inRun Ho; cbn [collapseWhitespace_go];
    [exact I|].
  destruct (is_space c) eqn:Hc; [destruct inRun eqn:Hrun|].
  - apply IH. intros; reflexivity.
  - cbn [chain]. split.
    + destruct o as [p|]; [|exact I]. intros Hp.
      specialize (Ho p eq_refl Hp). discriminate.
    + apply IH. intros; reflexivity.
  - cbn [chain]. split.
    + destruct o as [p|]; [|exact I]. intros _. exact Hc.
    + apply IH. intros p Hp Hsp. injection Hp as <-. congruence.
Qed.

Lemma collapse_plain (s : jsstring) :
  forall inRun, Forall plain (collapseWhitespace_go inRun s).
Proof.
  induction s as [|c t IH]; intros inRun; cbn [collapseWhitespace_go];
    [constructor|].
  destruct (is_space c) eqn:Hc; [destruct inRun|].
  - apply IH.
  - constructor; [intros _; reflexivity|apply IH].
  - constructor; [intros H; congruence|apply IH].
Qed.

Lemma chain_noDouble_skip (o : option char) (c : char) (t : jsstring) :
  is_space c = true -> chain noDouble o (c :: t) -> chain noDouble o t.
Proof.
  intros Hc [Hoc Ht]. destruct t as [|d t']; [exact I|].
  destruct Ht as [Hcd Ht']. split; [|exact Ht'].
  destruct o as [p|]; [|exact I]. intros _. apply Hcd; exact Hc.
Qed.

Lemma punctAhead_tight (c : char) (t : jsstring) :
  is_space c = false -> punctAhead is_punct (c :: t) = is_punct c.
Proof. intros Hc. cbn [punctAhead]. rewrite Hc. reflexivity. Qed.

Lemma tighten_chain (s : jsstring) :
  forall o after,
    chain noDouble o s ->
    (forall p, o = Some p -> is_punct p = true -> after = true) ->
    (forall p, o = Some p -> is_space p = true ->
               punctAhead is_punct s = false) ->
    chain apart o (tighten_go is_punct after s).
Proof.
  induction s as [|c t IH]; intros o after Hs Hpunct Hspace;
    cbn [tighten_go]; [exact I|].
  destruct (is_punct c) eqn:Hpc.
  - pose proof (punct_not_space c Hpc) as Hsc.
    cbn [chain]. split.
    + destruct o as [p|]; [|exact I]. split.
      * intros Hp. specialize (Hspace p eq_refl Hp).
        rewrite (punctAhead_tight c t Hsc) in Hspace. congruence.
      * intros Hc. congruence.
    + apply IH.
      * apply Hs.
      * intros; reflexivity.
      * intros p Hp Hsp. injection Hp as <-. congruence.
  - destruct (is_space c) eqn:Hsc.
    + destruct (after || punctAhead is_punct t) eqn:Hskip.
      * apply IH.
        -- exact (chain_noDouble_skip o c t Hsc Hs).
        -- exact Hpunct.
        -- intros p Hp Hsp. subst o. destruct Hs as [Hpc' _].
           specialize (Hpc' Hsp). congruence.
      * apply orb_false_elim in Hskip as [Hafter Hahead].
        cbn [chain]. split.
        -- destruct o as [p|]; [|exact I]. destruct Hs as [Hpc' _]. split.
           ++ intros Hp. specialize (Hpc' Hp). congruence.
           ++ intros _. split.
              ** destruct (is_space p) eqn:Hp; [|reflexivity].
                 specialize (Hpc' Hp). congruence.
              ** destruct (is_punct p) eqn:Hp; [|reflexivity].
                 specialize (Hpunct p eq_refl Hp). congruence.
        -- apply IH.
           ++ apply Hs.
           ++ intros p Hp Hpp. injection Hp as <-. congruence.
           ++ intros p Hp _. exact Hahead.
    + cbn [chain]. split.
      * destruct o as [p|]; [|exact I]. split.
        -- intros _. split; [exact Hsc|exact Hpc].
        -- intros Hc. congruence.
      * apply IH.
        -- apply Hs.
        -- intros p Hp Hpp. injection Hp as <-. congruence.
        -- intros p Hp Hsp. injection Hp as <-. congruence.
Qed.

Lemma tighten_plain (s : jsstring) :
  forall after, Forall plain s -> Forall plain (tighten_go is_punct after s).
Proof.
  induction s as [|c t IH]; intros after Hs; cbn [tighten_go]; [constructor|].
  inversion Hs as [|? ? Hc Ht]; subst.
  destruct (is_punct c); [|destruct (is_space c);
    [destruct (after || punctAhead is_punct t)|]];
    try (constructor; [exact Hc|]); apply IH; exact Ht.
Qed.

(** *** Relations the white-space steps keep *)

Section Kept.

Variable R : char -> char -> Prop.
Hypothesis R_space_l : forall a, R SPACE a.
Hypothesis R_space_r : forall a, R a SPACE.
Hypothesis R_punct :
  forall a b, is_punct a = true \/ is_punct b = true -> R a b.

Lemma collapse_keeps (s : jsstring) :
  forall o inRun,
    (if inRun : bool then o = Some SPACE /\ chain R None s else chain R o s) ->
    chain R o (collapseWhitespace_go inRun s).
Proof.
  induction s as [|c t IH]; intros o inRun H; cbn [collapseWhitespace_go];
    [exact I|].
  destruct (is_space c) eqn:Hc; destruct inRun.
  - destruct H as [-> H]. apply IH. split; [reflexivity|].
    exact (chain_weaken R t _ (proj2 H)).
  - cbn [chain]. split.
    + destruct o; [apply R_space_r|exact I].
    + apply IH. split; [reflexivity|].
      exact (chain_weaken R t _ (proj2 H)).
  - destruct H as [-> H]. cbn [chain]. split; [apply R_space_l|].
    apply (IH _ false). exact (proj2 H).
  - cbn [chain]. split; [exact (proj1 H)|].
    apply (IH _ false). exact (proj2 H).
Qed.

Lemma tighten_keeps (s : jsstring) :
  forall o after,
    chain R None s ->
    (forall p, o = Some p -> after = true -> is_punct p = true) ->
    (after = false -> punctAhead is_punct s = false -> chain R o s) ->
    chain R o (tighten_go is_punct after s).
Proof.
  induction s as [|c t IH]; intros o after Hs Hafter Ho; cbn [tighten_go];
    [exact I|].
  assert (Ht : chain R (Some c) t) by exact (proj2 Hs).
  destruct (is_punct c) eqn:Hpc.
  - cbn [chain]. split.
    + destruct o; [apply R_punct; right; exact Hpc|exact I].
    + apply IH.
      * exact (chain_weaken R t _ Ht).
      * intros p Hp _. injection Hp as <-. exact Hpc.
      * discriminate.
  - destruct (is_space c) eqn:Hsc.
    + destruct (after || punctAhead is_punct t) eqn:Hskip.
      * apply IH.
        -- exact (chain_weaken R t _ Ht).
        -- exact Hafter.
        -- intros Ha Hp. rewrite Ha, Hp in Hskip. discriminate.
      * apply orb_false_elim in Hskip as [Ha Hp].
        assert (Hcs : chain R o (c :: t)).
        { apply Ho; [exact Ha|]. cbn [punctAhead]. rewrite Hsc. exact Hp. }
        cbn [chain]. split; [exact (proj1 Hcs)|].
        apply IH.
        -- exact (chain_weaken R t _ Ht).
        -- discriminate.
        -- intros _ _. exact Ht.
    + cbn [chain]. split.
      * destruct o as [p|]; [|exact I].
        destruct after eqn:Ha.
        -- apply R_punct. left. apply Hafter; reflexivity.
        -- assert (Hcs : chain R (Some p) (c :: t)).
           { apply Ho; [reflexivity|]. cbn [punctAhead]. rewrite Hsc.
             exact Hpc. }
           exact (proj1 Hcs).
      * apply IH.
        -- exact (chain_weaken R t _ Ht).
        -- discriminate.
        -- intros _ _. exact Ht.
Qed.

End Kept.

(** *** The steps leave a text in normal form as it is *)

Lemma collapse_fixed (s : jsstring) :
  forall inRun,
    chain noDouble None s -> Forall plain s ->
    (inRun = true -> tightStart s) ->
    collapseWhitespace_go inRun s = s.
Proof.
  induction s as [|c t IH]; intros inRun Hs Hp Hrun;
    cbn [collapseWhitespace_go]; [reflexivity|].
  inversion Hp as [|? ? Hc Ht]; subst.
  destruct Hs as [_ Hct].
  destruct (is_space c) eqn:Hsc.
  - destruct inRun.
    + specialize (Hrun eq_refl). simpl in Hrun. congruence.
    + rewrite <- (Hc Hsc). f_equal.
      apply IH; [exact (chain_weaken _ t _ Hct)|exact Ht|].
      intros _. destruct t as [|d t']; [exact I|].
      simpl. apply (proj1 Hct). exact Hsc.
  - f_equal. apply IH; [exact (chain_weaken _ t _ Hct)|exact Ht|discriminate].
Qed.

Lemma tighten_fixed (s : jsstring) :
  forall after,
    chain apart None s ->
    (after = true -> tightStart s) ->
    tighten_go is_punct after s = s.
Proof.
  induction s as [|c t IH]; intros after Hs Hafter; cbn [tighten_go];
    [reflexivity|].
  destruct Hs as [_ Hct].
  pose proof (chain_weaken _ t _ Hct) as Ht.
  destruct (is_punct c) eqn:Hpc.
  - f_equal. apply IH; [exact Ht|]. intros _.
    destruct t as [|d t']; [exact I|]. simpl.
    destruct (is_space d) eqn:Hd; [|reflexivity].
    destruct (proj2 (proj1 Hct) Hd). congruence.
  - destruct (is_space c) eqn:Hsc.
    + assert (Hahead : punctAhead is_punct t = false).
      { destruct t as [|d t']; [reflexivity|].
        destruct (proj1 (proj1 Hct) Hsc) as [Hd1 Hd2].
        cbn [punctAhead]. rewrite Hd1. exact Hd2. }
      destruct after.
      * specialize (Hafter eq_refl). simpl in Hafter. congruence.
      * rewrite Hahead. cbn [orb]. f_equal. apply IH; [exact Ht|discriminate].
    + f_equal. apply IH; [exact Ht|discriminate].
Qed.

Lemma trim_chain (R : char -> char -> Prop) (s : jsstring) :
  chain R None s -> chain R None (trim s).
Proof.
  intros H. unfold trim.
  destruct (trimStart_suffix s) as [a Ha].
  destruct (trimEnd_prefix (trimStart s)) as [b Hb].
  rewrite Ha in H. apply chain_app_r in H.
  rewrite Hb in H. apply chain_app_l in H. exact H.
Qed.

(** The normal form: white space is single spaces, none of them next to
    a character of the class, none at either end. *)
Definition normal (s : jsstring) : Prop :=
  chain apart None s /\ Forall plain s /\ trim s = s.

Lemma normal_tight (s : jsstring) : normal s -> tightStart s.
Proof.
  intros (_ & _ & H). rewrite <- H. unfold trim.
  apply trimEnd_tight, trimStart_tight.
Qed.

(** The white-space steps change nothing in a text in normal form. *)
Lemma whitespace_steps_fixed (s : jsstring) :
  normal s ->
  tighten is_punct (collapseWhitespace s) = s.
Proof.
  intros (Hc & Hp & _). unfold tighten, collapseWhitespace.
  rewrite collapse_fixed.
  - apply tighten_fixed; [exact Hc|discriminate].
  - exact (chain_impl _ _ apart_noDouble s None Hc).
  - exact Hp.
  - discriminate.
Qed.

(** What the white-space steps make of any text, once trimmed, is in
    normal form, whatever deletions that keep [apart] and [plain] come
    in between. *)
Lemma tighten_collapse_apart (s : jsstring) :
  chain apart None (tighten is_punct (collapseWhitespace s))
  /\ Forall plain (tighten is_punct (collapseWhitespace s)).
Proof.
  unfold tighten, collapseWhitespace. split.
  - apply tighten_chain; try discriminate.
    apply collapse_chain. discriminate.
  - apply tighten_plain, collapse_plain.
Qed.

End WhitespaceNormalForm.

(** ** Style sheet minification, applied twice *)

Section StyleSheetTwice.

Import OptimizeCss.

Lemma css_punct_not_space (c : char) :
  is_punct c = true -> is_space c = false.
Proof.
  unfold is_punct. rewrite !orb_true_iff, !N.eqb_eq.
  intuition (subst c; reflexivity).
Qed.

Lemma brace_is_punct (c : char) : is_brace c = true -> is_punct c = true.
Proof.
  unfold is_brace, is_punct. rewrite !orb_true_iff. tauto.
Qed.

(** A character that follows a character of the class can follow any
    character that is no white space. *)
Lemma chain_after_punct (x : char) (l : jsstring) (o : option char) :
  is_punct x = true ->
  (forall p, o = Some p -> is_space p = false) ->
  chain (apart is_punct) (Some x) l -> chain (apart is_punct) o l.
Proof.
  intros Hx Ho H. destruct l as [|h r]; [exact I|].
  destruct H as [Hxh Hr]. split; [|exact Hr].
  destruct o as [p|]; [|exact I].
  assert (Hh : is_space h = false).
  { destruct (is_space h) eqn:Hh; [|reflexivity].
    destruct (proj2 Hxh Hh). congruence. }
  specialize (Ho p eq_refl).
  split; intros H'; congruence.
Qed.

Lemma dropSemicolons_chain (s : jsstring) :
  forall o, chain (apart is_punct) o s -> chain (apart is_punct) o (dropTrailingSemicolons s).
Proof.
  induction s as [|c t IH]; intros o H; [exact I|].
  cbn [dropTrailingSemicolons]. destruct t as [|d t']; [exact H|].
  destruct ((c =? SEMI) && (d =? RBRACE)) eqn:E.
  - apply IH. apply andb_prop in E as [Ec Ed].
    apply N.eqb_eq in Ec. apply N.eqb_eq in Ed. subst c d.
    destruct H as [Hoc Hcd].
    apply (chain_after_punct SEMI); [reflexivity| |exact Hcd].
    intros p -> . destruct (is_space p) eqn:Hp; [|reflexivity].
    destruct (proj1 Hoc Hp). discriminate.
  - split; [exact (proj1 H)|]. apply IH. exact (proj2 H).
Qed.

Lemma dropSemicolons_Forall (P : char -> Prop) (s : jsstring) :
  Forall P s -> Forall P (dropTrailingSemicolons s).
Proof.
  induction s as [|c t IH]; intros H; [constructor|].
  cbn [dropTrailingSemicolons]. destruct t as [|d t']; [exact H|].
  inversion H as [|? ? Hc Ht]; subst.
  destruct ((c =? SEMI) && (d =? RBRACE)); [apply IH; exact Ht|].
  constructor; [exact Hc|apply IH; exact Ht].
Qed.

Lemma emptyRuleAhead_skip (c : char) (t : jsstring) :
  is_brace c = false -> emptyRuleAhead (c :: t) = emptyRuleAhead t.
Proof.
  unfold is_brace. intros H. apply orb_false_elim in H as [H1 H2].
  cbn [emptyRuleAhead]. rewrite H1, H2. reflexivity.
Qed.

Lemma dropEmptyRules_chain (s : jsstring) :
  (forall o,
     chain (apart is_punct) o s ->
     (forall p, o = Some p -> is_brace p = false -> emptyRuleAhead s = false) ->
     chain (apart is_punct) o (dropEmptyRules_go Scan s))
  /\ (forall o m,
        m <> Scan ->
        (forall p, o = Some p -> is_space p = false) ->
        chain (apart is_punct) None s ->
        chain (apart is_punct) o (dropEmptyRules_go m s)).
Proof.
  induction s as [|c t [IHscan IHdel]]; [split; intros; exact I|].
  split.
  - intros o H Hahead. cbn [dropEmptyRules_go].
    destruct (is_brace c) eqn:Hb.
    + split; [exact (proj1 H)|].
      apply IHscan; [exact (proj2 H)|].
      intros p Hp Hpb. injection Hp as <-. congruence.
    + destruct (emptyRuleAhead (c :: t)) eqn:He.
      * apply IHdel; [discriminate| |exact (chain_weaken _ t _ (proj2 H))].
        intros p Hp. destruct (is_brace p) eqn:Hpb.
        -- apply css_punct_not_space, brace_is_punct; exact Hpb.
        -- specialize (Hahead p Hp Hpb). congruence.
      * split; [exact (proj1 H)|].
        apply IHscan; [exact (proj2 H)|].
        intros p Hp _. injection Hp as <-.
        rewrite <- (emptyRuleAhead_skip c t Hb). exact He.
  - intros o m Hm Ho H. cbn [dropEmptyRules_go].
    pose proof (chain_weaken _ t _ (proj2 H)) as Ht.
    destruct m; [congruence| |].
    + destruct (c =? LBRACE); apply IHdel; try discriminate; assumption.
    + destruct (c =? RBRACE) eqn:Hc.
      * apply N.eqb_eq in Hc. subst c.
        apply (chain_after_punct RBRACE); [reflexivity|exact Ho|].
        apply IHscan; [exact (proj2 H)|].
        intros p Hp Hpb. injection Hp as <-. discriminate.
      * apply IHdel; try discriminate; assumption.
Qed.

Lemma dropEmptyRules_Forall (P : char -> Prop) (s : jsstring) :
  forall m, Forall P s -> Forall P (dropEmptyRules_go m s).
Proof.
  induction s as [|c t IH]; intros m H; [constructor|].
  inversion H as [|? ? Hc Ht]; subst.
  cbn [dropEmptyRules_go].
  destruct m;
    [destruct (is_brace c); [|destruct (emptyRuleAhead (c :: t))]
    |destruct (c =? LBRACE)|destruct (c =? RBRACE)];
    try (constructor; [exact Hc|]); apply IH; exact Ht.
Qed.

(** What [minifyCSS] returns is in normal form. *)
Lemma minifyCSS_normal (s : jsstring) : normal is_punct (minifyCSS s).
Proof.
  unfold minifyCSS, dropEmptyRules.
  destruct (tighten_collapse_apart is_punct css_punct_not_space
              (stripBlockComments s)) as [Hc Hp].
  apply dropSemicolons_chain in Hc.
  apply (dropSemicolons_Forall (plain)) in Hp.
  apply (proj1 (dropEmptyRules_chain _)) in Hc; [|discriminate].
  apply (dropEmptyRules_Forall plain _ Scan) in Hp.
  split; [|split].
  - apply trim_chain. exact Hc.
  - apply trim_Forall. exact Hp.
  - apply trim_fixed.
Qed.

Lemma dropSemicolons_fixed (s : jsstring) :
  includes s [SEMI; RBRACE] = false -> dropTrailingSemicolons s = s.
Proof.
  induction s as [|c t IH]; intros H; [reflexivity|].
  apply includes_tail in H as [Hhere Ht].
  cbn [dropTrailingSemicolons]. destruct t as [|d t']; [reflexivity|].
  rewrite startsWith_pair in Hhere. rewrite Hhere.
  f_equal. apply IH. exact Ht.
Qed.

Lemma emptyRuleAhead_none (s : jsstring) :
  chain (apart is_punct) None s ->
  includes s [LBRACE; RBRACE] = false ->
  emptyRuleAhead s = false.
Proof.
  induction s as [|c t IH]; intros Hc H; [reflexivity|].
  apply includes_tail in H as [Hhere Ht].
  cbn [emptyRuleAhead].
  destruct (c =? LBRACE) eqn:Hl.
  - destruct t as [|d t']; [reflexivity|].
    rewrite startsWith_pair, Hl in Hhere. cbn [andb] in Hhere.
    cbn [closesEmpty]. rewrite Hhere.
    destruct (is_space d) eqn:Hd; [|reflexivity].
    apply N.eqb_eq in Hl. subst c.
    destruct (proj2 (proj1 (proj2 Hc)) Hd). discriminate.
  - destruct (c =? RBRACE); [reflexivity|].
    apply IH; [exact (chain_weaken _ t _ (proj2 Hc))|exact Ht].
Qed.

Lemma dropEmptyRules_fixed (s : jsstring) :
  chain (apart is_punct) None s ->
  includes s [LBRACE; RBRACE] = false ->
  dropEmptyRules s = s.
Proof.
  unfold dropEmptyRules.
  induction s as [|c t IH]; intros Hc H; [reflexivity|].
  cbn [dropEmptyRules_go].
  rewrite (emptyRuleAhead_none (c :: t) Hc H).
  apply includes_tail in H as [_ Ht].
  pose proof (chain_weaken _ t _ (proj2 Hc)) as Hct.
  destruct (is_brace c); f_equal; apply IH; assumption.
Qed.

(** A text in normal form with no comment opener, no semicolon before
    a closing brace and no empty pair of braces is left as it is. *)
Lemma minifyCSS_fixed (t : jsstring) :
  normal is_punct t ->
  includes t [SLASH; STAR] = false ->
  includes t [SEMI; RBRACE] = false ->
  includes t [LBRACE; RBRACE] = false ->
  minifyCSS t = t.
Proof.
  intros Hn Hc Hs He. unfold minifyCSS.
  rewrite (stripBlockComments_fixed t Hc).
  rewrite (whitespace_steps_fixed is_punct t Hn).
  rewrite (dropSemicolons_fixed t Hs).
  rewrite (dropEmptyRules_fixed t (proj1 Hn) He).
  exact (proj2 (proj2 Hn)).
Qed.

End StyleSheetTwice.

(** ** Script minification, applied twice *)

Section ScriptTwice.

Import Build.

Lemma js_punct_not_space (c : char) :
  is_punct c = true -> is_space c = false.
Proof.
  unfold is_punct. rewrite !orb_true_iff, !N.eqb_eq.
  intuition (subst c; reflexivity).
Qed.

(** No two slashes side by side. *)
Definition noSlashes (a b : char) : Prop := ~ (a = SLASH /\ b = SLASH).

Lemma stripLineComments_chain (s : jsstring) :
  forall o inside,
    (inside = false ->
     forall p, o = Some p -> p = SLASH -> startsWith s [SLASH] = false) ->
    chain noSlashes o (stripLineComments_go inside s).
Proof.
  induction s as [|c t IH]; intros o inside Ho; [exact I|].
  cbn [stripLineComments_go]. destruct inside.
  - destruct (is_line_terminator c) eqn:Hlt.
    + split.
      * destruct o; [|exact I]. intros [_ Hc]. subst c.
        vm_compute in Hlt. discriminate Hlt.
      * apply IH. intros _ p Hp Hs. injection Hp as Hp. subst p c.
        vm_compute in Hlt. discriminate Hlt.
    + apply IH. discriminate.
  - assert (Hoc : match o with Some p => noSlashes p c | None => True end).
    { destruct o as [p|]; [|exact I]. intros [Hp Hc]. subst p c.
      specialize (Ho eq_refl SLASH eq_refl eq_refl).
      vm_compute in Ho. discriminate Ho. }
    destruct t as [|d t']; [split; [exact Hoc|exact I]|].
    destruct ((c =? SLASH) && (d =? SLASH)) eqn:E.
    + apply IH. discriminate.
    + split; [exact Hoc|].
      apply IH. intros _ p Hp Hs. injection Hp as Hp. subst p c.
      cbn [startsWith]. rewrite (N.eqb_sym SLASH d), andb_true_r.
      rewrite N.eqb_refl in E. exact E.
Qed.

Lemma stripLineComments_fixed (s : jsstring) :
  chain noSlashes None s -> stripLineComments s = s.
Proof.
  unfold stripLineComments.
  induction s as [|c t IH]; intros H; [reflexivity|].
  cbn [stripLineComments_go]. destruct t as [|d t']; [reflexivity|].
  destruct ((c =? SLASH) && (d =? SLASH)) eqn:E.
  - apply andb_prop in E as [Ec Ed].
    apply N.eqb_eq in Ec. apply N.eqb_eq in Ed.
    destruct (proj1 (proj2 H)). split; assumption.
  - f_equal. apply IH.
    exact (chain_weaken noSlashes (d :: t') (Some c) (proj2 H)).
Qed.

(** What [minifyJS] returns is in normal form and has no two slashes
    side by side. *)
Lemma minifyJS_normal (s : jsstring) :
  normal is_punct (minifyJS s) /\ chain noSlashes None (minifyJS s).
Proof.
  unfold minifyJS.
  destruct (tighten_collapse_apart is_punct js_punct_not_space
              (stripLineComments (stripBlockComments s))) as [Hc Hp].
  split; [split; [|split]|].
  - apply trim_chain. exact Hc.
  - apply trim_Forall. exact Hp.
  - apply trim_fixed.
  - apply trim_chain. unfold tighten, collapseWhitespace.
    assert (Hcol : chain noSlashes None
                     (collapseWhitespace_go false
                        (stripLineComments (stripBlockComments s)))).
    { apply collapse_keeps.
      - intros a [H _]; discriminate.
      - intros a [_ H]; discriminate.
      - apply stripLineComments_chain. discriminate. }
    apply tighten_keeps.
    + intros a b [H|H] [Ha Hb]; subst a b; discriminate.
    + exact Hcol.
    + discriminate.
    + intros _ _. exact Hcol.
Qed.

Lemma minifyJS_fixed (t : jsstring) :
  normal is_punct t ->
  chain noSlashes None t ->
  includes t [SLASH; STAR] = false ->
  minifyJS t = t.
Proof.
  intros Hn Hs Hc. unfold minifyJS.
  rewrite (stripBlockComments_fixed t Hc).
  rewrite (stripLineComments_fixed t Hs).
  rewrite (whitespace_steps_fixed is_punct t Hn).
  exact (proj2 (proj2 Hn)).
Qed.

End ScriptTwice.

(** ** Idempotence of the minifiers *)

Section Idempotence.

(** A declaration block closed after two semicolons. *)
Definition doubleSemicolon : jsstring := lit "a{b:c;;}".

(** A slash, a block comment and the rest of a comment. *)
Definition splicedComment : jsstring := lit "//* x */* y */".

(** C3, as stated, fails for both minifiers.  One pass over
    [doubleSemicolon] drops one of the two semicolons and the next pass
    drops the other; one pass over [splicedComment] removes the comment
    in the middle, and what is left closes up into a comment that the
    next pass removes. *)
Lemma minification_not_idempotent :
  OptimizeCss.minifyCSS (OptimizeCss.minifyCSS doubleSemicolon)
    <> OptimizeCss.minifyCSS doubleSemicolon
  /\ Build.minifyJS (Build.minifyJS splicedComment)
       <> Build.minifyJS splicedComment.
Proof. split; vm_compute; discriminate. Qed.

(** C3, amended.  A second pass of the style sheet minification changes
    nothing when the output of the first contains no comment opener, no
    semicolon right before a closing brace and no empty pair of braces;
    a second pass of the script minification changes nothing when the
    output of the first contains no comment opener. *)
Theorem minification_idempotent_once_settled :
  (forall s,
     includes (OptimizeCss.minifyCSS s) [SLASH; STAR] = false ->
     includes (OptimizeCss.minifyCSS s) [SEMI; RBRACE] = false ->
     includes (OptimizeCss.minifyCSS s) [LBRACE; RBRACE] = false ->
     OptimizeCss.minifyCSS (OptimizeCss.minifyCSS s) = OptimizeCss.minifyCSS s)
  /\ (forall s,
        includes (Build.minifyJS s) [SLASH; STAR] = false ->
        Build.minifyJS (Build.minifyJS s) = Build.minifyJS s).
Proof.
  split.
  - intros s Hc Hs He.
    exact (minifyCSS_fixed _ (minifyCSS_normal s) Hc Hs He).
  - intros s Hc. destruct (minifyJS_normal s) as [Hn Hs].
    exact (minifyJS_fixed _ Hn Hs Hc).
Qed.

Definition spacedRule : jsstring :=
  lit "/* note */ .a , .b > p { color : red ; }  .c { }".

Definition spacedScript : jsstring :=
  lit "/* note */ function f ( a , b ) { return a ; } // done".

Lemma minification_idempotent_once_settled_witness :
  OptimizeCss.minifyCSS (OptimizeCss.minifyCSS spacedRule)
    = OptimizeCss.minifyCSS spacedRule
  /\ Build.minifyJS (Build.minifyJS spacedScript) = Build.minifyJS spacedScript.
Proof.
  split.
  - apply (proj1 minification_idempotent_once_settled spacedRule);
      vm_compute; reflexivity.
  - apply (proj2 minification_idempotent_once_settled spacedScript);
      vm_compute; reflexivity.
Defined.

End Idempotence.

(** ** Purge soundness *)

Section Purge.

Import OptimizeCss.

Lemma splitWhitespace_pieces (s : jsstring) :
  forall inRun,
    Forall (Forall (fun c => is_space c = false))
           (splitWhitespace_go inRun s).
Proof.
  induction s as [|c t IH]; intros inRun; cbn [splitWhitespace_go].
  - repeat constructor.
  - destruct (is_space c) eqn:Hc.
    + destruct inRun; [apply IH|]. constructor; [constructor|apply IH].
    + specialize (IH false).
      destruct (splitWhitespace_go false t) as [|h r].
      * repeat constructor. exact Hc.
      * inversion IH as [|? ? Hh Hr]; subst.
        constructor; [constructor; [exact Hc|exact Hh]|exact Hr].
Qed.

(** A class name the purge collects has no white space in it. *)
Lemma usedClasses_tight (html cls : jsstring) :
  In cls (usedClasses html) -> Forall (fun c => is_space c = false) cls.
Proof.
  unfold usedClasses. intros H.
  apply in_flat_map in H as (value & _ & H).
  pose proof (splitWhitespace_pieces value false) as Hall.
  rewrite Forall_forall in Hall. exact (Hall cls H).
Qed.

Lemma join_includes (sep x : jsstring) (parts : list jsstring) :
  In x parts -> exists a b, join sep parts = a ++ x ++ b.
Proof.
  induction parts as [|p rest IH]; intros H; [destruct H|].
  cbn [join]. destruct H as [->|H].
  - destruct rest as [|q rest'].
    + exists [], []. rewrite app_nil_r. reflexivity.
    + exists [], (sep ++ join sep (q :: rest')). reflexivity.
  - destruct rest as [|q rest']; [destruct H|].
    destruct (IH H) as (a & b & Hab).
    exists (p ++ sep ++ a), b. rewrite Hab, <- !app_assoc. reflexivity.
Qed.

Lemma includes_nonEmpty (s p : jsstring) :
  p <> [] -> includes s p = true -> nonEmpty s = true.
Proof.
  intros Hp H. destruct s as [|c t]; [|reflexivity].
  destruct p as [|x p']; [congruence|]. discriminate.
Qed.

(** A rule whose selector names a collected class passes the test of
    the purge loop. *)
Lemma keepsRule_used_class (classes ids : list jsstring) (rule cls : jsstring) :
  In cls classes ->
  Forall (fun c => is_space c = false) cls ->
  includes (selectorOf rule) (DOT :: cls) = true ->
  keepsRule classes ids rule = true.
Proof.
  intros Hin Htight Hsel. unfold keepsRule, shouldKeep.
  rewrite (includes_nonEmpty _ (DOT :: cls)) by (discriminate || exact Hsel).
  cbn [andb].
  assert (Hkeep : existsb (fun cls0 => includes (trim (selectorOf rule))
                                          (DOT :: cls0)) classes = true).
  { apply existsb_exists. exists cls. split; [exact Hin|].
    apply includes_spec in Hsel as (a & b & Hsel).
    rewrite Hsel. apply includes_spec. apply trim_keeps.
    - discriminate.
    - reflexivity.
    - simpl rev. destruct (rev cls) as [|y q] eqn:Hrev; [reflexivity|].
      simpl. apply Forall_rev in Htight. rewrite Hrev in Htight.
      inversion Htight; assumption. }
  rewrite Hkeep. rewrite !orb_true_r. reflexivity.
Qed.

(** *** The first class attribute of the markup *)

Definition classKey : jsstring := lit "class=".

(** Before the first text of the form [class=] and a quote, the scan
    finds no match. *)
Lemma attrValues_seek_past (pre rest : jsstring) :
  includes pre (classKey ++ [DQUOTE]) = false ->
  includes pre (classKey ++ [SQUOTE]) = false ->
  attrValues_go classKey Seek (pre ++ classKey ++ rest)
  = attrValues_go classKey Seek (classKey ++ rest).
Proof.
  induction pre as [|c p IH]; intros Hd Hs; [reflexivity|].
  apply includes_tail in Hd as [Hd Hpd].
  apply includes_tail in Hs as [Hs Hps].
  cbn [app attrValues_go].
  assert (Hno : startsWith (c :: p ++ classKey ++ rest) classKey
                && quotedAhead (skipn (List.length classKey)
                                      (c :: p ++ classKey ++ rest)) = false).
  { destruct p as [|b2 [|b3 [|b4 [|b5 [|b6 [|b7 p']]]]]];
      try (cbn; rewrite ?andb_false_r; reflexivity).
    rewrite startsWith_app in Hd, Hs.
    change (startsWith _ classKey)
      with (startsWith ((c :: b2 :: b3 :: b4 :: b5 :: b6 :: b7 :: p')
                          ++ classKey ++ rest) classKey).
    rewrite startsWith_longer by (cbn; lia).
    destruct (startsWith (c :: b2 :: b3 :: b4 :: b5 :: b6 :: b7 :: p')
                classKey); [|reflexivity].
    change (List.length classKey) with 6%nat in *.
    cbn [app skipn quotedAhead startsWith andb] in *.
    rewrite andb_true_r, N.eqb_sym in Hd, Hs.
    unfold is_quote. rewrite Hd, Hs. reflexivity. }
  rewrite Hno. apply IH; assumption.
Qed.

Lemma untilQuote_value (value : jsstring) (q : char) (post : jsstring) :
  Forall (fun c => is_quote c = false) value ->
  is_quote q = true ->
  untilQuote (value ++ q :: post) = value.
Proof.
  intros Hv Hq. induction Hv as [|c v Hc Hv IH]; cbn [app untilQuote].
  - rewrite Hq. reflexivity.
  - rewrite Hc, IH. reflexivity.
Qed.

(** The pieces of the value of the first double-quoted class attribute
    of the markup are collected. *)
Lemma first_class_attribute_collected (pre value post cls : jsstring) :
  includes pre (classKey ++ [DQUOTE]) = false ->
  includes pre (classKey ++ [SQUOTE]) = false ->
  value <> [] ->
  Forall (fun c => is_quote c = false) value ->
  In cls (splitWhitespace value) ->
  In cls (usedClasses
            (pre ++ classKey ++ [DQUOTE] ++ value ++ [DQUOTE] ++ post)).
Proof.
  intros Hd Hs Hne Hv Hcls. unfold usedClasses, attrValues.
  apply in_flat_map. exists value. split; [|exact Hcls].
  fold classKey. rewrite (attrValues_seek_past pre _ Hd Hs).
  destruct value as [|v0 value']; [congruence|].
  inversion Hv as [|? ? Hv0 Hv']; subst.
  change (classKey ++ [DQUOTE] ++ (v0 :: value') ++ [DQUOTE] ++ post)
    with (99 :: lit "lass=" ++ DQUOTE :: v0 :: value' ++ DQUOTE :: post).
  cbn [attrValues_go].
  change (startsWith _ classKey) with true.
  change (skipn (List.length classKey) _)
    with (DQUOTE :: v0 :: value' ++ DQUOTE :: post).
  change (skipn (S (List.length classKey)) _)
    with ((v0 :: value') ++ DQUOTE :: post).
  cbn [quotedAhead valueAhead andb].
  change (is_quote DQUOTE) with true. rewrite Hv0. cbn [negb andb].
  assert (Hq : existsb is_quote (value' ++ DQUOTE :: post) = true).
  { rewrite existsb_app. cbn [existsb].
    change (is_quote DQUOTE) with true. rewrite orb_true_r. reflexivity. }
  rewrite Hq. left.
  apply untilQuote_value; [exact Hv|reflexivity].
Qed.

(** The markup of the counterexample: the text of a code element shows
    an unclosed class attribute, and a division carries the class. *)
Definition markupWithSample : jsstring :=
  lit "<code>class=" ++ [DQUOTE] ++ lit "</code><div class=" ++ [DQUOTE]
  ++ lit "used" ++ [DQUOTE] ++ lit "></div>".

(** Purge soundness in the words of the claim: a rule whose selector
    holds a class name that is a piece of the value of some
    double-quoted class attribute in the markup is in the output. *)
Definition purgeSoundAsStated : Prop :=
  forall css html rule cls value : jsstring,
    In rule (rulesOf css) ->
    includes (selectorOf rule) (DOT :: cls) = true ->
    includes html (lit "class=" ++ [DQUOTE] ++ value ++ [DQUOTE]) = true ->
    In cls (splitWhitespace value) ->
    includes (purgeUnusedCSS css html) (rule ++ [RBRACE]) = true.

(** C4, as stated, fails: in [markupWithSample] the scan for class
    attributes takes the quote that opens the attribute of the division
    for the one that closes the sample in the code element, never sees
    the value [used], and the rule of that class is dropped. *)
Lemma purge_drops_used_rule : ~ purgeSoundAsStated.
Proof.
  intros H.
  specialize (H (lit ".used{color:red}") markupWithSample
                (lit ".used{color:red") (lit "used") (lit "used")).
  assert (Hout : includes (purgeUnusedCSS (lit ".used{color:red}")
                             markupWithSample)
                          (lit ".used{color:red" ++ [RBRACE]) = false)
    by (vm_compute; reflexivity).
  rewrite H in Hout; [discriminate| | | |].
  - vm_compute. left. reflexivity.
  - vm_compute. reflexivity.
  - vm_compute. reflexivity.
  - vm_compute. left. reflexivity.
Qed.

Lemma kept_rule_in_output (css html rule : jsstring) :
  In rule (rulesOf css) ->
  keepsRule (usedClasses html) (usedIds html) rule = true ->
  includes (purgeUnusedCSS css html) (rule ++ [RBRACE]) = true.
Proof.
  intros Hrule Hkeep. unfold purgeUnusedCSS.
  apply includes_spec. apply join_includes.
  apply (in_map (fun r => r ++ [RBRACE])).
  apply filter_In. split; assumption.
Qed.

(** A rule whose selector holds a dot and a class that the purge has
    collected is in the purged output. *)
Lemma kept_when_collected (css html rule cls : jsstring) :
  In rule (rulesOf css) ->
  includes (selectorOf rule) (DOT :: cls) = true ->
  In cls (usedClasses html) ->
  includes (purgeUnusedCSS css html) (rule ++ [RBRACE]) = true.
Proof.
  intros Hrule Hsel Hcls.
  apply kept_rule_in_output; [exact Hrule|].
  apply (keepsRule_used_class _ _ rule cls Hcls);
    [exact (usedClasses_tight html cls Hcls)|exact Hsel].
Qed.

(** *** Markup read as texts and class attributes *)

(** A class attribute of the markup with the text that precedes it:
    [lead], then [class=], a quote, the value and a quote. *)
Record attribute := {
  lead : jsstring;
  opening : char;
  classes : jsstring;
  closing : char
}.

(** The markup made of the attributes, each after its text, and of the
    text after the last of them. *)
Fixpoint markupOf (attrs : list attribute) (rest : jsstring) : jsstring :=
  match attrs with
  | [] => rest
  | a :: more =>
      lead a ++ classKey ++ [opening a] ++ classes a ++ [closing a]
      ++ markupOf more rest
  end.

(** A text in which [class=] is nowhere followed by a quote. *)
Definition plainText (t : jsstring) : bool :=
  negb (includes t (classKey ++ [DQUOTE]))
  && negb (includes t (classKey ++ [SQUOTE])).

(** The text before the attribute is plain, the value is quoted, not
    empty and holds no quote. *)
Definition wellQuoted (a : attribute) : bool :=
  plainText (lead a)
  && is_quote (opening a) && is_quote (closing a)
  && nonEmpty (classes a)
  && forallb (fun c => negb (is_quote c)) (classes a).

Lemma attrValues_value_run (key value rest : jsstring) (q : char) :
  Forall (fun c => is_quote c = false) value ->
  is_quote q = true ->
  attrValues_go key Value (value ++ q :: rest) = attrValues_go key Seek rest.
Proof.
  intros Hv Hq. induction Hv as [|c v Hc _ IH]; cbn [app attrValues_go].
  - rewrite Hq. reflexivity.
  - rewrite Hc. exact IH.
Qed.

(** At a class attribute the scan captures the value and goes on after
    the closing quote. *)
Lemma attrValues_at_attribute (q1 q2 : char) (value rest : jsstring) :
  is_quote q1 = true ->
  is_quote q2 = true ->
  value <> [] ->
  Forall (fun c => is_quote c = false) value ->
  attrValues_go classKey Seek (classKey ++ [q1] ++ value ++ [q2] ++ rest)
  = value :: attrValues_go classKey Seek rest.
Proof.
  intros Hq1 Hq2 Hne Hv.
  destruct value as [|v0 value']; [congruence|].
  inversion Hv as [|? ? Hv0 Hv']; subst.
  set (run := (v0 :: value') ++ q2 :: rest).
  change (classKey ++ [q1] ++ (v0 :: value') ++ [q2] ++ rest)
    with (99 :: 108 :: 97 :: 115 :: 115 :: 61 :: q1 :: run).
  cbn [attrValues_go].
  change (startsWith (99 :: 108 :: 97 :: 115 :: 115 :: 61 :: q1 :: run)
            classKey) with true.
  change (skipn (List.length classKey)
            (99 :: 108 :: 97 :: 115 :: 115 :: 61 :: q1 :: run))
    with (q1 :: run).
  change (skipn (S (List.length classKey))
            (99 :: 108 :: 97 :: 115 :: 115 :: 61 :: q1 :: run))
    with run.
  change (List.length classKey) with 6%nat.
  assert (Hahead : quotedAhead (q1 :: run) = true).
  { subst run. cbn [app quotedAhead valueAhead]. rewrite Hq1, Hv0.
    cbn [negb andb]. rewrite existsb_app. cbn [existsb].
    rewrite Hq2. rewrite orb_true_r. reflexivity. }
  rewrite Hahead. cbn [andb]. f_equal.
  - subst run. apply untilQuote_value; [exact Hv|exact Hq2].
  - subst run. apply attrValues_value_run; [exact Hv|exact Hq2].
Qed.

(** In a plain text the scan finds nothing. *)
Lemma attrValues_plain (t : jsstring) :
  includes t (classKey ++ [DQUOTE]) = false ->
  includes t (classKey ++ [SQUOTE]) = false ->
  attrValues_go classKey Seek t = [].
Proof.
  induction t as [|c t IH]; intros Hd Hs; [reflexivity|].
  cbn [includes] in Hd, Hs.
  apply orb_false_elim in Hd as [Hd Hdt].
  apply orb_false_elim in Hs as [Hs Hst].
  cbn [attrValues_go].
  assert (Hno : startsWith (c :: t) classKey
                && quotedAhead (skipn (List.length classKey) (c :: t))
                = false).
  { destruct (startsWith (c :: t) classKey) eqn:Hkey; [|reflexivity].
    apply startsWith_spec in Hkey as [r Hr]. rewrite Hr in *.
    change (skipn (List.length classKey) (classKey ++ r)) with r.
    cbn [andb]. destruct r as [|q v]; [reflexivity|].
    cbn [quotedAhead]. destruct (is_quote q) eqn:Hq; [|reflexivity].
    exfalso. unfold is_quote in Hq. apply orb_true_iff in Hq as [Hq|Hq];
      apply N.eqb_eq in Hq; subst q.
    - change (classKey ++ DQUOTE :: v) with ((classKey ++ [DQUOTE]) ++ v)
        in Hd.
      assert (startsWith ((classKey ++ [DQUOTE]) ++ v) (classKey ++ [DQUOTE])
              = true) by (apply startsWith_spec; exists v; reflexivity).
      congruence.
    - change (classKey ++ SQUOTE :: v) with ((classKey ++ [SQUOTE]) ++ v)
        in Hs.
      assert (startsWith ((classKey ++ [SQUOTE]) ++ v) (classKey ++ [SQUOTE])
              = true) by (apply startsWith_spec; exists v; reflexivity).
      congruence. }
  rewrite Hno. exact (IH Hdt Hst).
Qed.

(** The scan of such a markup captures the values of its attributes,
    all of them and in their order. *)
Lemma attrValues_markupOf (attrs : list attribute) (rest : jsstring) :
  forallb wellQuoted attrs = true ->
  plainText rest = true ->
  attrValues classKey (markupOf attrs rest) = map classes attrs.
Proof.
  intros Hattrs Hrest. unfold attrValues.
  induction attrs as [|a more IH]; cbn [markupOf map].
  - unfold plainText in Hrest. apply andb_true_iff in Hrest as [Hd Hs].
    apply negb_true_iff in Hd, Hs. exact (attrValues_plain rest Hd Hs).
  - cbn [forallb] in Hattrs. apply andb_true_iff in Hattrs as [Ha Hmore].
    unfold wellQuoted in Ha.
    apply andb_true_iff in Ha as [Ha Hv].
    apply andb_true_iff in Ha as [Ha Hne].
    apply andb_true_iff in Ha as [Ha Hq2].
    apply andb_true_iff in Ha as [Hlead Hq1].
    unfold plainText in Hlead. apply andb_true_iff in Hlead as [Hd Hs].
    apply negb_true_iff in Hd, Hs.
    rewrite (attrValues_seek_past (lead a) _ Hd Hs).
    rewrite attrValues_at_attribute.
    + rewrite (IH Hmore). reflexivity.
    + exact Hq1.
    + exact Hq2.
    + destruct (classes a); [discriminate|discriminate].
    + apply Forall_forall. intros c Hc.
      rewrite forallb_forall in Hv. apply negb_true_iff. exact (Hv c Hc).
Qed.

(** C4, amended.  Let the markup read as texts and class attributes:
    every text is one in which [class=] is nowhere followed by a quote,
    and every attribute is [class=], a quote, a value that is not empty
    and holds no quote, and a quote.  Then a rule of the style sheet (a
    piece between closing braces that is not blank) whose selector holds
    a dot and a class name is in the purged output, followed by its
    closing brace, whenever that name is one of the white-space
    separated pieces of the value of any of the attributes. *)
Theorem purge_keeps_classes_of_markup
  (css rule cls : jsstring) (attrs : list attribute) (rest : jsstring)
  (a : attribute) :
  forallb wellQuoted attrs = true ->
  plainText rest = true ->
  In a attrs ->
  In cls (splitWhitespace (classes a)) ->
  In rule (rulesOf css) ->
  includes (selectorOf rule) (DOT :: cls) = true ->
  includes (purgeUnusedCSS css (markupOf attrs rest)) (rule ++ [RBRACE])
  = true.
Proof.
  intros Hattrs Hrest Ha Hcls Hrule Hsel.
  apply (kept_when_collected css _ rule cls Hrule Hsel).
  unfold usedClasses. fold classKey.
  rewrite (attrValues_markupOf attrs rest Hattrs Hrest).
  apply in_flat_map. exists (classes a). split; [|exact Hcls].
  apply in_map. exact Ha.
Qed.

(** Scenario A: two rules, and markup with the class of the first in
    its second class attribute. *)
Definition scenarioA : jsstring := lit ".used{color:red}.unused{color:blue}".

Definition heroAttribute : attribute :=
  {| lead := lit "<div "; opening := DQUOTE; classes := lit "hero";
     closing := DQUOTE |}.

Definition usedAttribute : attribute :=
  {| lead := lit "><p "; opening := SQUOTE; classes := lit "big used";
     closing := SQUOTE |}.

Definition markupA : jsstring :=
  lit "<div class=" ++ [DQUOTE] ++ lit "used" ++ [DQUOTE] ++ lit "></div>".

Lemma purge_keeps_classes_of_markup_witness :
  includes (purgeUnusedCSS scenarioA
              (markupOf [heroAttribute; usedAttribute] (lit "></p></div>")))
           (lit ".used{color:red" ++ [RBRACE]) = true.
Proof.
  apply (purge_keeps_classes_of_markup scenarioA (lit ".used{color:red")
           (lit "used") [heroAttribute; usedAttribute] (lit "></p></div>")
           usedAttribute).
  - vm_compute. reflexivity.
  - vm_compute. reflexivity.
  - right. left. reflexivity.
  - vm_compute. right. left. reflexivity.
  - vm_compute. left. reflexivity.
  - vm_compute. reflexivity.
Defined.

End Purge.

(** * Further properties of the scripts *)

(** ** What the minifiers return *)

Section MinifierOutput.

Lemma length_stripLineComments_go (s : jsstring) :
  forall inside,
    (List.length (stripLineComments_go inside s) <= List.length s)%nat.
Proof.
  induction s as [|c t IH]; intros inside; [simpl; lia|].
  cbn [stripLineComments_go]. destruct inside.
  - destruct (is_line_terminator c); simpl;
      match goal with |- context [stripLineComments_go ?b t] =>
        specialize (IH b) end; lia.
  - destruct t as [|d t']; [simpl; lia|].
    destruct ((c =? SLASH) && (d =? SLASH));
      match goal with |- context [stripLineComments_go ?b (d :: t')] =>
        specialize (IH b) end; simpl in *; lia.
Qed.

(** The script minification never grows the text. *)
Lemma length_minifyJS (s : jsstring) :
  (List.length (Build.minifyJS s) <= List.length s)%nat.
Proof.
  unfold Build.minifyJS, tighten, collapseWhitespace, stripLineComments.
  pose proof (length_stripBlockComments s) as H1.
  pose proof (length_stripLineComments_go (stripBlockComments s) false) as H2.
  pose proof (length_collapseWhitespace_go
                (stripLineComments_go false (stripBlockComments s)) false)
    as H3.
  pose proof (length_tighten_go Build.is_punct
                (collapseWhitespace_go false
                   (stripLineComments_go false (stripBlockComments s)))
                false) as H4.
  pose proof (length_trim
                (tighten_go Build.is_punct false
                   (collapseWhitespace_go false
                      (stripLineComments_go false (stripBlockComments s)))))
    as H5.
  lia.
Qed.

Lemma noSlashes_includes (t : jsstring) :
  chain noSlashes None t -> includes t [SLASH; SLASH] = false.
Proof.
  induction t as [|c t IH]; intros H; [reflexivity|].
  cbn [includes].
  rewrite IH by exact (chain_weaken noSlashes t (Some c) (proj2 H)).
  rewrite orb_false_r. destruct t as [|d t'].
  { cbn [startsWith]. apply andb_false_r. }
  rewrite startsWith_pair.
  destruct (c =? SLASH) eqn:Hc; [|reflexivity].
  destruct (d =? SLASH) eqn:Hd; [|reflexivity].
  apply N.eqb_eq in Hc. apply N.eqb_eq in Hd.
  destruct (proj1 (proj2 H)). split; assumption.
Qed.

(** No two slashes stand side by side in a minified script: no line
    comment is left, and neither is the double slash of an address. *)
Theorem minifyJS_no_double_slash (s : jsstring) :
  includes (Build.minifyJS s) [SLASH; SLASH] = false.
Proof.
  apply noSlashes_includes. exact (proj2 (minifyJS_normal s)).
Qed.

Lemma chain_pair (R : char -> char -> Prop) (pre : jsstring) :
  forall o c d post, chain R o (pre ++ c :: d :: post) -> R c d.
Proof.
  induction pre as [|x pre IH]; intros o c d post H.
  - exact (proj1 (proj2 H)).
  - exact (IH _ c d post (proj2 H)).
Qed.

Lemma trim_fixed_end (t : jsstring) : trim t = t -> tightStart (rev t).
Proof.
  intros H. rewrite <- H at 1. unfold trim, trimEnd.
  rewrite rev_involutive. apply trimStart_tight.
Qed.

(** In a text in normal form a white-space character is a space with,
    on either side, a character that is neither white space nor of the
    class. *)
Lemma normal_space_between (is_punct : char -> bool)
  (t pre post : jsstring) (c : char) :
  normal is_punct t ->
  t = pre ++ c :: post ->
  is_space c = true ->
  c = SPACE
  /\ (exists pre' a, pre = pre' ++ [a]
                     /\ is_space a = false /\ is_punct a = false)
  /\ (exists b post', post = b :: post'
                      /\ is_space b = false /\ is_punct b = false).
Proof.
  intros Hn Ht Hc.
  pose proof (normal_tight is_punct t Hn) as Hstart.
  destruct Hn as (Hchain & Hplain & Htrim).
  pose proof (trim_fixed_end t Htrim) as Hend.
  subst t. split; [|split].
  - apply Forall_app in Hplain as [_ Hplain].
    inversion Hplain as [|? ? Hpc _]; subst. exact (Hpc Hc).
  - destruct (rev pre) as [|a rp] eqn:Hrev.
    + apply (f_equal (@rev char)) in Hrev. rewrite rev_involutive in Hrev.
      subst pre. simpl in Hstart. congruence.
    + apply (f_equal (@rev char)) in Hrev. rewrite rev_involutive in Hrev.
      simpl in Hrev. subst pre. exists (rev rp), a. split; [reflexivity|].
      rewrite <- app_assoc in Hchain. simpl in Hchain.
      apply chain_pair in Hchain. exact (proj2 Hchain Hc).
  - destruct post as [|b post'].
    + rewrite rev_app_distr in Hend. simpl in Hend. congruence.
    + exists b, post'. split; [reflexivity|].
      apply chain_pair in Hchain. exact (proj1 Hchain Hc).
Qed.

(** Every white-space character of a minified style sheet is a single
    space between two characters that are neither white space nor one
    of the characters the minifier tightens around. *)
Theorem minifyCSS_spaces_between_words (s pre post : jsstring) (c : char) :
  OptimizeCss.minifyCSS s = pre ++ c :: post ->
  is_space c = true ->
  c = SPACE
  /\ (exists pre' a, pre = pre' ++ [a]
        /\ is_space a = false /\ OptimizeCss.is_punct a = false)
  /\ (exists b post', post = b :: post'
        /\ is_space b = false /\ OptimizeCss.is_punct b = false).
Proof.
  intros Ht Hc.
  exact (normal_space_between OptimizeCss.is_punct _ pre post c
           (minifyCSS_normal s) Ht Hc).
Qed.

(** The same holds of a minified script and the class of its
    minifier. *)
Theorem minifyJS_spaces_between_words (s pre post : jsstring) (c : char) :
  Build.minifyJS s = pre ++ c :: post ->
  is_space c = true ->
  c = SPACE
  /\ (exists pre' a, pre = pre' ++ [a]
        /\ is_space a = false /\ Build.is_punct a = false)
  /\ (exists b post', post = b :: post'
        /\ is_space b = false /\ Build.is_punct b = false).
Proof.
  intros Ht Hc.
  exact (normal_space_between Build.is_punct _ pre post c
           (proj1 (minifyJS_normal s)) Ht Hc).
Qed.

Lemma minifyCSS_spaces_between_words_witness :
  SPACE = SPACE
  /\ (exists pre' a, lit "a" = pre' ++ [a]
        /\ is_space a = false /\ OptimizeCss.is_punct a = false)
  /\ (exists b post', lit "b{c:d}" = b :: post'
        /\ is_space b = false /\ OptimizeCss.is_punct b = false).
Proof.
  apply (minifyCSS_spaces_between_words
           (lit " a   b { c : d ; } ") (lit "a") (lit "b{c:d}") SPACE);
    vm_compute; reflexivity.
Defined.

Lemma minifyJS_spaces_between_words_witness :
  SPACE = SPACE
  /\ (exists pre' a, lit "return" = pre' ++ [a]
        /\ is_space a = false /\ Build.is_punct a = false)
  /\ (exists b post', lit "x;" = b :: post'
        /\ is_space b = false /\ Build.is_punct b = false).
Proof.
  apply (minifyJS_spaces_between_words
           (lit " return   x ; // done") (lit "return") (lit "x;") SPACE);
    vm_compute; reflexivity.
Defined.

End MinifierOutput.

(** ** The file steps of the build script *)

Section BuildFiles.

Import Build.

(** [minifyJSFile] either fails and leaves the files as they were, or
    writes the minified text at its output path and nowhere else; the
    sizes it reports are those of the source and of that text, the
    second never above the first. *)
Theorem minifyJSFile_outcome (fs : fileSystem) (input output : path) :
  match files fs input, writable fs output with
  | Some content, true =>
      exists fs' a,
        minifyJSFile fs input output = (fs', Ok a)
        /\ files fs' output = Some (minifyJS content)
        /\ (forall q, q <> output -> files fs' q = files fs q)
        /\ originalSize a = List.length content
        /\ producedSize a = List.length (minifyJS content)
        /\ (producedSize a <= originalSize a)%nat
  | _, _ => exists e, minifyJSFile fs input output = (fs, Err e)
  end.
Proof.
  unfold minifyJSFile, readFile, writeFile.
  destruct (files fs input) as [content|]; [|eexists; reflexivity].
  destruct (writable fs output); [|eexists; reflexivity].
  eexists; eexists. split; [reflexivity|].
  cbn [files originalSize producedSize]. rewrite String.eqb_refl.
  repeat split.
  - intros q Hq. apply String.eqb_neq in Hq. rewrite Hq. reflexivity.
  - apply length_minifyJS.
Qed.

Lemma length_stripHtmlComments_bounded (n : nat) :
  forall s m,
    (List.length s <= n)%nat ->
    (List.length (stripHtmlComments_go m s) <= List.length s)%nat.
Proof.
  induction n as [|n IH]; intros s m Hn.
  - destruct s; simpl in *; lia.
  - destruct s as [|c t]; [simpl; lia|].
    assert (Ht : (List.length t <= n)%nat) by (simpl in Hn; lia).
    cbn [stripHtmlComments_go]. destruct m as [|k|].
    + destruct (commentOpens (c :: t)).
      * specialize (IH t (Opening 3) Ht). simpl; lia.
      * specialize (IH t Outside Ht). simpl; lia.
    + destruct k as [|[|k]].
      * specialize (IH t Inside Ht). simpl; lia.
      * specialize (IH t Inside Ht). simpl; lia.
      * specialize (IH t (Opening (S k)) Ht). simpl; lia.
    + destruct t as [|d [|e t']]; [simpl; lia|simpl; lia|].
      destruct ((c =? 45) && (d =? 45) && (e =? GT)).
      * assert (Ht' : (List.length t' <= n)%nat) by (simpl in Hn; lia).
        specialize (IH t' Outside Ht'). simpl; lia.
      * specialize (IH (d :: e :: t') Inside Ht). simpl in *; lia.
Qed.

Lemma length_joinTags_go (s : jsstring) :
  forall inGap, (List.length (joinTags_go inGap s) <= List.length s)%nat.
Proof.
  induction s as [|c t IH]; intros inGap; [simpl; lia|].
  cbn [joinTags_go]. destruct inGap.
  - destruct (is_space c); simpl;
      match goal with |- context [joinTags_go ?b t] =>
        specialize (IH b) end; lia.
  - match goal with |- context [if ?b then _ else _] => destruct b end;
      simpl;
      match goal with |- context [joinTags_go ?b t] =>
        specialize (IH b) end; lia.
Qed.

Lemma length_reduceHTML (content : jsstring) :
  (List.length (trim (reduceHTML content)) <= List.length content)%nat.
Proof.
  unfold reduceHTML, joinTags, collapseWhitespace, stripHtmlComments.
  pose proof (length_stripHtmlComments_bounded (List.length content)
                content Outside (le_n _)) as H1.
  pose proof (length_collapseWhitespace_go
                (stripHtmlComments_go Outside content) false) as H2.
  pose proof (length_joinTags_go
                (collapseWhitespace_go false
                   (stripHtmlComments_go Outside content)) false) as H3.
  pose proof (length_trim
                (joinTags_go false
                   (collapseWhitespace_go false
                      (stripHtmlComments_go Outside content)))) as H4.
  lia.
Qed.

(** [optimizeHTMLFile] either fails and leaves the files as they were,
    or writes at its output path and nowhere else; without the critical
    style sheet what it writes is never longer than its source. *)
Theorem optimizeHTMLFile_outcome (fs : fileSystem) (input output : path) :
  match files fs input, writable fs output with
  | Some content, true =>
      exists fs' a text,
        optimizeHTMLFile fs input output = (fs', Ok a)
        /\ files fs' output = Some text
        /\ (forall q, q <> output -> files fs' q = files fs q)
        /\ originalSize a = List.length content
        /\ producedSize a = List.length text
        /\ (files fs criticalCSSPath = None ->
            (producedSize a <= originalSize a)%nat)
  | _, _ => exists e, optimizeHTMLFile fs input output = (fs, Err e)
  end.
Proof.
  unfold optimizeHTMLFile, readFile, writeFile.
  destruct (files fs input) as [content|]; [|eexists; reflexivity].
  destruct (writable fs output); [|eexists; reflexivity].
  eexists; eexists; eexists. split; [reflexivity|].
  cbn [files originalSize producedSize]. rewrite String.eqb_refl.
  split; [reflexivity|]. split; [|split; [reflexivity|split; [reflexivity|]]].
  - intros q Hq. apply String.eqb_neq in Hq. rewrite Hq. reflexivity.
  - intros Hnone. rewrite Hnone. apply length_reduceHTML.
Qed.

(** *** Inlining the critical style sheet *)

Definition dollarFree (s : jsstring) : Prop :=
  Forall (fun c => (c =? DOLLAR) = false) s.

Lemma expandReplacement_cons (before matched after r : jsstring) (c : char) :
  (c =? DOLLAR) = false ->
  expandReplacement before matched after (c :: r)
  = c :: expandReplacement before matched after r.
Proof.
  intros Hc. destruct r as [|d r']; cbn [expandReplacement];
    [reflexivity|]. rewrite Hc. reflexivity.
Qed.

Lemma expandReplacement_plain (before matched after a rest : jsstring) :
  dollarFree a ->
  expandReplacement before matched after (a ++ rest)
  = a ++ expandReplacement before matched after rest.
Proof.
  induction 1 as [|c a Hc Ha IH]; [reflexivity|].
  cbn [app]. rewrite (expandReplacement_cons _ _ _ _ c Hc), IH.
  reflexivity.
Qed.

Lemma expandReplacement_nil (before matched after : jsstring) :
  expandReplacement before matched after [] = [].
Proof. reflexivity. Qed.

Lemma dollarFree_lit_style :
  dollarFree (lit "<style>") /\ dollarFree (lit "</style>").
Proof. split; repeat constructor. Qed.

(** With a critical style sheet that holds no dollar sign, the first
    style sheet link of the markup, and only that one, gives way to a
    style element around the style sheet. *)
Theorem inline_replaces_first_link
  (optimized criticalCSS before tag after : jsstring) :
  findStylesheetLink optimized = Some (before, tag, after) ->
  dollarFree criticalCSS ->
  optimized = before ++ tag ++ after
  /\ inlineCriticalCSS optimized criticalCSS
     = before ++ lit "<style>" ++ criticalCSS ++ lit "</style>" ++ after.
Proof.
  intros Hfind Hfree.
  split; [exact (proj1 (findStylesheetLink_split _ _ _ _ Hfind))|].
  unfold inlineCriticalCSS. rewrite Hfind. f_equal.
  rewrite (expandReplacement_plain _ _ _ _ _ (proj1 dollarFree_lit_style)).
  rewrite (expandReplacement_plain _ _ _ _ _ Hfree).
  rewrite <- (app_nil_r (lit "</style>")) at 1.
  rewrite (expandReplacement_plain _ _ _ _ _ (proj2 dollarFree_lit_style)).
  rewrite expandReplacement_nil, app_nil_r, <- !app_assoc. reflexivity.
Qed.

(** A dollar sign and an ampersand in the critical style sheet are a
    pattern of the replacement: the link tag that was matched comes
    back in their place, inside the style element. *)
Theorem inline_expands_dollar_ampersand
  (optimized a b before tag after : jsstring) :
  findStylesheetLink optimized = Some (before, tag, after) ->
  dollarFree a -> dollarFree b ->
  inlineCriticalCSS optimized (a ++ [DOLLAR; AMP] ++ b)
  = before ++ lit "<style>" ++ a ++ tag ++ b ++ lit "</style>" ++ after.
Proof.
  intros Hfind Ha Hb.
  unfold inlineCriticalCSS. rewrite Hfind. f_equal.
  rewrite (expandReplacement_plain _ _ _ _ _ (proj1 dollarFree_lit_style)).
  rewrite <- !app_assoc.
  rewrite (expandReplacement_plain _ _ _ _ _ Ha).
  cbn [app expandReplacement].
  destruct (b ++ lit "</style>") as [|x r] eqn:Hb'.
  { destruct b; discriminate. }
  change ((DOLLAR =? DOLLAR)) with true. change ((AMP =? DOLLAR)) with false.
  change ((AMP =? AMP)) with true. cbn iota.
  rewrite <- Hb'.
  rewrite (expandReplacement_plain _ _ _ _ _ Hb).
  rewrite <- (app_nil_r (lit "</style>")) at 1.
  rewrite (expandReplacement_plain _ _ _ _ _ (proj2 dollarFree_lit_style)).
  rewrite expandReplacement_nil, app_nil_r, <- !app_assoc. reflexivity.
Qed.

(** *** Comments that stay *)

(** Every comment opener in [s] is followed by [[if]. *)
Fixpoint openersConditional (s : jsstring) : bool :=
  (negb (startsWith s (lit "<!--")) || startsWith (skipn 4 s) (lit "[if"))
  && match s with
     | [] => true
     | _ :: t => openersConditional t
     end.

(** Markup in which every comment opener is followed by [[if] keeps all
    its comments: the conditional comments are not removed. *)
Theorem conditional_comments_stay (s : jsstring) :
  openersConditional s = true -> stripHtmlComments s = s.
Proof.
  unfold stripHtmlComments.
  induction s as [|c t IH]; intros H; [reflexivity|].
  cbn [openersConditional] in H. apply andb_prop in H as [Hhere Ht].
  cbn [stripHtmlComments_go].
  assert (Hno : commentOpens (c :: t) = false).
  { unfold commentOpens.
    destruct (startsWith (c :: t) (lit "<!--")); [|reflexivity].
    cbn [negb orb] in Hhere. rewrite Hhere. reflexivity. }
  rewrite Hno. f_equal. apply IH. exact Ht.
Qed.

Definition conditionalMarkup : jsstring :=
  lit "<head><!--[if lt IE 9]><script src='shiv.js'></script><![endif]--></head>".

Lemma conditional_comments_stay_witness :
  stripHtmlComments conditionalMarkup = conditionalMarkup.
Proof.
  apply (conditional_comments_stay conditionalMarkup).
  vm_compute. reflexivity.
Defined.

Definition headWithLinks : jsstring :=
  lit "<head><link rel='stylesheet' href='a.css'><link rel='stylesheet' href='b.css'></head>".

Lemma inline_replaces_first_link_witness :
  headWithLinks
  = lit "<head>" ++ lit "<link rel='stylesheet' href='a.css'>"
    ++ lit "<link rel='stylesheet' href='b.css'></head>"
  /\ inlineCriticalCSS headWithLinks (lit ".hero{margin:0}")
     = lit "<head>" ++ lit "<style>" ++ lit ".hero{margin:0}" ++ lit "</style>"
       ++ lit "<link rel='stylesheet' href='b.css'></head>".
Proof.
  apply (inline_replaces_first_link headWithLinks (lit ".hero{margin:0}")).
  - vm_compute. reflexivity.
  - repeat constructor.
Defined.

Lemma inline_expands_dollar_ampersand_witness :
  inlineCriticalCSS headWithLinks
    (lit ".price:before{content:'" ++ [DOLLAR; AMP] ++ lit "'}")
  = lit "<head>" ++ lit "<style>" ++ lit ".price:before{content:'"
    ++ lit "<link rel='stylesheet' href='a.css'>" ++ lit "'}"
    ++ lit "</style>" ++ lit "<link rel='stylesheet' href='b.css'></head>".
Proof.
  apply (inline_expands_dollar_ampersand headWithLinks
           (lit ".price:before{content:'") (lit "'}")).
  - vm_compute. reflexivity.
  - repeat constructor.
  - repeat constructor.
Defined.

End BuildFiles.

(** ** The budget validator on any output *)

Section BudgetAnyOutput.

Import Build.

(** On an output root that holds nothing but what the validator looks
    for, the validation succeeds and the total it reports is the sum of
    all the files under the root. *)
Theorem budget_total_is_sum (d : list node) :
  countedLayout d = true ->
  exists v, validatePerformanceBudget (Some d) = Ok v
            /\ totalSize v = sizes (producedArtifacts d).
Proof.
  intros Hlayout.
  destruct (validatePerformanceBudget_layout d Hlayout) as [Hv _].
  eexists. split; [exact Hv|reflexivity].
Qed.

Lemma budget_total_is_sum_witness :
  exists v, validatePerformanceBudget (Some fullOutput) = Ok v
            /\ totalSize v = sizes (producedArtifacts fullOutput).
Proof.
  apply (budget_total_is_sum fullOutput). vm_compute. reflexivity.
Defined.

(** On such an output root the validation passes exactly when no file
    under the root is over the budget of its category and all of them
    together are at most at the total budget: a size equal to its
    budget passes. *)
Theorem budget_passes_iff_within (d : list node) :
  countedLayout d = true ->
  exists v, validatePerformanceBudget (Some d) = Ok v
            /\ (passed v = true <->
                forallb withinCategory (producedArtifacts d) = true
                /\ sizes (producedArtifacts d) <= BUDGETS TOTAL).
Proof.
  intros Hlayout.
  destruct (validatePerformanceBudget_layout d Hlayout) as [Hv Hnone].
  eexists. split; [exact Hv|].
  cbn [passed]. rewrite Nat.eqb_eq, length_zero_iff_nil.
  rewrite <- Hnone. unfold totalViolation.
  destruct (BUDGETS TOTAL <? sizes (producedArtifacts d)) eqn:Ht.
  - apply N.ltb_lt in Ht. split.
    + intros H. apply app_eq_nil in H as [_ H].
      apply app_eq_nil in H as [_ H]. apply app_eq_nil in H as [_ H].
      discriminate.
    + intros [_ H]. lia.
  - apply N.ltb_ge in Ht. rewrite !app_nil_r. split.
    + intros H. split; [exact H|exact Ht].
    + intros [H _]. exact H.
Qed.

(** An output root of the expected layout in which the page is exactly
    at its budget. *)
Definition pageAtBudget : list node :=
  [ File "index.html" (50 * 1024);
    Dir "styles" 4096 [File "main.css" 1000];
    Dir "js" 4096 [File "main.js" 2000; Dir "vendor" 4096 []] ].

Lemma budget_passes_iff_within_witness :
  exists v, validatePerformanceBudget (Some pageAtBudget) = Ok v
            /\ (passed v = true <->
                forallb withinCategory (producedArtifacts pageAtBudget) = true
                /\ sizes (producedArtifacts pageAtBudget) <= BUDGETS TOTAL).
Proof.
  apply (budget_passes_iff_within pageAtBudget). vm_compute. reflexivity.
Defined.

(** Every violation reported is a real one: its size is above its
    budget, and its budget is that of its category. *)
Theorem budget_violations_exceed (d : list node) (v : budgetCheck) :
  validatePerformanceBudget (Some d) = Ok v ->
  Forall (fun x => budget x < size x /\ budget x = BUDGETS (type x))
         (violations v).
Proof.
  rewrite validatePerformanceBudget_value.
  destruct (firstBroken (htmlFiles d)); [discriminate|].
  intros H. injection H as <-.
  cbn [violations].
  assert (Hover : forall k fs,
            Forall (fun x => budget x < size x /\ budget x = BUDGETS (type x))
                   (overBudget k fs)).
  { intros k fs. unfold overBudget. apply Forall_forall. intros x Hx.
    apply in_map_iff in Hx as (f & <- & Hf).
    apply filter_In in Hf as [_ Hf]. apply N.ltb_lt in Hf.
    cbn [budget size type]. split; [exact Hf|reflexivity]. }
  repeat (apply Forall_app; split); try apply Hover.
  unfold totalViolation.
  destruct (BUDGETS TOTAL <? sizes (measured d)) eqn:Ht; constructor;
    [|constructor].
  apply N.ltb_lt in Ht. cbn [budget size type]. split; [exact Ht|reflexivity].
Qed.

Definition oneHeavySheet : list node :=
  [ File "index.html" 1000;
    Dir "styles" 4096 [File "main.css" (31 * 1024); File "notes.txt" 5] ].

Lemma budget_violations_exceed_witness :
  Forall (fun x => budget x < size x /\ budget x = BUDGETS (type x))
         [{| file := "styles/main.css"; size := 31 * 1024;
             budget := BUDGETS CSS; type := CSS |}].
Proof.
  apply (budget_violations_exceed oneHeavySheet
           {| totalSize := 1000 + 31 * 1024;
              violations := [{| file := "styles/main.css"; size := 31 * 1024;
                                budget := BUDGETS CSS; type := CSS |}];
              passed := false |}).
  vm_compute. reflexivity.
Defined.

(** *** Entries for which [stat] throws *)






(** The second style sheet is a link whose target is gone; the third is
    far over its budget, and the validation passes. *)
Definition danglingSheet : list node :=
  [ Dir "styles" 4096
      [ File "main.css" 2000; Broken "old.css" false;
        File "huge.css" (900 * 1024) ];
    File "index.html" 1000 ].

Lemma dangling_sheet_passes :
  validatePerformanceBudget (Some danglingSheet)
  = Ok {| totalSize := 3000; violations := []; passed := true |}.
Proof. vm_compute. reflexivity. Qed.

End BudgetAnyOutput.

(** ** The orchestrator, stage by stage *)

Section OrchestratorStages.

Import Build.

(** The names [build] gives its stages, in the order it runs them. *)
Definition stageOrder : list string :=
  ["clean"; "css"; "images"; "js"; "html"; "budget"; "report"].

Definition calledStages (run : buildResults * list event) : list string :=
  flat_map (fun e => match e with Called stage => [stage] | _ => [] end)
           (snd run).

(** Whether each stage of a run returns a successful result, in the
    order of the stages. *)
Definition outcomes (w : world) : list bool :=
  [ isOk (cleanDistDirectory w); isOk (runCSSOptimization w);
    isOk (runImageOptimization w); isOk (minifyJavaScript w);
    isOk (optimizeHTML w); isOk (validatePerformanceBudget (dist w));
    reportWritable w ].

(** The number of successes before the first failure. *)
Fixpoint leading (l : list bool) : nat :=
  match l with
  | true :: rest => S (leading rest)
  | _ => 0%nat
  end.

Ltac run_stages Hb :=
  unfold build, tryBlock; cbn [dist]; rewrite ?Hb; cbv; repeat split.

(** [build] runs its stages in order and stops at the first that fails:
    the stages called are the successful ones and the one that failed,
    the steps recorded in [buildResults] are the successful ones (the
    report stage records none), and [success] is cleared exactly when a
    stage failed. *)
Theorem build_halts_at_first_failure (w : world) :
  calledStages (build w) = firstn (S (leading (outcomes w))) stageOrder
  /\ map fst (steps (fst (build w)))
     = firstn (leading (outcomes w)) (firstn 6 stageOrder)
  /\ success (fst (build w)) = Nat.eqb (leading (outcomes w)) 7.
Proof.
  destruct w as [c css img js html d rw]. unfold outcomes.
  cbn [cleanDistDirectory runCSSOptimization runImageOptimization
       minifyJavaScript optimizeHTML dist reportWritable].
  destruct c as [[]|]; [|repeat split].
  destruct css; [|repeat split].
  destruct img; [|repeat split].
  destruct js; [|repeat split].
  destruct html; [|repeat split].
  destruct (validatePerformanceBudget d) eqn:Hb; [|run_stages Hb].
  destruct rw; run_stages Hb.
Qed.

(** A report that is written always says that the build succeeded, also
    when the budget is violated and the exit code is 1; it holds the six
    steps before it, the value of the budget stage, its total size, and
    the number of scripts and markup files as the number of files. *)
Theorem report_records_success_only (w : world) (r : report) :
  In (ReportWritten r) (snd (build w)) ->
  summarySuccess r = true
  /\ map fst (reportSteps r) = firstn 6 stageOrder
  /\ exists js html v,
       minifyJavaScript w = Ok js /\ optimizeHTML w = Ok html
       /\ validatePerformanceBudget (dist w) = Ok v
       /\ performanceBudget r = Some v
       /\ summaryTotalFiles r = (List.length js + List.length html)%nat
       /\ summaryTotalSize r = totalSize v.
Proof.
  intros Hin.
  assert (Hw : reportWritten (build w) = true).
  { unfold reportWritten. apply existsb_exists.
    exists (ReportWritten r). split; [exact Hin|reflexivity]. }
  destruct (allStagesOk_dec w) as [Hall|Hno];
    [|destruct (build_some_failure w Hno) as [_ Hf]; congruence].
  clear Hw. revert Hin Hall.
  destruct w as [c css img js html d rw]. unfold allStagesOk.
  cbn [cleanDistDirectory runCSSOptimization runImageOptimization
       minifyJavaScript optimizeHTML dist reportWritable].
  intros Hin (Hc & Hcss & Himg & Hjs & Hhtml & Hv & Hrw).
  destruct c as [[]|]; [|discriminate].
  destruct css; [|discriminate]. destruct img; [|discriminate].
  destruct js as [js|]; [|discriminate].
  destruct html as [html|]; [|discriminate].
  destruct (validatePerformanceBudget d) as [v|] eqn:Hb; [|discriminate].
  subst rw.
  unfold build, tryBlock in Hin; cbn [dist] in Hin; rewrite Hb in Hin.
  cbv in Hin.
  destruct Hin as [H|[H|[H|[H|[H|[H|[H|[H|[H|[]]]]]]]]]]; try discriminate H.
  injection H as <-.
  split; [reflexivity|]. split; [reflexivity|].
  exists js, html, v. repeat split.
Qed.

(** A run in which every stage succeeds and one style sheet is over its
    budget. *)
Definition overBudgetRun : world :=
  {| cleanDistDirectory := Ok tt;
     runCSSOptimization := Ok tt;
     runImageOptimization := Ok tt;
     minifyJavaScript := Ok [];
     optimizeHTML := Ok [];
     dist := Some oneHeavySheet;
     reportWritable := true |}.

Definition overBudgetReport : report :=
  match snd (build overBudgetRun) with
  | _ :: _ :: _ :: _ :: _ :: _ :: _ :: ReportWritten r :: _ => r
  | _ => {| reportSteps := []; performanceBudget := None;
            summarySuccess := false; summaryTotalFiles := 0;
            summaryTotalSize := 0 |}
  end.

Lemma report_records_success_only_witness :
  summarySuccess overBudgetReport = true
  /\ map fst (reportSteps overBudgetReport) = firstn 6 stageOrder
  /\ exists js html v,
       minifyJavaScript overBudgetRun = Ok js
       /\ optimizeHTML overBudgetRun = Ok html
       /\ validatePerformanceBudget (dist overBudgetRun) = Ok v
       /\ performanceBudget overBudgetReport = Some v
       /\ summaryTotalFiles overBudgetReport
          = (List.length js + List.length html)%nat
       /\ summaryTotalSize overBudgetReport = totalSize v.
Proof.
  apply (report_records_success_only overBudgetRun overBudgetReport).
  vm_compute. do 7 right. left. reflexivity.
Defined.

End OrchestratorStages.

(** ** Acquisition: order of the downloads, runs that end early and
    second runs *)

Section AcquisitionRuns.

Import OptimizeImages.

(** However the loop ends, the downloads it has asked for are, in the
    order of the catalog, those of the entries that had no file at the
    start, up to the entry at which it ends, all of them when it
    returns; each at the address of the entry with the fixed size and
    quality parameters, into the path of the entry, with the answer of
    the remote side as its outcome; and [downloaded] counts those that
    resolved. *)
Theorem downloads_follow_catalog
  (network : list request -> string -> fetchOutcome)
  (files : list string) (st : state) (e : ending) :
  acquire network UNSPLASH_IMAGES (start files) = (st, e) ->
  exists unreached,
    map downloadUrl (filter (absent files) UNSPLASH_IMAGES)
    = map requestUrl (requests st) ++ map downloadUrl unreached
    /\ map outputPath (filter (absent files) UNSPLASH_IMAGES)
       = map requestPath (requests st) ++ map outputPath unreached
    /\ (e = Returned -> unreached = [])
    /\ (forall pre r post,
          requests st = pre ++ r :: post ->
          outcome r = network pre (requestUrl r))
    /\ downloaded (counts st)
       = List.length (filter isFetched (requests st)).
Proof.
  intros H.
  destruct (acquire_asked network UNSPLASH_IMAGES catalog_paths_distinct
              _ _ _ H) as (unreached & Hp & Hu & Hret).
  cbn [start existing requests map app] in Hp, Hu.
  exists unreached.
  split; [symmetry; exact Hu|]. split; [symmetry; exact Hp|].
  split; [intros He; exact (proj1 (Hret He))|]. split.
  - exact (acquire_answered network UNSPLASH_IMAGES _ _ _ H
             (answered_nil network)).
  - destruct (acquire_tallies network UNSPLASH_IMAGES _ _ _ H) as [_ Hd].
    cbn [start requests counts downloaded filter List.length] in Hd. lia.
Qed.

Lemma tally_settled (log : list request) :
  Forall (fun r => settled r = true) log ->
  (List.length (filter isRejected log)
   + List.length (filter isFetched log))%nat
  = List.length log.
Proof.
  induction 1 as [|x log Hx _ IH]; [reflexivity|].
  unfold isRejected, isFetched, settled in *. cbn [filter].
  destruct (outcome x); try discriminate; cbn [List.length]; lia.
Qed.

(** A run of [processUnsplashImages] over a source directory that is
    ready fails to return only because of one download, the last it
    asked for: the target could not be opened, which ended the process,
    or the promise never settled.  The downloads before it settled, and
    nothing was counted for the entry itself. *)
Theorem run_ends_at_unsettled_download
  (network : list request -> string -> fetchOutcome)
  (files : list string) :
  processUnsplashImages network true files = None ->
  exists st e pre r,
    acquire network UNSPLASH_IMAGES (start files) = (st, e)
    /\ requests st = pre ++ [r]
    /\ Forall (fun r => settled r = true) pre
    /\ outcome r = network pre (requestUrl r)
    /\ (e = Killed /\ outcome r = Uncaught
        \/ e = Stalled /\ outcome r = Unsettled)
    /\ (downloaded (counts st) + failed (counts st))%nat = List.length pre.
Proof.
  unfold processUnsplashImages. intros Hnone.
  destruct (acquire network UNSPLASH_IMAGES (start files)) as [st e] eqn:H.
  pose proof (acquire_settled network UNSPLASH_IMAGES _ _ _ H (Forall_nil _))
    as Hend.
  assert (Hstop : exists pre r,
            requests st = pre ++ [r]
            /\ Forall (fun r => settled r = true) pre
            /\ (e = Killed /\ outcome r = Uncaught
                \/ e = Stalled /\ outcome r = Unsettled))
    by (destruct e; [discriminate|exact Hend|exact Hend]).
  clear Hend Hnone. destruct Hstop as (pre & r & Hreq & Hpre & Hr).
  exists st, e, pre, r.
  split; [reflexivity|]. split; [exact Hreq|]. split; [exact Hpre|].
  split.
  { apply (acquire_answered network UNSPLASH_IMAGES _ _ _ H
             (answered_nil network) pre r []). exact Hreq. }
  split; [exact Hr|].
  destruct (acquire_tallies network UNSPLASH_IMAGES _ _ _ H) as [Hf Hd].
  cbn [start requests counts downloaded failed filter List.length] in Hf, Hd.
  rewrite Hreq, !filter_app, !length_app in Hf, Hd.
  assert (Hlast : filter isRejected [r] = [] /\ filter isFetched [r] = []).
  { unfold isRejected, isFetched. cbn [filter].
    destruct Hr as [[_ ->]|[_ ->]]; split; reflexivity. }
  destruct Hlast as [Hl1 Hl2]. rewrite Hl1 in Hf. rewrite Hl2 in Hd.
  cbn [List.length] in Hf, Hd.
  pose proof (tally_settled pre Hpre). lia.
Qed.

Lemma all_present_filters (catalog : list image) (files : list string) :
  (forall img, In img catalog -> present files img = true) ->
  filter (absent files) catalog = []
  /\ filter (present files) catalog = catalog.
Proof.
  induction catalog as [|img catalog IH]; intros H; [split; reflexivity|].
  destruct IH as [IH1 IH2]; [intros i Hi; apply H; right; exact Hi|].
  cbn [filter]. unfold absent at 1.
  rewrite (H img (or_introl eq_refl)). cbn [negb].
  rewrite IH1, IH2. split; reflexivity.
Qed.

(** A second run over the files a first run left asks for nothing and
    skips all eleven entries, provided every download of the first run
    left its file: it resolved, or it was rejected with the file its
    write stream had opened still in place, which the second run takes
    for the image. *)
Theorem second_run_downloads_nothing
  (network network' : list request -> string -> fetchOutcome)
  (files : list string) (st : state) :
  processUnsplashImages network true files = Some st ->
  Forall (fun r => leavesFile r = true) (requests st) ->
  exists st',
    processUnsplashImages network' true (existing st) = Some st'
    /\ requests st' = []
    /\ skipped (counts st') = 11%nat
    /\ downloaded (counts st') = 0%nat
    /\ failed (counts st') = 0%nat.
Proof.
  intros H Hall. apply processUnsplashImages_state in H.
  pose proof (acquire_leaves network UNSPLASH_IMAGES _ _ H Hall) as Hpresent.
  pose proof (acquire_all_present network' UNSPLASH_IMAGES
                (start (existing st)) Hpresent) as Hrun.
  unfold processUnsplashImages. rewrite Hrun.
  eexists. split; [reflexivity|].
  cbn [requests counts skipped downloaded failed start].
  repeat split.
Qed.

End AcquisitionRuns.

(** A remote side on which everything is found, and one on which the
    body of the third download breaks off. *)
Definition serving (_ : list OptimizeImages.request) (_ : string)
  : OptimizeImages.fetchOutcome :=
  OptimizeImages.Fetched.

Definition breakingOff (log : list OptimizeImages.request) (_ : string)
  : OptimizeImages.fetchOutcome :=
  if Nat.eqb (List.length log) 2 then OptimizeImages.Unsettled
  else OptimizeImages.Fetched.

Lemma downloads_follow_catalog_witness :
  let st := fst (OptimizeImages.acquire breakingOff
                   OptimizeImages.UNSPLASH_IMAGES
                   (OptimizeImages.start heroCached)) in
  exists unreached,
    map OptimizeImages.downloadUrl
        (filter (absent heroCached) OptimizeImages.UNSPLASH_IMAGES)
    = map OptimizeImages.requestUrl (OptimizeImages.requests st)
      ++ map OptimizeImages.downloadUrl unreached
    /\ map OptimizeImages.outputPath
           (filter (absent heroCached) OptimizeImages.UNSPLASH_IMAGES)
       = map OptimizeImages.requestPath (OptimizeImages.requests st)
         ++ map OptimizeImages.outputPath unreached
    /\ (OptimizeImages.Stalled = OptimizeImages.Returned -> unreached = [])
    /\ (forall pre r post,
          OptimizeImages.requests st = pre ++ r :: post ->
          OptimizeImages.outcome r
          = breakingOff pre (OptimizeImages.requestUrl r))
    /\ OptimizeImages.downloaded (OptimizeImages.counts st)
       = List.length (filter isFetched (OptimizeImages.requests st)).
Proof.
  apply (downloads_follow_catalog breakingOff heroCached).
  vm_compute. reflexivity.
Defined.

Lemma run_ends_at_unsettled_download_witness :
  exists st e pre r,
    OptimizeImages.acquire breakingOff OptimizeImages.UNSPLASH_IMAGES
      (OptimizeImages.start heroCached) = (st, e)
    /\ OptimizeImages.requests st = pre ++ [r]
    /\ Forall (fun r => settled r = true) pre
    /\ OptimizeImages.outcome r
       = breakingOff pre (OptimizeImages.requestUrl r)
    /\ (e = OptimizeImages.Killed
        /\ OptimizeImages.outcome r = OptimizeImages.Uncaught
        \/ e = OptimizeImages.Stalled
           /\ OptimizeImages.outcome r = OptimizeImages.Unsettled)
    /\ (OptimizeImages.downloaded (OptimizeImages.counts st)
        + OptimizeImages.failed (OptimizeImages.counts st))%nat
       = List.length pre.
Proof.
  apply (run_ends_at_unsettled_download breakingOff heroCached).
  vm_compute. reflexivity.
Defined.

Lemma second_run_downloads_nothing_witness :
  exists st',
    OptimizeImages.processUnsplashImages serving true
      (OptimizeImages.existing
         (fst (OptimizeImages.acquire refusing OptimizeImages.UNSPLASH_IMAGES
                 (OptimizeImages.start heroCached)))) = Some st'
    /\ OptimizeImages.requests st' = []
    /\ OptimizeImages.skipped (OptimizeImages.counts st') = 11%nat
    /\ OptimizeImages.downloaded (OptimizeImages.counts st') = 0%nat
    /\ OptimizeImages.failed (OptimizeImages.counts st') = 0%nat.
Proof.
  apply (second_run_downloads_nothing refusing serving heroCached).
  - vm_compute. reflexivity.
  - vm_compute. repeat constructor.
Defined.

(** ** Critical extraction *)

Section CriticalExtraction.

Import OptimizeCssFiles.

(** [subseq k l]: [k] is [l] with some elements left out. *)
Inductive subseq {A : Type} : list A -> list A -> Prop :=
| subseq_nil : forall l, subseq [] l
| subseq_skip : forall x k l, subseq k l -> subseq k (x :: l)
| subseq_take : forall x k l, subseq k l -> subseq (x :: k) (x :: l).

Lemma criticalLines_subseq (lines : list jsstring) :
  forall inBlock braceCount,
    subseq (criticalLines inBlock braceCount lines) lines.
Proof.
  induction lines as [|line rest IH]; intros inBlock braceCount;
    [constructor|].
  cbn [criticalLines].
  destruct (includes line layerMarker); [apply subseq_take, IH|].
  destruct inBlock; [apply subseq_take, IH|].
  destruct (isCriticalSelector (trim line)); [|apply subseq_skip, IH].
  destruct (includes line [LBRACE]); apply subseq_take, IH.
Qed.

Lemma split_cons (sep : char) (s : jsstring) :
  exists h r, split sep s = h :: r.
Proof.
  destruct s as [|c t]; cbn [split]; [eexists; eexists; reflexivity|].
  destruct (c =? sep); [eexists; eexists; reflexivity|].
  destruct (split sep t); eexists; eexists; reflexivity.
Qed.

(** Joining what [split] gives with the separator gives the text
    back. *)
Lemma join_split (sep : char) (s : jsstring) :
  join [sep] (split sep s) = s.
Proof.
  induction s as [|c t IH]; [reflexivity|].
  cbn [split]. destruct (split_cons sep t) as (h & r & Hs).
  rewrite Hs in *. destruct (c =? sep) eqn:Hc.
  - apply N.eqb_eq in Hc. subst c.
    change (join [sep] ([] :: h :: r)) with (sep :: join [sep] (h :: r)).
    rewrite IH. reflexivity.
  - cbn [join] in *. destruct r; cbn [app]; rewrite <- IH; reflexivity.
Qed.

Lemma length_join_cons (sep p : jsstring) (rest : list jsstring) :
  List.length (join sep (p :: rest))
  = (List.length p
     + match rest with
       | [] => 0
       | _ :: _ => List.length sep + List.length (join sep rest)
       end)%nat.
Proof.
  cbn [join]. destruct rest; [lia|].
  rewrite !length_app. reflexivity.
Qed.

Lemma length_join_subseq (sep : jsstring) (k l : list jsstring) :
  subseq k l ->
  (List.length (join sep k) <= List.length (join sep l))%nat.
Proof.
  induction 1 as [l|x k l H IH|x k l H IH].
  - simpl. lia.
  - rewrite (length_join_cons sep x l). destruct l; [|lia].
    inversion H; subst. simpl. lia.
  - rewrite !length_join_cons. destruct k as [|y k]; [lia|].
    destruct l as [|z l]; [inversion H|]. lia.
Qed.

Lemma length_extractCriticalCSS (css : jsstring) :
  (List.length (extractCriticalCSS css) <= List.length css)%nat.
Proof.
  unfold extractCriticalCSS.
  rewrite <- (join_split LF css) at 2.
  apply length_join_subseq. apply criticalLines_subseq.
Qed.

(** The critical style sheet is made of lines of the source, in the
    order of the source; none is changed, repeated or moved, and the
    result is never longer than the source. *)
Theorem extractCriticalCSS_keeps_lines (css : jsstring) :
  exists kept,
    subseq kept (split LF css)
    /\ extractCriticalCSS css = join [LF] kept
    /\ (List.length (extractCriticalCSS css) <= List.length css)%nat.
Proof.
  exists (criticalLines false 0%Z (split LF css)).
  pose proof (criticalLines_subseq (split LF css) false 0%Z) as Hsub.
  split; [exact Hsub|]. split; [reflexivity|].
  apply length_extractCriticalCSS.
Qed.

Lemma criticalLines_after (pre : list jsstring) :
  forall inBlock braceCount rest,
    exists kept inBlock' braceCount',
      criticalLines inBlock braceCount (pre ++ rest)
      = kept ++ criticalLines inBlock' braceCount' rest.
Proof.
  induction pre as [|line pre IH]; intros inBlock braceCount rest.
  - exists [], inBlock, braceCount. reflexivity.
  - cbn [app criticalLines].
    destruct (includes line layerMarker).
    { destruct (IH true braceCount rest) as (k & b & n & H).
      exists (line :: k), b, n. rewrite H. reflexivity. }
    destruct inBlock.
    { match goal with |- context [criticalLines ?b0 ?n0 (pre ++ rest)] =>
        destruct (IH b0 n0 rest) as (k & b & n & H) end.
      exists (line :: k), b, n. rewrite H. reflexivity. }
    destruct (isCriticalSelector (trim line)).
    + destruct (includes line [LBRACE]).
      * destruct (IH true 1%Z rest) as (k & b & n & H).
        exists (line :: k), b, n. rewrite H. reflexivity.
      * destruct (IH false braceCount rest) as (k & b & n & H).
        exists (line :: k), b, n. rewrite H. reflexivity.
    + destruct (IH false braceCount rest) as (k & b & n & H).
      exists k, b, n. exact H.
Qed.

Lemma criticalLines_in_block (line : jsstring) (braceCount : Z)
  (rest : list jsstring) :
  exists inBlock' braceCount',
    criticalLines true braceCount (line :: rest)
    = line :: criticalLines inBlock' braceCount' rest.
Proof.
  cbn [criticalLines].
  destruct (includes line layerMarker); eexists; eexists; reflexivity.
Qed.

Lemma criticalLines_marker (line : jsstring) (inBlock : bool)
  (braceCount : Z) (rest : list jsstring) :
  includes line layerMarker = true ->
  criticalLines inBlock braceCount (line :: rest)
  = line :: criticalLines true braceCount rest.
Proof.
  intros H. cbn [criticalLines]. rewrite H. reflexivity.
Qed.

(** A line with the layer marker is always emitted, wherever it stands,
    and so is the line after it. *)
Theorem layer_marker_line_and_next_kept
  (css : jsstring) (pre : list jsstring) (marked next : jsstring)
  (post : list jsstring) :
  split LF css = pre ++ marked :: next :: post ->
  includes marked layerMarker = true ->
  exists before after,
    extractCriticalCSS css = join [LF] (before ++ marked :: next :: after).
Proof.
  intros Hlines Hmark. unfold extractCriticalCSS. rewrite Hlines.
  destruct (criticalLines_after pre false 0%Z (marked :: next :: post))
    as (k & b & n & H).
  rewrite H, (criticalLines_marker marked b n _ Hmark).
  destruct (criticalLines_in_block next n post) as (b' & n' & H').
  rewrite H'. eexists; eexists; reflexivity.
Qed.

(** Outside a block, a line that matches a critical selector and holds
    an opening brace is emitted together with the line after it, also
    when the rule is closed on its own line: braces on the line of the
    selector are not counted. *)
Theorem critical_rule_takes_next_line
  (head next : jsstring) (rest : list jsstring) (braceCount : Z) :
  isCriticalSelector (trim head) = true ->
  includes head [LBRACE] = true ->
  exists after,
    criticalLines false braceCount (head :: next :: rest)
    = head :: next :: after.
Proof.
  intros Hsel Hbrace. cbn [criticalLines].
  destruct (includes head layerMarker).
  - destruct (includes next layerMarker); eexists; reflexivity.
  - rewrite Hsel, Hbrace.
    destruct (includes next layerMarker); eexists; reflexivity.
Qed.

(** The lines of a block body: no layer marker and no brace. *)
Definition plainLine (line : jsstring) : bool :=
  negb (includes line layerMarker)
  && (countChar LBRACE line =? 0)%Z && (countChar RBRACE line =? 0)%Z.

(** A line that closes a block: no layer marker, no opening brace and
    one closing brace. *)
Definition closingLine (line : jsstring) : bool :=
  negb (includes line layerMarker)
  && (countChar LBRACE line =? 0)%Z && (countChar RBRACE line =? 1)%Z.

Lemma criticalLines_body (body : list jsstring) :
  forallb plainLine body = true ->
  forall braceCount rest,
    (braceCount <> 0)%Z ->
    criticalLines true braceCount (body ++ rest)
    = body ++ criticalLines true braceCount rest.
Proof.
  induction body as [|line body IH]; intros Hbody braceCount rest Hn;
    [reflexivity|].
  cbn [forallb] in Hbody. apply andb_prop in Hbody as [Hline Hbody].
  unfold plainLine in Hline.
  apply andb_prop in Hline as [Hline Hr]. apply andb_prop in Hline as [Hm Hl].
  apply negb_true_iff in Hm. apply Z.eqb_eq in Hl. apply Z.eqb_eq in Hr.
  cbn [app criticalLines]. rewrite Hm, Hl, Hr.
  replace (braceCount + 0 - 0)%Z with braceCount by lia.
  assert (Hnz : (braceCount =? 0)%Z = false) by (apply Z.eqb_neq; exact Hn).
  rewrite Hnz. cbn [negb]. rewrite IH by assumption. reflexivity.
Qed.

(** A rule laid out over several lines (the selector with the opening
    brace, declarations without braces, the closing brace on a line of
    its own) is captured whole when its selector is critical, and the
    capture ends with it: what follows is scanned afresh. *)
Theorem critical_block_captured_whole
  (head close : jsstring) (body rest : list jsstring) (braceCount : Z) :
  includes head layerMarker = false ->
  isCriticalSelector (trim head) = true ->
  includes head [LBRACE] = true ->
  forallb plainLine body = true ->
  closingLine close = true ->
  criticalLines false braceCount (head :: body ++ close :: rest)
  = head :: body ++ close :: criticalLines false 0%Z rest.
Proof.
  intros Hm Hsel Hbrace Hbody Hclose.
  cbn [criticalLines]. rewrite Hm, Hsel, Hbrace. f_equal.
  rewrite (criticalLines_body body Hbody 1%Z (close :: rest)) by discriminate.
  f_equal. unfold closingLine in Hclose.
  apply andb_prop in Hclose as [Hclose Hr].
  apply andb_prop in Hclose as [Hcm Hl].
  apply negb_true_iff in Hcm. apply Z.eqb_eq in Hl. apply Z.eqb_eq in Hr.
  cbn [criticalLines]. rewrite Hcm, Hl, Hr. reflexivity.
Qed.

(** Without a line that holds the layer marker or matches a critical
    selector, nothing is extracted. *)
Theorem nothing_critical_nothing_extracted (css : jsstring) :
  forallb (fun line => negb (includes line layerMarker)
                       && negb (isCriticalSelector (trim line)))
          (split LF css) = true ->
  extractCriticalCSS css = [].
Proof.
  unfold extractCriticalCSS.
  generalize (split LF css) as lines. intros lines H.
  assert (Hnone : criticalLines false 0%Z lines = []).
  { induction lines as [|line rest IH]; [reflexivity|].
    cbn [forallb] in H. apply andb_prop in H as [Hline Hrest].
    apply andb_prop in Hline as [Hm Hs].
    apply negb_true_iff in Hm. apply negb_true_iff in Hs.
    cbn [criticalLines]. rewrite Hm, Hs. exact (IH Hrest). }
  rewrite Hnone. reflexivity.
Qed.

Definition layeredSheet : jsstring :=
  lit "p { margin: 0 }" ++ [LF] ++ lit "@layer critical {" ++ [LF]
  ++ lit "  .card { color: red }" ++ [LF] ++ lit "}".

Lemma layer_marker_line_and_next_kept_witness :
  exists before after,
    extractCriticalCSS layeredSheet
    = join [LF] (before ++ lit "@layer critical {"
                   :: lit "  .card { color: red }" :: after).
Proof.
  apply (layer_marker_line_and_next_kept layeredSheet
           [lit "p { margin: 0 }"] (lit "@layer critical {")
           (lit "  .card { color: red }") [lit "}"]);
    vm_compute; reflexivity.
Defined.

Lemma critical_rule_takes_next_line_witness :
  exists after,
    criticalLines false 0%Z
      [lit ".btn { color: red }"; lit "footer { margin: 0 }"; lit "p {}"]
    = lit ".btn { color: red }" :: lit "footer { margin: 0 }" :: after.
Proof.
  apply (critical_rule_takes_next_line (lit ".btn { color: red }")
           (lit "footer { margin: 0 }") [lit "p {}"] 0%Z);
    vm_compute; reflexivity.
Defined.

Lemma critical_block_captured_whole_witness :
  criticalLines false 0%Z
    (lit ".hero {" :: [lit "  margin: 0;"; lit "  color: red;"]
       ++ lit "}" :: [lit "footer {"; lit "  margin: 0;"; lit "}"])
  = lit ".hero {" :: [lit "  margin: 0;"; lit "  color: red;"]
      ++ lit "}"
      :: criticalLines false 0%Z [lit "footer {"; lit "  margin: 0;"; lit "}"].
Proof.
  apply (critical_block_captured_whole (lit ".hero {") (lit "}")
           [lit "  margin: 0;"; lit "  color: red;"]
           [lit "footer {"; lit "  margin: 0;"; lit "}"] 0%Z);
    vm_compute; reflexivity.
Defined.

Lemma nothing_critical_nothing_extracted_witness :
  extractCriticalCSS (lit "footer { margin: 0 }" ++ [LF] ++ lit "p { }") = [].
Proof.
  apply (nothing_critical_nothing_extracted
           (lit "footer { margin: 0 }" ++ [LF] ++ lit "p { }")).
  vm_compute. reflexivity.
Defined.

End CriticalExtraction.

(** ** The file steps of the style sheet script *)

Section StyleSheetFiles.

Import OptimizeCssFiles.

Variable ensureDirectory : Build.path -> bool.

Lemma minifyCSS_length (s : jsstring) :
  (List.length (OptimizeCss.minifyCSS s) <= List.length s)%nat.
Proof.
  unfold OptimizeCss.minifyCSS, OptimizeCss.dropEmptyRules, tighten,
    collapseWhitespace.
  pose proof (length_stripBlockComments s) as H1.
  pose proof (length_collapseWhitespace_go (stripBlockComments s) false) as H2.
  pose proof (length_tighten_go OptimizeCss.is_punct
                (collapseWhitespace_go false (stripBlockComments s)) false)
    as H3.
  pose proof (length_dropTrailingSemicolons
                (tighten_go OptimizeCss.is_punct false
                   (collapseWhitespace_go false (stripBlockComments s))))
    as H4.
  pose proof (length_dropEmptyRules_go
                (OptimizeCss.dropTrailingSemicolons
                   (tighten_go OptimizeCss.is_punct false
                      (collapseWhitespace_go false (stripBlockComments s))))
                OptimizeCss.Scan) as H5.
  pose proof (length_trim
                (OptimizeCss.dropEmptyRules_go OptimizeCss.Scan
                   (OptimizeCss.dropTrailingSemicolons
                      (tighten_go OptimizeCss.is_punct false
                         (collapseWhitespace_go false
                            (stripBlockComments s)))))) as H6.
  lia.
Qed.

(** What [processCSSFile] writes for a source: with markup, the
    minified purge; without, the minified source. *)
Definition processedSheet (content htmlContent : jsstring) : jsstring :=
  OptimizeCss.minifyCSS
    match htmlContent with
    | [] => content
    | _ :: _ => OptimizeCss.purgeUnusedCSS content htmlContent
    end.

(** [processCSSFile] either fails and leaves the files as they were (no
    source, no output directory, no write), or writes the processed
    sheet at its output path and nowhere else; with empty markup the
    purge is skipped and the sheet written is never longer than the
    source. *)
Theorem processCSSFile_outcome (fs : Build.fileSystem)
  (input output : Build.path) (htmlContent : jsstring) :
  match Build.files fs input,
        ensureDirectory (dirname output) && Build.writable fs output with
  | Some content, true =>
      exists fs' a,
        processCSSFile ensureDirectory fs input output htmlContent
        = (fs', Build.Ok a)
        /\ Build.files fs' output = Some (processedSheet content htmlContent)
        /\ (forall q, q <> output -> Build.files fs' q = Build.files fs q)
        /\ Build.writable fs' = Build.writable fs
        /\ Build.inputPath a = input
        /\ Build.originalSize a = List.length content
        /\ Build.producedSize a
           = List.length (processedSheet content htmlContent)
        /\ (htmlContent = [] ->
            (Build.producedSize a <= Build.originalSize a)%nat)
  | _, _ =>
      exists e,
        processCSSFile ensureDirectory fs input output htmlContent
        = (fs, Build.Err e)
  end.
Proof.
  unfold processCSSFile, readCSSFile, writeCSSFile, Build.readFile,
    Build.writeFile.
  destruct (Build.files fs input) as [content|]; [|eexists; reflexivity].
  destruct (ensureDirectory (dirname output)); cbn [andb];
    [|eexists; reflexivity].
  destruct (Build.writable fs output); [|eexists; reflexivity].
  eexists; eexists. split; [reflexivity|].
  cbn [Build.files Build.writable Build.inputPath Build.originalSize
       Build.producedSize].
  rewrite String.eqb_refl. unfold processedSheet.
  repeat split.
  - intros q Hq. apply String.eqb_neq in Hq. rewrite Hq. reflexivity.
  - intros ->. apply minifyCSS_length.
Qed.

(** [generateCriticalCSS] either fails and leaves the files as they
    were, or writes the minified extraction at its output path and
    nowhere else; the size it reports is the length of that text, never
    above the length of the main style sheet. *)
Theorem generateCriticalCSS_outcome (fs : Build.fileSystem)
  (main output : Build.path) :
  match Build.files fs main,
        ensureDirectory (dirname output) && Build.writable fs output with
  | Some content, true =>
      exists fs' a,
        generateCriticalCSS ensureDirectory fs main output
        = (fs', Build.Ok a)
        /\ Build.files fs' output
           = Some (OptimizeCss.minifyCSS (extractCriticalCSS content))
        /\ (forall q, q <> output -> Build.files fs' q = Build.files fs q)
        /\ size a
           = List.length (OptimizeCss.minifyCSS (extractCriticalCSS content))
        /\ (size a <= List.length content)%nat
  | _, _ =>
      exists e,
        generateCriticalCSS ensureDirectory fs main output
        = (fs, Build.Err e)
  end.
Proof.
  unfold generateCriticalCSS, readCSSFile, writeCSSFile, Build.readFile,
    Build.writeFile.
  destruct (Build.files fs main) as [content|]; [|eexists; reflexivity].
  destruct (ensureDirectory (dirname output)); cbn [andb];
    [|eexists; reflexivity].
  destruct (Build.writable fs output); [|eexists; reflexivity].
  eexists; eexists. split; [reflexivity|].
  cbn [Build.files size]. rewrite String.eqb_refl.
  repeat split.
  - intros q Hq. apply String.eqb_neq in Hq. rewrite Hq. reflexivity.
  - pose proof (minifyCSS_length (extractCriticalCSS content)) as H1.
    pose proof (length_extractCriticalCSS content) as H2.
    lia.
Qed.

(** A style sheet of the directory that [processCSSFile] can process:
    its source can be read and its output written. *)
Definition processable (fs : Build.fileSystem) (file : string) : bool :=
  match Build.files fs (String.append "styles/" file) with
  | Some _ => true
  | None => false
  end
  && ensureDirectory (dirname (String.append "dist/styles/" file))
  && Build.writable fs (String.append "dist/styles/" file).

(** Two file systems with the same sources and the same write
    permissions. *)
Definition sameSources (fs fs' : Build.fileSystem) : Prop :=
  (forall file, Build.files fs' (String.append "styles/" file)
                = Build.files fs (String.append "styles/" file))
  /\ Build.writable fs' = Build.writable fs.

Lemma processCSSFile_step (fs : Build.fileSystem) (file : string)
  (htmlContent : jsstring) :
  let run := processCSSFile ensureDirectory fs (String.append "styles/" file)
               (String.append "dist/styles/" file) htmlContent in
  sameSources fs (fst run)
  /\ if processable fs file
     then exists a, snd run = Build.Ok a
                    /\ Build.inputPath a = String.append "styles/" file
     else exists e, snd run = Build.Err e /\ fst run = fs.
Proof.
  unfold processable, processCSSFile, readCSSFile, writeCSSFile,
    Build.readFile, Build.writeFile, sameSources.
  destruct (Build.files fs (String.append "styles/" file)) as [content|];
    [|cbn; split; [split; reflexivity|eexists; split; reflexivity]].
  destruct (ensureDirectory (dirname (String.append "dist/styles/" file)));
    [|cbn; split; [split; reflexivity|eexists; split; reflexivity]].
  destruct (Build.writable fs (String.append "dist/styles/" file));
    [|cbn; split; [split; reflexivity|eexists; split; reflexivity]].
  cbn. split; [split; reflexivity|eexists; split; reflexivity].
Qed.

Lemma processEach_inputs (htmlContent : jsstring) (names : list string)
  (fs : Build.fileSystem) :
  forall fs0 results,
    sameSources fs fs0 ->
    sameSources fs (fst (processEach ensureDirectory htmlContent names
                           fs0 results))
    /\ map Build.inputPath
         (snd (processEach ensureDirectory htmlContent names fs0 results))
       = map Build.inputPath results
         ++ map (String.append "styles/") (filter (processable fs) names).
Proof.
  induction names as [|file rest IH]; intros fs0 results Hsame.
  - cbn. rewrite app_nil_r. split; [exact Hsame|reflexivity].
  - cbn [processEach filter].
    destruct (processCSSFile_step fs0 file htmlContent) as [Hnext Hrun].
    assert (Hp : processable fs0 file = processable fs file).
    { destruct Hsame as [Hfiles Hw]. unfold processable.
      rewrite Hfiles, Hw. reflexivity. }
    assert (Hsame' : forall fs1, sameSources fs0 fs1 -> sameSources fs fs1).
    { intros fs1 [H1 H2]. destruct Hsame as [Hfiles Hw].
      split; [intros f; rewrite H1; apply Hfiles|congruence]. }
    rewrite Hp in Hrun.
    destruct (processCSSFile ensureDirectory fs0
                (String.append "styles/" file)
                (String.append "dist/styles/" file) htmlContent)
      as [fs1 outcome].
    cbn [fst snd] in Hnext, Hrun.
    destruct (processable fs file).
    + destruct Hrun as (a & -> & Hin).
      destruct (IH fs1 (results ++ [a]) (Hsame' fs1 Hnext)) as [IH1 IH2].
      split; [exact IH1|].
      rewrite IH2, map_app. cbn [map]. rewrite Hin, <- app_assoc.
      reflexivity.
    + destruct Hrun as (e & -> & ->). apply IH. exact Hsame.
Qed.

(** [optimizeCSS] processes every style sheet it can and leaves out the
    others without stopping: its results are, in the order of the
    directory, the sheets with a readable source and a writable output,
    and it then goes on to the critical step; it exits with code 1 only
    when the output directory cannot be made or the directory of the
    style sheets cannot be listed, and then writes nothing. *)
Theorem optimizeCSS_isolates_failures (stylesDir : option (list string))
  (fs : Build.fileSystem) :
  match ensureDirectory "dist/styles", stylesDir with
  | true, Some cssFiles =>
      exited (optimizeCSS ensureDirectory stylesDir fs) = false
      /\ map Build.inputPath
           (results (optimizeCSS ensureDirectory stylesDir fs))
         = map (String.append "styles/")
               (filter (processable fs)
                  (filter (fun file => Build.hasSuffix file ".css") cssFiles))
      /\ criticalResult (optimizeCSS ensureDirectory stylesDir fs) <> None
  | _, _ =>
      exited (optimizeCSS ensureDirectory stylesDir fs) = true
      /\ filesAfter (optimizeCSS ensureDirectory stylesDir fs) = fs
      /\ results (optimizeCSS ensureDirectory stylesDir fs) = []
  end.
Proof.
  unfold optimizeCSS.
  destruct (ensureDirectory "dist/styles"); [|repeat split].
  destruct stylesDir as [cssFiles|]; [|repeat split].
  match goal with |- context [processEach ?e ?h ?n fs []] =>
    pose proof (processEach_inputs h n fs fs []
                  (conj (fun _ => eq_refl) eq_refl)) as [_ Hin];
    destruct (processEach e h n fs []) as [fs1 processed] end.
  destruct (generateCriticalCSS ensureDirectory fs1 "styles/main.css"
              Build.criticalCSSPath) as [fs2 critical].
  cbn [exited results criticalResult]. cbn [snd map app] in Hin.
  split; [reflexivity|]. split; [exact Hin|discriminate].
Qed.

End StyleSheetFiles.

(** ** The script and markup stages of the build *)

Section BuildStages.

Import Stages.

Variable ensureDirectory : Build.path -> bool.

Lemma append_assoc (a b c : string) :
  String.append (String.append a b) c = String.append a (String.append b c).
Proof.
  induction a as [|x a IH]; cbn [String.append]; [reflexivity|].
  rewrite IH. reflexivity.
Qed.

(** Every script [findJavaScriptFiles] finds lies under the directory
    it was started in. *)
Lemma findJavaScriptFiles_under :
  forall (n : Build.node) (prefix : string),
    Forall (fun f => exists r, fst f = String.append prefix r)
      (Build.findJavaScriptFiles prefix n).
Proof.
  fix IH 1. intros [name size|name size entries|name regular] prefix;
    cbn [Build.findJavaScriptFiles].
  - destruct (Build.hasSuffix name ".js"); constructor; [|constructor].
    exists name. reflexivity.
  - induction entries as [|e es IHes]; cbn [flat_map]; [constructor|].
    apply Forall_app. split; [|exact IHes].
    eapply Forall_impl; [|apply IH].
    intros f [r Hr]. exists (String.append (String.append name "/") r).
    rewrite Hr. apply append_assoc.
  - destruct (regular && Build.hasSuffix name ".js"); constructor;
      [|constructor].
    exists name. reflexivity.
Qed.

Lemma scripts_under_js (entries : list Build.node) :
  Forall (fun p => exists r, p = String.append "js/" r)
    (map fst (flat_map (Build.findJavaScriptFiles "js/") entries)).
Proof.
  induction entries as [|e es IH]; cbn [flat_map map]; [constructor|].
  rewrite map_app. apply Forall_app. split; [|exact IH].
  apply Forall_map. apply findJavaScriptFiles_under.
Qed.

(** A script that [minifyJSFile] can process: its source can be read
    and its output written. *)
Definition minifiable (fs : Build.fileSystem) (filePath : Build.path) : bool :=
  match Build.files fs filePath with
  | Some _ => true
  | None => false
  end
  && Build.writable fs (String.append "dist/" filePath).

(** Two file systems with the same scripts and the same write
    permissions. *)
Definition sameScripts (fs fs' : Build.fileSystem) : Prop :=
  (forall r, Build.files fs' (String.append "js/" r)
             = Build.files fs (String.append "js/" r))
  /\ Build.writable fs' = Build.writable fs.

Lemma minifyJSFile_step (fs : Build.fileSystem) (r : string) :
  let run := Build.minifyJSFile fs (String.append "js/" r)
               (String.append "dist/" (String.append "js/" r)) in
  sameScripts fs (fst run)
  /\ if minifiable fs (String.append "js/" r)
     then exists a, snd run = Build.Ok a
                    /\ Build.inputPath a = String.append "js/" r
     else exists e, snd run = Build.Err e /\ fst run = fs.
Proof.
  unfold minifiable, Build.minifyJSFile, Build.readFile, Build.writeFile,
    sameScripts.
  destruct (Build.files fs (String.append "js/" r)) as [content|];
    [|cbn; split; [split; reflexivity|eexists; split; reflexivity]].
  destruct (Build.writable fs
              (String.append "dist/" (String.append "js/" r)));
    [|cbn; split; [split; reflexivity|eexists; split; reflexivity]].
  cbn. split; [split; reflexivity|eexists; split; reflexivity].
Qed.

Lemma minifyEach_inputs (fs : Build.fileSystem) (jsFiles : list Build.path) :
  Forall (fun p => exists r, p = String.append "js/" r) jsFiles ->
  forallb (fun p => ensureDirectory
                      (OptimizeCssFiles.dirname (String.append "dist/" p)))
    jsFiles = true ->
  forall fs0 results,
    sameScripts fs fs0 ->
    exists fs' minified,
      minifyEach ensureDirectory jsFiles fs0 results
      = (fs', Build.Ok minified)
      /\ sameScripts fs fs'
      /\ map Build.inputPath minified
         = map Build.inputPath results ++ filter (minifiable fs) jsFiles.
Proof.
  induction 1 as [|p rest [r ->] _ IH]; intros Hdirs fs0 results Hsame.
  - exists fs0, results. cbn. rewrite app_nil_r. repeat split; apply Hsame.
  - cbn [forallb] in Hdirs. apply andb_true_iff in Hdirs as [Hdir Hdirs].
    cbn [minifyEach filter]. rewrite Hdir.
    destruct (minifyJSFile_step fs0 r) as [Hnext Hrun].
    assert (Hp : minifiable fs0 (String.append "js/" r)
                 = minifiable fs (String.append "js/" r)).
    { destruct Hsame as [Hfiles Hw]. unfold minifiable.
      rewrite Hfiles, Hw. reflexivity. }
    assert (Hsame' : forall fs1, sameScripts fs0 fs1 -> sameScripts fs fs1).
    { intros fs1 [H1 H2]. destruct Hsame as [Hfiles Hw].
      split; [intros f; rewrite H1; apply Hfiles|congruence]. }
    rewrite Hp in Hrun.
    destruct (Build.minifyJSFile fs0 (String.append "js/" r)
                (String.append "dist/" (String.append "js/" r)))
      as [fs1 outcome].
    cbn [fst snd] in Hnext, Hrun.
    destruct (minifiable fs (String.append "js/" r)).
    + destruct Hrun as (a & -> & Hin).
      destruct (IH Hdirs fs1 (results ++ [a]) (Hsame' fs1 Hnext))
        as (fs' & minified & Hrun & Hs & Hmap).
      exists fs', minified. split; [exact Hrun|]. split; [exact Hs|].
      rewrite Hmap, map_app. cbn [map]. rewrite Hin, <- app_assoc.
      reflexivity.
    + destruct Hrun as (e & -> & ->). apply IH; assumption.
Qed.

(** When the output directories can be made, [minifyJavaScript]
    succeeds whatever happens to single scripts: it minifies, in
    traversal order, exactly the scripts whose source can be read and
    whose output can be written, and leaves the others out without
    stopping. *)
Theorem minifyJavaScript_isolates_failures (entries : list Build.node)
  (fs : Build.fileSystem) :
  ensureDirectory "dist/js" = true ->
  forallb (fun p => ensureDirectory
                      (OptimizeCssFiles.dirname (String.append "dist/" p)))
    (map fst (flat_map (Build.findJavaScriptFiles "js/") entries)) = true ->
  exists fs' minified,
    minifyJavaScript ensureDirectory (Some entries) fs
    = (fs', Build.Ok minified)
    /\ map Build.inputPath minified
       = filter (minifiable fs)
           (map fst (flat_map (Build.findJavaScriptFiles "js/") entries)).
Proof.
  intros Hroot Hdirs. unfold minifyJavaScript. rewrite Hroot.
  destruct (minifyEach_inputs fs _ (scripts_under_js entries) Hdirs fs []
              (conj (fun _ => eq_refl) eq_refl))
    as (fs' & minified & Hrun & _ & Hmap).
  exists fs', minified. split; [exact Hrun|exact Hmap].
Qed.

(** [minifyJavaScript] fails as a whole only on a directory: when the
    output directory cannot be made or the script directory cannot be
    listed it writes nothing, and when the directory of one script
    cannot be made it stops there. *)
Theorem minifyJavaScript_fails_on_directories
  (jsDir : option (list Build.node)) (fs fs' : Build.fileSystem)
  (e : Build.error) :
  minifyJavaScript ensureDirectory jsDir fs = (fs', Build.Err e) ->
  (ensureDirectory "dist/js" = false /\ fs' = fs)
  \/ (jsDir = None /\ fs' = fs)
  \/ exists entries,
       jsDir = Some entries
       /\ forallb (fun p => ensureDirectory
                      (OptimizeCssFiles.dirname (String.append "dist/" p)))
            (map fst (flat_map (Build.findJavaScriptFiles "js/") entries))
          = false.
Proof.
  unfold minifyJavaScript. intros Hrun.
  destruct (ensureDirectory "dist/js") eqn:Hroot.
  - destruct jsDir as [entries|].
    + right; right. exists entries. split; [reflexivity|].
      destruct (forallb _ _) eqn:Hdirs; [|reflexivity].
      destruct (minifyEach_inputs fs _ (scripts_under_js entries) Hdirs
                  fs [] (conj (fun _ => eq_refl) eq_refl))
        as (fs1 & minified & Hrun' & _).
      rewrite Hrun' in Hrun. discriminate.
    + right; left. injection Hrun as <- _. split; reflexivity.
  - left. injection Hrun as <- _. split; reflexivity.
Qed.

End BuildStages.

(** [optimizeHTML] never reports failure: a page that cannot be read or
    written is left out, the files staying as they were, and nothing
    but the output page is ever written. *)
Theorem optimizeHTML_never_fails (fs : Build.fileSystem) :
  exists fs' pages,
    Stages.optimizeHTML fs = (fs', Build.Ok pages)
    /\ (forall q, q <> "dist/index.html"%string ->
                  Build.files fs' q = Build.files fs q)
    /\ match Build.files fs "index.html",
             Build.writable fs "dist/index.html" with
       | Some content, true =>
           exists a, pages = [a]
                     /\ Build.inputPath a = "index.html"%string
                     /\ Build.originalSize a = List.length content
       | _, _ => pages = [] /\ fs' = fs
       end.
Proof.
  unfold Stages.optimizeHTML, Stages.optimizeEach, Build.optimizeHTMLFile,
    Build.readFile, Build.writeFile.
  cbn [String.append].
  destruct (Build.files fs "index.html") as [content|];
    [|exists fs, []; repeat split].
  destruct (Build.writable fs "dist/index.html");
    [|exists fs, []; repeat split].
  eexists; eexists. split; [reflexivity|]. split.
  - intros q Hq. cbn [Build.files]. apply String.eqb_neq in Hq.
    rewrite Hq. reflexivity.
  - eexists. split; [reflexivity|]. split; reflexivity.
Qed.

(** A script directory with one nested directory, of which only
    [js/main.js] can be read. *)
Definition scriptTree : list Build.node :=
  [ Build.File "main.js" 24;
    Build.Dir "vendor" 4096
      [Build.File "lib.js" 12; Build.File "readme.md" 3] ].

Definition onlyMainReadable : Build.fileSystem :=
  {| Build.files := fun p =>
       if String.eqb p "js/main.js"
       then Some (lit "let a = 1; // one")
       else None;
     Build.writable := fun _ => true |}.

Lemma minifyJavaScript_isolates_failures_witness :
  exists fs' minified,
    Stages.minifyJavaScript (fun _ => true) (Some scriptTree) onlyMainReadable
    = (fs', Build.Ok minified)
    /\ map Build.inputPath minified
       = filter (minifiable onlyMainReadable)
           (map fst (flat_map (Build.findJavaScriptFiles "js/") scriptTree)).
Proof.
  apply (minifyJavaScript_isolates_failures (fun _ => true) scriptTree
           onlyMainReadable); reflexivity.
Defined.

Lemma minifyJavaScript_fails_on_directories_witness :
  ((fun p => negb (String.eqb p "dist/js")) "dist/js"%string = false
   /\ onlyMainReadable = onlyMainReadable)
  \/ (Some scriptTree = None /\ onlyMainReadable = onlyMainReadable)
  \/ exists entries,
       Some scriptTree = Some entries
       /\ forallb (fun p => (fun p => negb (String.eqb p "dist/js"))
                      (OptimizeCssFiles.dirname (String.append "dist/" p)))
            (map fst (flat_map (Build.findJavaScriptFiles "js/") entries))
          = false.
Proof.
  apply (minifyJavaScript_fails_on_directories
           (fun p => negb (String.eqb p "dist/js")) (Some scriptTree)
           onlyMainReadable onlyMainReadable (Build.WriteError "dist/js")).
  reflexivity.
Defined.

(** ** What the purge keeps whatever the markup *)

Section PurgeKeeps.

Import OptimizeCss.

(** The tests of the purge loop that do not look at the markup:
    at-rules, selectors that open with a colon or hold a double colon,
    and selectors that open with an element of the allow-list. *)
Definition structural (selectorTrimmed : jsstring) : bool :=
  startsWith selectorTrimmed [AT]
  || startsWith selectorTrimmed [COLON]
  || includes selectorTrimmed [COLON; COLON]
  || startsWithElement selectorTrimmed.

(** A rule whose trimmed selector passes one of the tests that do not
    look at the markup is in the purged output with any markup. *)
Theorem purge_keeps_structural_rules (css html rule : jsstring) :
  In rule (rulesOf css) ->
  structural (trim (selectorOf rule)) = true ->
  includes (purgeUnusedCSS css html) (rule ++ [RBRACE]) = true.
Proof.
  intros Hrule Hs. apply kept_rule_in_output; [exact Hrule|].
  unfold keepsRule, shouldKeep. unfold structural in Hs.
  destruct (selectorOf rule) as [|c sel] eqn:Hsel;
    [vm_compute in Hs; discriminate|].
  cbn [nonEmpty andb].
  apply orb_true_iff in Hs as [Hs|Hs]; [|rewrite Hs; apply orb_true_r].
  apply orb_true_iff in Hs as [Hs|Hs];
    [|rewrite Hs; rewrite !orb_true_r; reflexivity].
  apply orb_true_iff in Hs as [Hs|Hs]; rewrite Hs;
    rewrite ?orb_true_r; reflexivity.
Qed.

Definition sheetWithMedia : jsstring :=
  lit "@media print{.hidden{display:none}}.unused{color:blue}".

Lemma purge_keeps_structural_rules_witness :
  includes (purgeUnusedCSS sheetWithMedia markupA)
           (lit "@media print{.hidden{display:none" ++ [RBRACE]) = true.
Proof.
  apply (purge_keeps_structural_rules sheetWithMedia markupA
           (lit "@media print{.hidden{display:none")).
  - vm_compute. left. reflexivity.
  - vm_compute. reflexivity.
Defined.

(** White space at the end of a text leaves an empty last piece in its
    split, and at least two pieces when the split starts outside a
    run. *)
Lemma splitWhitespace_trailing (s : jsstring) :
  forall inRun,
    s <> [] ->
    is_space (last s 0) = true ->
    last (splitWhitespace_go inRun s) [0] = []
    /\ (inRun = false ->
        (2 <= List.length (splitWhitespace_go inRun s))%nat).
Proof.
  induction s as [|c t IH]; intros inRun Hne Hlast; [congruence|].
  destruct t as [|d t'].
  - cbn [last] in Hlast. cbn [splitWhitespace_go]. rewrite Hlast.
    destruct inRun; cbn; split; (reflexivity || lia || discriminate).
  - assert (Hne' : d :: t' <> []) by discriminate.
    change (last (c :: d :: t') 0) with (last (d :: t') 0) in Hlast.
    remember (d :: t') as t eqn:Heqt. clear Heqt d t'.
    cbn [splitWhitespace_go].
    destruct (is_space c).
    + destruct (IH true Hne' Hlast) as [Ht _].
      destruct inRun; [split; [exact Ht|discriminate]|].
      destruct (splitWhitespace_go true t) as [|h r];
        [discriminate|].
      split; [exact Ht|intros _; cbn; lia].
    + destruct (IH false Hne' Hlast) as [Ht Hlen].
      specialize (Hlen eq_refl).
      destruct (splitWhitespace_go false t) as [|h [|h' r]];
        [cbn in Hlen; lia|cbn in Hlen; lia|].
      split; [exact Ht|intros _; cbn; lia].
Qed.

Lemma splitWhitespace_edge (value : jsstring) :
  value <> [] ->
  is_space (hd 0 value) || is_space (last value 0) = true ->
  In [] (splitWhitespace value).
Proof.
  intros Hne Hedge. unfold splitWhitespace.
  apply orb_true_iff in Hedge as [Hhd|Hlast].
  - destruct value as [|c t]; [congruence|].
    cbn [hd] in Hhd. cbn [splitWhitespace_go]. rewrite Hhd. left; reflexivity.
  - destruct (splitWhitespace_trailing value false Hne Hlast) as [Hl _].
    destruct (splitWhitespace_go false value) as [|h r] eqn:Hgo;
      [discriminate|].
    rewrite <- Hl. clear Hgo Hl. revert h.
    induction r as [|h' r IHr]; intros h.
    + left; reflexivity.
    + right. change (last (h :: h' :: r) [0]) with (last (h' :: r) [0]).
      apply IHr.
Qed.

(** When the value of the first double-quoted class attribute of the
    markup begins or ends with white space, the empty piece of its
    split is collected as a class, and the purge keeps every rule whose
    selector holds a dot, whatever its class names. *)
Theorem padded_class_value_keeps_class_rules
  (css pre value post rule : jsstring) :
  In rule (rulesOf css) ->
  includes (selectorOf rule) [DOT] = true ->
  includes pre (classKey ++ [DQUOTE]) = false ->
  includes pre (classKey ++ [SQUOTE]) = false ->
  value <> [] ->
  Forall (fun c => is_quote c = false) value ->
  is_space (hd 0 value) || is_space (last value 0) = true ->
  includes (purgeUnusedCSS css
              (pre ++ classKey ++ [DQUOTE] ++ value ++ [DQUOTE] ++ post))
           (rule ++ [RBRACE]) = true.
Proof.
  intros Hrule Hsel Hd Hs Hne Hv Hedge.
  pose proof (first_class_attribute_collected pre value post []
                Hd Hs Hne Hv (splitWhitespace_edge value Hne Hedge))
    as Hcollected.
  apply kept_rule_in_output; [exact Hrule|].
  apply (keepsRule_used_class _ _ rule [] Hcollected);
    [constructor|exact Hsel].
Qed.

Lemma padded_class_value_keeps_class_rules_witness :
  includes (purgeUnusedCSS scenarioA
              (lit "<div " ++ classKey ++ [DQUOTE] ++ lit "hero "
               ++ [DQUOTE] ++ lit "></div>"))
           (lit ".unused{color:blue" ++ [RBRACE]) = true.
Proof.
  apply (padded_class_value_keeps_class_rules scenarioA (lit "<div ")
           (lit "hero ") (lit "></div>") (lit ".unused{color:blue")).
  - vm_compute. right. left. reflexivity.
  - vm_compute. reflexivity.
  - vm_compute. reflexivity.
  - vm_compute. reflexivity.
  - discriminate.
  - repeat constructor.
  - vm_compute. reflexivity.
Defined.

End PurgeKeeps.
